(** * Clipper transaction-report parser: position classifier, text
      reconstructor, record parser and table assembler.

    A shallow embedding of [clipper.go] (package [clipper]) and the
    properties of its PDF-to-table core. *)

From Stdlib Require Import ZArith List String Ascii Bool Lia.
From Stdlib Require Import Floats.SpecFloat.
Import ListNotations.

Set Warnings "-register-all".

Open Scope string_scope.
Open Scope list_scope.
Open Scope Z_scope.

(** ** IEEE-754 binary64 values, as Go's [float64] *)

Module Float64.

Definition prec : Z := 53.
Definition emax : Z := 1024.

Definition float64 : Type := spec_float.

(** [float64(n)] for an integer [n]: rounded to nearest, ties to even. *)
Definition ofZ (n : Z) : float64 := binary_normalize prec emax n 0 false.

Definition add (x y : float64) : float64 := SFadd prec emax x y.
Definition sub (x y : float64) : float64 := SFsub prec emax x y.
Definition div (x y : float64) : float64 := SFdiv prec emax x y.

(** The decimal constant [m / 10^k] converted to [float64]: numerator and
    denominator are exact, so the correctly rounded quotient is the
    nearest double of the literal. *)
Definition decimal (m : Z) (k : Z) : float64 := div (ofZ m) (ofZ (10 ^ k)).

(** Go's comparison operators; each is false when an operand is NaN. *)
Definition ltb (x y : float64) : bool := SFltb x y.
Definition leb (x y : float64) : bool := SFleb x y.
Definition gtb (x y : float64) : bool := ltb y x.
Definition geb (x y : float64) : bool := leb y x.
Definition eqb (x y : float64) : bool := SFeqb x y.

End Float64.

Import Float64.

(** ** Outcomes of Go code that may panic *)

Inductive panic : Type :=
| InvalidPos (pos : float64)      (* panic(fmt.Sprintf("invalid pos %v", pos)) *)
| NotExpected                     (* panic("not expected") *)
| NegativeRepeat (count : Z)      (* strings.Repeat with a negative count *)
| NegativeLen (n : Z).            (* make([]string, n) with a negative n *)

Inductive outcome (A : Type) : Type :=
| Returns (a : A)
| Panics (p : panic).

Arguments Returns {A} a.
Arguments Panics {A} p.

Definition bind {A B : Type} (m : outcome A) (k : A -> outcome B) : outcome B :=
  match m with
  | Returns a => k a
  | Panics p => Panics p
  end.

Notation "x <- m ;; k" := (bind m (fun x => k))
  (at level 61, m at next level, right associativity).

(** ** Position classifier *)

(** [var positions = []float64{28, 133.71, ...}] *)
Definition positions : list float64 :=
  [ ofZ 28;
    decimal 13371 2;
    decimal 35924 2;
    decimal 47905 2;
    decimal 52838 2;
    decimal 65588 2;
    decimal 68578 2;
    decimal 72222 2 ].

(** [positions[i]]; every use below is in range. *)
Definition position (i : nat) : float64 := nth i positions S754_nan.

(** [halfway := positions[i] + (positions[i+1]-positions[i])/2] *)
Definition halfway (i : nat) : float64 :=
  add (position i) (div (sub (position (S i)) (position i)) (ofZ 2)).

(** The [for i := ...; i < len(positions)-1; i++] loop of
    [findPositionIdx], with [n] iterations left starting at index [i];
    [None] when the loop runs to its end. *)
Fixpoint halfwayLoop (pos : float64) (i n : nat) : option Z :=
  match n with
  | O => None
  | S n' =>
      if ltb pos (halfway i) then Some (Z.of_nat i)
      else halfwayLoop pos (S i) n'
  end.

Definition findPositionIdx (pos : float64) : outcome Z :=
  if ltb pos (ofZ 0) || gtb pos (ofZ 1100) then Panics (InvalidPos pos)
  else if leb pos (position 0) then Returns 0
  else if geb pos (position (List.length positions - 1)) then
    Returns (Z.of_nat (List.length positions) - 1)
  else
    match halfwayLoop pos 0 (List.length positions - 1) with
    | Some i => Returns i
    | None => Returns (Z.of_nat (List.length positions) - 1)
    end.

Definition howManyTabs (prevPos curPos : float64) : outcome Z :=
  if geb prevPos curPos then Panics NotExpected
  else
    idx <- findPositionIdx prevPos ;;
    idx2 <- findPositionIdx curPos ;;
    Returns (idx2 - idx).

(** ** The Go library functions the parser calls *)

Definition tab : ascii := "009"%char.
Definition newline : ascii := "010"%char.
Definition carriageReturn : ascii := "013"%char.
Definition space : ascii := " "%char.

(** [len(s)] of a slice. *)
Definition len {A : Type} (s : list A) : Z := Z.of_nat (List.length s).

(** [s[i]] of a slice of strings, where the source has checked [len(s)]. *)
Definition index (s : list string) (i : nat) : string := nth i s EmptyString.

(** [strings.Split(s, sep)] for a separator of one byte, which is how the
    source calls it: the fields between the separators, at least one. *)
Fixpoint Split (s : string) (sep : ascii) : list string :=
  match s with
  | EmptyString => [EmptyString]
  | String c rest =>
      if Ascii.eqb c sep then EmptyString :: Split rest sep
      else match Split rest sep with
           | [] => [String c EmptyString]
           | field :: fields => String c field :: fields
           end
  end.

(** [strings.HasPrefix(s, prefix)] *)
Definition HasPrefix (s pre : string) : bool := String.prefix pre s.

(** [strings.Contains(s, substr)] *)
Fixpoint Contains (s substr : string) : bool :=
  String.prefix substr s ||
  match s with
  | EmptyString => false
  | String _ rest => Contains rest substr
  end.

(** [strings.Repeat(s, count)]; a negative count panics. *)
Definition Repeat (s : string) (count : Z) : outcome string :=
  if count <? 0 then Panics (NegativeRepeat count)
  else Returns (String.concat EmptyString (repeat s (Z.to_nat count))).

(** [bufio.Scanner] with the default [ScanLines] split function over a
    [strings.Reader], read to the end by [for bs.Scan() { bs.Text() }]:
    the text is cut at every newline, an empty remainder after the last
    newline is no line, one trailing carriage return is dropped from each
    line, and scanning stops (the error is not looked at) at the first line
    that does not fit the scanner's buffer of [MaxScanTokenSize] bytes. *)
Definition MaxScanTokenSize : Z := 64 * 1024.

Fixpoint dropCR (s : string) : string :=
  match s with
  | EmptyString => EmptyString
  | String c rest =>
      match rest with
      | EmptyString =>
          if Ascii.eqb c carriageReturn then EmptyString else s
      | String _ _ => String c (dropCR rest)
      end
  end.

Definition rawLines (s : string) : list string :=
  let segments := Split s newline in
  match last segments EmptyString with
  | EmptyString => removelast segments
  | String _ _ => segments
  end.

Fixpoint scanFitting (lines : list string) : list string :=
  match lines with
  | [] => []
  | l :: rest =>
      if Z.of_nat (String.length l) <? MaxScanTokenSize
      then dropCR l :: scanFitting rest
      else []
  end.

Definition scanLines (s : string) : list string := scanFitting (rawLines s).

(** [strconv.ParseInt(s, 10, 64)]: the value and the kind of error. *)
Inductive NumError : Type := ErrSyntax | ErrRange.

Definition maxUint64 : Z := 2 ^ 64 - 1.

Definition digit (c : ascii) : option Z :=
  let n := Z.of_nat (nat_of_ascii c) in
  if (48 <=? n) && (n <=? 57) then Some (n - 48) else None.

(** The digit loop of [strconv.ParseUint] in base 10 on 64 bits. *)
Fixpoint parseUintLoop (s : string) (n : Z) : Z * option NumError :=
  match s with
  | EmptyString => (n, None)
  | String c rest =>
      match digit c with
      | None => (0, Some ErrSyntax)
      | Some d =>
          if maxUint64 / 10 + 1 <=? n then (maxUint64, Some ErrRange)
          else
            let n1 := n * 10 + d in
            if maxUint64 <? n1 then (maxUint64, Some ErrRange)
            else parseUintLoop rest n1
      end
  end.

Definition ParseUint (s : string) : Z * option NumError :=
  match s with
  | EmptyString => (0, Some ErrSyntax)
  | String _ _ => parseUintLoop s 0
  end.

Definition ParseInt (s : string) : Z * option NumError :=
  match s with
  | EmptyString => (0, Some ErrSyntax)
  | String c rest =>
      let '(neg, digits) :=
        if Ascii.eqb c "+"%char then (false, rest)
        else if Ascii.eqb c "-"%char then (true, rest)
        else (false, s) in
      match ParseUint digits with
      | (_, Some ErrSyntax) => (0, Some ErrSyntax)
      | (un, _) =>
          let cutoff := 2 ^ 63 in
          if negb neg && (cutoff <=? un) then (cutoff - 1, Some ErrRange)
          else if neg && (cutoff <? un) then (- cutoff, Some ErrRange)
          else (if neg then - un else un, None)
      end
  end.

(** ** PDF operands and operator records *)

(** The operand types of the PDF library's [core] package; the source
    distinguishes arrays, strings, floats and integers from the rest. *)
Inductive PdfObject : Type :=
| PdfObjectBool (b : bool)
| PdfObjectInteger (n : Z)
| PdfObjectFloat (f : float64)
| PdfObjectString (s : string)
| PdfObjectName (s : string)
| PdfObjectArray (elements : list PdfObject)
| PdfObjectNull.

Record ContentStreamOperation : Type := {
  Params : list PdfObject;
  Operand : string
}.

(** ** Errors *)

Inductive error : Type :=
| EOF                                (* io.EOF *)
| InvalidLine (text : string)        (* fmt.Errorf("invalid line: %q", text) *)
| NoArray (operand : PdfObject)      (* "Invalid parameter type, no array (%T)" *)
| NotString (operand : PdfObject)    (* "Invalid parameter type, not string (%T)" *)
| LibraryError (msg : string).       (* an error returned by a library call *)

Definition isEOF (e : error) : bool :=
  match e with
  | EOF => true
  | _ => false
  end.

(** A content-stream parser, given by what its [Parse] method returns. *)
Record ContentStreamParser : Type := {
  Parse : list ContentStreamOperation * option error
}.

(** ** Text reconstructor *)

(** The local variables of [extractText]. *)
Record cursor : Type := {
  xPos : float64;
  yPos : float64;
  inText : bool;
  txt : string
}.

(** What a part of the loop body does next. *)
Inductive flow : Type :=
| Next (c : cursor)          (* go on with the rest of the loop body *)
| Continue (c : cursor)      (* [continue] *)
| Fail (e : error)           (* [return "", err] *)
| Panicked (p : panic).

Definition andThen (f : flow) (k : cursor -> flow) : flow :=
  match f with
  | Next c => k c
  | Continue c => Continue c
  | Fail e => Fail e
  | Panicked p => Panicked p
  end.

Definition emit (c : cursor) (s : string) : cursor :=
  {| xPos := xPos c; yPos := yPos c; inText := inText c; txt := (txt c ++ s)%string |}.

Definition setX (c : cursor) (x : float64) : cursor :=
  {| xPos := x; yPos := yPos c; inText := inText c; txt := txt c |}.

Definition setY (c : cursor) (y : float64) : cursor :=
  {| xPos := xPos c; yPos := y; inText := inText c; txt := txt c |}.

Definition setInText (c : cursor) (b : bool) : cursor :=
  {| xPos := xPos c; yPos := yPos c; inText := b; txt := txt c |}.

(** [if op.Operand == "BT" {...} else if op.Operand == "ET" {...}] *)
Definition opBeginEnd (op : ContentStreamOperation) (c : cursor) : flow :=
  if String.eqb (Operand op) "BT" then Next (setInText c true)
  else if String.eqb (Operand op) "ET" then Next (setInText c false)
  else Next c.

(** An operand asserted to be a float, or else an integer converted. *)
Definition asFloat (p : PdfObject) : option float64 :=
  match p with
  | PdfObjectFloat f => Some f
  | PdfObjectInteger n => Some (ofZ n)
  | _ => None
  end.

(** The horizontal part of the [Tm] case. *)
Definition trackX (xfloat : float64) (c : cursor) : flow :=
  if eqb (xPos c) (ofZ (-1)) then Next (setX c xfloat)
  else if ltb (xPos c) xfloat then
    match howManyTabs (xPos c) xfloat with
    | Panics p => Panicked p
    | Returns numTabs =>
        match Repeat (String tab EmptyString) numTabs with
        | Panics p => Panicked p
        | Returns tabs => Next (setX (emit c tabs) xfloat)
        end
    end
  else Next c.

(** [if op.Operand == "Tm" {...}] *)
Definition opTm (op : ContentStreamOperation) (c : cursor) : flow :=
  if String.eqb (Operand op) "Tm" then
    if negb (len (Params op) =? 6) then Continue c
    else
      match asFloat (nth 4 (Params op) PdfObjectNull) with
      | None => Continue c
      | Some xfloat =>
          match asFloat (nth 5 (Params op) PdfObjectNull) with
          | None => Continue c
          | Some yfloat =>
              if eqb (yPos c) (ofZ (-1)) then trackX xfloat (setY c yfloat)
              else if gtb (yPos c) yfloat then
                Continue (setY (setX (emit c (String newline EmptyString))
                                     xfloat) yfloat)
              else trackX xfloat c
          end
      end
  else Next c.

(** [if op.Operand == "Td" || op.Operand == "TD" || op.Operand == "T*"] *)
Definition opMove (op : ContentStreamOperation) (c : cursor) : flow :=
  if String.eqb (Operand op) "Td" || String.eqb (Operand op) "TD"
     || String.eqb (Operand op) "T*"
  then Next (emit c (String newline EmptyString))
  else Next c.

(** One element of a [TJ] array: the type switch of the source, which has
    no default case. *)
Definition showElement (t : string) (obj : PdfObject) : string :=
  match obj with
  | PdfObjectString v => (t ++ v)%string
  | PdfObjectFloat v => if ltb v (ofZ (-100)) then (t ++ " ")%string else t
  | PdfObjectInteger v => if v <? -100 then (t ++ " ")%string else t
  | _ => t
  end.

Definition setTxt (c : cursor) (t : string) : cursor :=
  {| xPos := xPos c; yPos := yPos c; inText := inText c; txt := t |}.

(** [if inText && op.Operand == "TJ" {...} else if inText &&
    op.Operand == "Tj" {...}] *)
Definition opShow (op : ContentStreamOperation) (c : cursor) : flow :=
  if inText c && String.eqb (Operand op) "TJ" then
    match Params op with
    | [] => Continue c
    | PdfObjectArray paramList :: _ =>
        Next (setTxt c (fold_left showElement paramList (txt c)))
    | other :: _ => Fail (NoArray other)
    end
  else if inText c && String.eqb (Operand op) "Tj" then
    match Params op with
    | [] => Continue c
    | PdfObjectString param :: _ => Next (emit c param)
    | other :: _ => Fail (NotString other)
    end
  else Next c.

(** The body of [for _, op := range *operations]. *)
Definition step (op : ContentStreamOperation) (c : cursor) : flow :=
  andThen (andThen (andThen (opBeginEnd op c) (opTm op)) (opMove op))
          (opShow op).

Fixpoint runOperations (ops : list ContentStreamOperation) (c : cursor)
  : outcome (string * option error) :=
  match ops with
  | [] => Returns (txt c, None)
  | op :: rest =>
      match step op c with
      | Next c' => runOperations rest c'
      | Continue c' => runOperations rest c'
      | Fail e => Returns (EmptyString, Some e)
      | Panicked p => Panics p
      end
  end.

Definition initialCursor : cursor :=
  {| xPos := ofZ (-1); yPos := ofZ (-1); inText := false;
     txt := EmptyString |}.

Definition extractText (parser : ContentStreamParser)
  : outcome (string * option error) :=
  match Parse parser with
  | (_, Some err) => Returns (EmptyString, Some err)
  | (operations, None) => runOperations operations initialCursor
  end.

(** ** Record parser *)

Definition disclaimer : string :=
  "If there is a discrepancy in the listing of the card balance".

Definition parseLine (text : string) : list string * option error :=
  let parts := Split text tab in
  if (len parts =? 8) && String.eqb (index parts 1) EmptyString
     && String.eqb (index parts 2) EmptyString
     && String.eqb (index parts 3) EmptyString
     && Contains (index parts 7) "Page "
  then ([], Some EOF)
  else if (len parts <? 8) && Contains (index parts 0) disclaimer
  then ([], Some EOF)
  else if negb (len parts =? 8) then ([], Some (InvalidLine text))
  else (parts, None).

(** ** Table assembler *)

Definition recordHeader : list string :=
  [ "Date"; "Transaction Type"; "Location"; "Route"; "Product"; "Debit";
    "Credit"; "Balance" ].

(** [copy(dst, src)]: the first [min(len(dst), len(src))] elements of
    [dst] are overwritten. *)
Definition copy {A : Type} (dst src : list A) : list A :=
  firstn (List.length dst) src ++ skipn (List.length src) dst.

(** A call of [rest.Logger.Warn(msg, "line", line, "text", text)]. *)
Record warning : Type := {
  warnMsg : string;
  warnLine : Z;
  warnText : string
}.

(** The variables of [getCSV] that outlive a page, and the log. *)
Record assembly : Type := {
  num : Z;
  records : list (list string);
  warnings : list warning
}.

Definition warn (a : assembly) (msg : string) (line : Z) (text : string)
  : assembly :=
  {| num := num a; records := records a;
     warnings := warnings a ++
       [{| warnMsg := msg; warnLine := line; warnText := text |}] |}.

Definition setNum (a : assembly) (n : Z) : assembly :=
  {| num := n; records := records a; warnings := warnings a |}.

Definition appendRecord (a : assembly) (parts : list string) : assembly :=
  {| num := num a; records := records a ++ [parts];
     warnings := warnings a |}.

(** How the scan of one page ends: the loop is left (end of input or
    [break]), or [getCSV] returns the error. *)
Inductive pageEnd : Type :=
| PageDone (a : assembly)
| PageFailed (a : assembly) (err : error).

Definition headerPrefix : string :=
  "TRANSACTION TYPE" ++ String tab ("LOCATION" ++ String tab "ROUTE").

(** The record part shared by both page loops:
    [parts, err := parseLine(text)] and what follows it. *)
Definition recordLine (text : string) (a : assembly)
  (continue : assembly -> pageEnd) : pageEnd :=
  match parseLine text with
  | (parts, None) => continue (appendRecord a parts)
  | (_, Some err) => if isEOF err then PageDone a else PageFailed a err
  end.

(** [for bs.Scan()] over the first page, the lines left to scan being
    [lines] and the counter being [line]. *)
Fixpoint firstPage (lines : list string) (line : Z) (a : assembly)
  : pageEnd :=
  match lines with
  | [] => PageDone a
  | text :: rest =>
      if line =? 0 then
        let a :=
          if negb (String.eqb text "TRANSACTION HISTORY FOR")
          then warn a "Unexpected line text" line text else a in
        firstPage rest (line + 1) a
      else if line =? 1 then
        if negb (HasPrefix text "CARD ") then
          firstPage rest (line + 1) (warn a "Unexpected line text" line text)
        else
          let parts := Split text space in
          if negb (len parts =? 2) then
            firstPage rest (line + 1)
                      (warn a "Unexpected line text" line text)
          else
            let '(n, err) := ParseInt (index parts 1) in
            let a := setNum a n in
            let a :=
              match err with
              | Some _ => warn a "error reading account number" line text
              | None => a
              end in
            firstPage rest (line + 1) a
      else if line =? 2 then
        let a :=
          if negb (HasPrefix text headerPrefix)
          then warn a "Unexpected line text" line text else a in
        firstPage rest (line + 1) a
      else
        recordLine text a (firstPage rest (line + 1))
  end.

(** [for bs.Scan()] over a later page. *)
Fixpoint laterPage (lines : list string) (line : Z) (a : assembly)
  : pageEnd :=
  match lines with
  | [] => PageDone a
  | text :: rest =>
      if line =? 0 then
        let a :=
          if negb (HasPrefix text headerPrefix)
          then warn a "Unexpected line text" line text else a in
        laterPage rest (line + 1) a
      else
        recordLine text a (laterPage rest (line + 1))
  end.

(** [for i := range pages], from index [i] on. *)
Fixpoint pagesLoop (i : Z) (pages : list string) (a : assembly) : pageEnd :=
  match pages with
  | [] => PageDone a
  | page :: rest =>
      let ended :=
        if i =? 0 then firstPage (scanLines page) 0 a
        else laterPage (scanLines page) 0 a in
      match ended with
      | PageDone a' => pagesLoop (i + 1) rest a'
      | PageFailed a' err => PageFailed a' err
      end
  end.

(** [getCSV] returns [(num, records, err)]; the warnings it logged come
    with them. *)
Definition getCSV (pages : list string)
  : Z * list (list string) * option error * list warning :=
  let start :=
    {| num := -1;
       records := [copy (repeat EmptyString 8) recordHeader];
       warnings := [] |} in
  match pagesLoop 0 pages start with
  | PageDone a => (num a, records a, None, warnings a)
  | PageFailed a err => (num a, [], Some err, warnings a)
  end.

Record TransactionData : Type := {
  AccountNumber : Z;
  Transactions : list (list string)
}.

(** [TransactionData{}] *)
Definition zeroTransactionData : TransactionData :=
  {| AccountNumber := 0; Transactions := [] |}.

(** ** Page decoder and entry point, over the PDF library *)

(** A page and a reader of the PDF library, given by what their methods
    return. *)
Record PdfPage : Type := {
  GetContentStreams : list string * option error
}.

Record PdfReader : Type := {
  GetNumPages : Z * option error;
  GetPage : Z -> PdfPage * option error
}.

Section Library.

Variable ReadSeeker : Type.
(** [pdf.NewPdfReader] *)
Variable NewPdfReader : ReadSeeker -> PdfReader * option error.
(** [pdfcontent.NewContentStreamParser] *)
Variable NewContentStreamParser : string -> ContentStreamParser.
(** [charmap.Windows1252.NewDecoder().String] *)
Variable decoderString : string -> string * option error.
(** [strings.TrimSpace] *)
Variable TrimSpace : string -> string.

(** The text of page [i], or the error [extractPDFText] returns. *)
Definition extractPage (pdfReader : PdfReader) (i : Z)
  : outcome (string * option error) :=
  match GetPage pdfReader i with
  | (_, Some err) => Returns (EmptyString, Some err)
  | (page, None) =>
      match GetContentStreams page with
      | (_, Some err) => Returns (EmptyString, Some err)
      | (contentStreams, None) =>
          let pageContentStr :=
            fold_left
              (fun acc cstream =>
                 (acc ++ cstream ++ String newline EmptyString)%string)
              contentStreams EmptyString in
          let cstreamParser := NewContentStreamParser pageContentStr in
          r <- extractText cstreamParser ;;
          match r with
          | (_, Some err) => Returns (EmptyString, Some err)
          | (t, None) =>
              match decoderString t with
              | (_, Some err) => Returns (EmptyString, Some err)
              | (s, None) => Returns (TrimSpace s, None)
              end
          end
      end
  end.

(** [for i := 1; i <= numPages; i++], with [n] pages left from page [i];
    [pages] holds the texts of the pages done. *)
Fixpoint pageLoop (pdfReader : PdfReader) (i : Z) (n : nat)
  (pages : list string) : outcome (list string * option error) :=
  match n with
  | O => Returns (pages, None)
  | S n' =>
      r <- extractPage pdfReader i ;;
      match r with
      | (_, Some err) => Returns ([], Some err)
      | (s, None) => pageLoop pdfReader (i + 1) n' (pages ++ [s])
      end
  end.

Definition extractPDFText (r : ReadSeeker)
  : outcome (list string * option error) :=
  match NewPdfReader r with
  | (_, Some err) => Returns ([], Some err)
  | (pdfReader, None) =>
      match GetNumPages pdfReader with
      | (_, Some err) => Returns ([], Some err)
      | (numPages, None) =>
          if numPages <? 0 then Panics (NegativeLen numPages)
          else pageLoop pdfReader 1 (Z.to_nat numPages) []
      end
  end.

(** [ParsePDF] returns [(TransactionData, error)]; the warnings logged
    by [getCSV] come with them. *)
Definition ParsePDF (r : ReadSeeker)
  : outcome (TransactionData * option error * list warning) :=
  p <- extractPDFText r ;;
  match p with
  | (_, Some err) => Returns (zeroTransactionData, Some err, [])
  | (pages, None) =>
      match getCSV pages with
      | (_, _, Some err, log) => Returns (zeroTransactionData, Some err, log)
      | (accountNumber, records, None, log) =>
          Returns ({| AccountNumber := accountNumber;
                      Transactions := records |}, None, log)
      end
  end.

End Library.

(** * Scraping of the account pages ([html.go]) *)

(** ** More of the Go library *)

(** [strings.Split(s, sep)] for a separator of one byte or more: the
    pieces between the occurrences of [sep], found from the left and not
    overlapping.  [skip] is the number of bytes of an occurrence still to
    pass over; a call starts with 0. *)
Fixpoint SplitOn (sep : string) (skip : nat) (s : string) : list string :=
  match s with
  | EmptyString => [EmptyString]
  | String c rest =>
      match skip with
      | S k => SplitOn sep k rest
      | O =>
          if String.prefix sep s
          then EmptyString :: SplitOn sep (String.length sep - 1) rest
          else match SplitOn sep O rest with
               | [] => [String c EmptyString]
               | piece :: pieces => String c piece :: pieces
               end
      end
  end.

Definition byte (c : ascii) : Z := Z.of_nat (nat_of_ascii c).

(** The white space of [unicode.IsSpace] in UTF-8: the six ASCII bytes,
    U+0085 and U+00A0 on two bytes, and U+1680, U+2000 to U+200A, U+2028,
    U+2029, U+202F, U+205F and U+3000 on three. *)
Definition asciiSpace (a : ascii) : bool :=
  let n := byte a in ((9 <=? n) && (n <=? 13)) || (n =? 32).

Definition space2 (a b : ascii) : bool :=
  (byte a =? 194) && ((byte b =? 133) || (byte b =? 160)).

Definition space3 (a b c : ascii) : bool :=
  ((byte a =? 225) && (byte b =? 154) && (byte c =? 128))
  || ((byte a =? 226) && (byte b =? 128) &&
      (((128 <=? byte c) && (byte c <=? 138))
       || (byte c =? 168) || (byte c =? 169) || (byte c =? 175)))
  || ((byte a =? 226) && (byte b =? 129) && (byte c =? 159))
  || ((byte a =? 227) && (byte b =? 128) && (byte c =? 128)).

(** The white-space runes at the front are dropped. *)
Fixpoint trimLeft (s : string) : string :=
  match s with
  | EmptyString => EmptyString
  | String a r1 =>
      if asciiSpace a then trimLeft r1
      else
        match r1 with
        | EmptyString => s
        | String b r2 =>
            if space2 a b then trimLeft r2
            else
              match r2 with
              | EmptyString => s
              | String c r3 => if space3 a b c then trimLeft r3 else s
              end
        end
  end.

(** The same from the end, on the bytes in reverse order. *)
Fixpoint trimLeftReversed (s : string) : string :=
  match s with
  | EmptyString => EmptyString
  | String a r1 =>
      if asciiSpace a then trimLeftReversed r1
      else
        match r1 with
        | EmptyString => s
        | String b r2 =>
            if space2 b a then trimLeftReversed r2
            else
              match r2 with
              | EmptyString => s
              | String c r3 =>
                  if space3 c b a then trimLeftReversed r3 else s
              end
        end
  end.

Fixpoint reverseOnto (s acc : string) : string :=
  match s with
  | EmptyString => acc
  | String c rest => reverseOnto rest (String c acc)
  end.

Definition reverse (s : string) : string := reverseOnto s EmptyString.

(** [strings.TrimSpace(s)] *)
Definition TrimSpace (s : string) : string :=
  reverse (trimLeftReversed (reverse (trimLeft s))).

(** ** Tokens of the HTML tokenizer *)

Module html.

Inductive TokenType : Type :=
| ErrorToken
| TextToken
| StartTagToken
| EndTagToken
| SelfClosingTagToken
| CommentToken
| DoctypeToken.

Record Attribute : Type := {
  Namespace : string;
  Key : string;
  Val : string
}.

Record Token : Type := {
  Type_ : TokenType;
  Data : string;
  Attr : list Attribute
}.

(** A tokenizer, given by the tokens its [Next] and [Token] methods
    return before the first error; from then on [Next] returns
    [ErrorToken]. *)
Definition Tokenizer : Type := list Token.

End html.

(** [errors.New(msg)] *)
Inductive plainError : Type :=
| ErrorsNew (msg : string).

(** ** Hidden form fields *)

(** The loop of [findViewState] and of [findCSRFToken], which differ in
    the name of the field and in the message: the value of the first
    self-closing [input] tag that has an attribute [name] equal to
    [field] and an attribute [value]. *)
Fixpoint findInputValue (field notFound : string) (z : html.Tokenizer)
  : string * option plainError :=
  match z with
  | [] => (EmptyString, Some (ErrorsNew notFound))
  | tok :: rest =>
      match html.Type_ tok with
      | html.ErrorToken => (EmptyString, Some (ErrorsNew notFound))
      | html.SelfClosingTagToken =>
          if negb (String.eqb (html.Data tok) "input")
          then findInputValue field notFound rest
          else
            let found :=
              existsb
                (fun a => String.eqb (html.Key a) "name"
                          && String.eqb (html.Val a) field)
                (html.Attr tok) in
            if negb found then findInputValue field notFound rest
            else
              match find (fun a => String.eqb (html.Key a) "value")
                         (html.Attr tok) with
              | Some a => (html.Val a, None)
              | None => findInputValue field notFound rest
              end
      | _ => findInputValue field notFound rest
      end
  end.

Definition findViewState (z : html.Tokenizer) : string * option plainError :=
  findInputValue "javax.faces.ViewState" "ViewState not found" z.

Definition findCSRFToken (z : html.Tokenizer) : string * option plainError :=
  findInputValue "_csrf" "CSRF token not found" z.

(** ** Cards *)

Record Card : Type := {
  Nickname : string;
  SerialNumber : Z;
  Status : string;
  Reason : string;
  Type_ : string;
  CashValueCents : Z;
  AutoloadAmountCents : Z
}.

Definition parseCardText (text : string) : option Card :=
  let parts := SplitOn " - " 0 text in
  if negb (len parts =? 2) then None
  else
    let cardNumberStr := TrimSpace (index parts 0) in
    let cardName := TrimSpace (index parts 1) in
    let '(cardNumber, err) := ParseInt cardNumberStr in
    match err with
    | Some _ => None
    | None =>
        if Z.of_nat (String.length cardNumberStr) <? 10 then None
        else
          Some {| Nickname := cardName;
                  SerialNumber := cardNumber;
                  Status := "Active";
                  Reason := EmptyString;
                  Type_ := "ADULT";
                  CashValueCents := 0;
                  AutoloadAmountCents := 0 |}
    end.

(** The loop of [getCards], [cards] being the cards found so far. *)
Fixpoint getCardsLoop (z : html.Tokenizer) (cards : list Card)
  : list Card * option plainError :=
  match z with
  | [] => (cards, None)
  | tok :: rest =>
      match html.Type_ tok with
      | html.ErrorToken => (cards, None)
      | html.StartTagToken =>
          if negb (String.eqb (html.Data tok) "span")
          then getCardsLoop rest cards
          else
            let hasClass :=
              existsb
                (fun a => String.eqb (html.Key a) "class"
                          && String.eqb (html.Val a) "d-inline-block")
                (html.Attr tok) in
            if negb hasClass then getCardsLoop rest cards
            else
              match rest with
              | [] => (cards, None)
              | next :: rest' =>
                  match html.Type_ next with
                  | html.TextToken =>
                      match parseCardText (html.Data next) with
                      | Some card => getCardsLoop rest' (cards ++ [card])
                      | None => getCardsLoop rest' cards
                      end
                  | html.ErrorToken => (cards, None)
                  | _ => getCardsLoop rest' cards
                  end
              end
      | _ => getCardsLoop rest cards
      end
  end.

Definition getCards (z : html.Tokenizer) : list Card * option plainError :=
  getCardsLoop z [].

(** * Vocabulary of the properties, and sample inputs *)

(** ** Case analysis on comparisons *)

Ltac cmp_cases :=
  repeat match goal with
    | H : context [Z.compare ?x ?y] |- _ =>
        destruct (Z.compare_spec x y); subst
    | |- context [Z.compare ?x ?y] =>
        destruct (Z.compare_spec x y); subst
    | H : context [Pos.compare_cont Eq ?x ?y] |- _ =>
        change (Pos.compare_cont Eq x y) with (Pos.compare x y) in *;
        destruct (Pos.compare_spec x y); subst
    | |- context [Pos.compare_cont Eq ?x ?y] =>
        change (Pos.compare_cont Eq x y) with (Pos.compare x y) in *;
        destruct (Pos.compare_spec x y); subst
    end;
  simpl in *; try congruence; try lia.

Ltac float_cases a :=
  destruct a as [[|]|[|]| |[|] ? ?].

(** ** Position classifier *)

(** A coordinate in [0, 1100]. *)
Definition inRange (c : float64) : Prop :=
  leb (ofZ 0) c = true /\ leb c (ofZ 1100) = true.

(** The loop's result, with the fall-through [return len(positions)-1]. *)
Definition loopIdx (pos : float64) (i n : nat) : Z :=
  match halfwayLoop pos i n with
  | Some j => j
  | None => Z.of_nat (i + n)
  end.

(** ** Text reconstructor *)

Definition isArray (p : PdfObject) : bool :=
  match p with
  | PdfObjectArray _ => true
  | _ => false
  end.

(** An array element that is a string or a numeric adjustment. *)
Definition isStringOrNumber (p : PdfObject) : bool :=
  match p with
  | PdfObjectString _ | PdfObjectFloat _ | PdfObjectInteger _ => true
  | _ => false
  end.

(** A numeric adjustment strictly below -100. *)
Definition belowThreshold (v : PdfObject) : Prop :=
  match v with
  | PdfObjectInteger n => n < -100
  | PdfObjectFloat f => ltb f (ofZ (-100)) = true
  | _ => False
  end.

(** A numeric adjustment at or above -100. *)
Definition atOrAboveThreshold (v : PdfObject) : Prop :=
  match v with
  | PdfObjectInteger n => -100 <= n
  | PdfObjectFloat f => leb (ofZ (-100)) f = true
  | _ => False
  end.

(** ** Record parser *)

(** The page-footer sentinel: exactly 8 fields, fields 1 to 3 empty and
    field 7 containing "Page ". *)
Definition pageFooter (parts : list string) : Prop :=
  len parts = 8 /\ index parts 1 = EmptyString /\
  index parts 2 = EmptyString /\ index parts 3 = EmptyString /\
  Contains (index parts 7) "Page " = true.

(** The disclaimer sentinel: fewer than 8 fields and the disclaimer text
    in field 0. *)
Definition trailingDisclaimer (parts : list string) : Prop :=
  len parts < 8 /\ Contains (index parts 0) disclaimer = true.

(** ** Table assembler *)

(** The leading lines that parse as records, up to the first line that
    does not. *)
Fixpoint recordLines (lines : list string) : list string :=
  match lines with
  | [] => []
  | text :: rest =>
      match snd (parseLine text) with
      | None => text :: recordLines rest
      | Some _ => []
      end
  end.

Definition fieldsOf (text : string) : list string := Split text tab.

(** The lines of page [i] after its metadata lines: three on the first
    page, one on a later page. *)
Definition dataLines (i : Z) (page : string) : list string :=
  skipn (if i =? 0 then 3 else 1) (scanLines page).

(** The rows of the pages from index [i] on: page by page, line by line. *)
Fixpoint tableRows (i : Z) (pages : list string) : list (list string) :=
  match pages with
  | [] => []
  | page :: rest =>
      map fieldsOf (recordLines (dataLines i page)) ++ tableRows (i + 1) rest
  end.

(** What line 1 of the first page does to the account number [n]. *)
Definition cardLine (text : string) (n : Z) : Z :=
  if negb (HasPrefix text "CARD ") then n
  else if negb (len (Split text space) =? 2) then n
  else fst (ParseInt (index (Split text space) 1)).

(** The account number a page loop ends with. *)
Definition endNum (e : pageEnd) : Z :=
  match e with
  | PageDone a => num a
  | PageFailed a _ => num a
  end.

(** The account number [getCSV] returns, with or without an error. *)
Definition accountOf
  (r : Z * list (list string) * option error * list warning) : Z :=
  fst (fst (fst r)).

(** ** Sample inputs *)

(** Operators [BT] and [TJ]. *)
Definition beginText : ContentStreamOperation :=
  {| Params := []; Operand := "BT" |}.

Definition showTJ (operands : list PdfObject) : ContentStreamOperation :=
  {| Params := operands; Operand := "TJ" |}.

(** [Tm] with the identity matrix and the offsets [x] and [y]. *)
Definition textMatrix (x y : PdfObject) : ContentStreamOperation :=
  {| Params := [PdfObjectInteger 1; PdfObjectInteger 0; PdfObjectInteger 0;
                PdfObjectInteger 1; x; y];
     Operand := "Tm" |}.

Definition showText (s : string) : ContentStreamOperation :=
  {| Params := [PdfObjectString s]; Operand := "Tj" |}.

Definition inTextCursor : cursor := setInText initialCursor true.

(** A [TJ] array with the adjustment [v] between two strings. *)
Definition spaced (v : PdfObject) : ContentStreamOperation :=
  showTJ [PdfObjectArray
            ([PdfObjectString "ab"] ++ v :: [PdfObjectString "cd"])].

(** A record line of 8 fields. *)
Definition sampleRow : string :=
  "a" ++ String tab ("b" ++ String tab ("c" ++ String tab ("d" ++ String tab
    ("e" ++ String tab ("f" ++ String tab ("g" ++ String tab "h")))))).

(** The line of fields ["", "", "", "X", "Y", "Z", "W", "Page 2 of 3"]. *)
Definition scenarioB : string :=
  String tab (String tab (String tab
    ("X" ++ String tab ("Y" ++ String tab ("Z" ++ String tab
      ("W" ++ String tab "Page 2 of 3")))))).

(** The line of fields ["X", "", "", "", "Y", "Z", "W", "Page 2 of 3"]. *)
Definition footerLine : string :=
  "X" ++ String tab (String tab (String tab (String tab
    ("Y" ++ String tab ("Z" ++ String tab
      ("W" ++ String tab "Page 2 of 3")))))).

(** A first page: title, card line [line1], column header, then [lines]. *)
Definition firstPageText (line1 lines : string) : string :=
  "TRANSACTION HISTORY FOR" ++ String newline
    (line1 ++ String newline (headerPrefix ++ String newline lines)).

Definition titlePage (lines : string) : string :=
  firstPageText "CARD 1234567890" lines.

Definition cardPage (line1 : string) : string :=
  firstPageText line1 sampleRow.

Definition secondPage : string :=
  headerPrefix ++ String newline (sampleRow ++ String newline sampleRow).

Definition twoPages : list string :=
  [ titlePage (sampleRow ++ String newline footerLine)%string; secondPage ].

(** A document given by the content streams of its pages, each stream
    drawing its own text with one [Tj]. *)
Definition streamsReader (streams : list string) : PdfReader * option error :=
  ({| GetNumPages := (len streams, None);
      GetPage := fun i =>
        ({| GetContentStreams :=
              ([nth (Z.to_nat (i - 1)) streams EmptyString], None) |},
         None) |},
   None).

Definition drawingParser (content : string) : ContentStreamParser :=
  {| Parse := ([beginText; showText content], None) |}.

(** One page whose last line is no record. *)
Definition brokenDocument : list string :=
  [ titlePage (sampleRow ++ String newline "bad")%string ].

(** ** Vocabulary of the further properties *)

(** A coordinate strictly below 0 or strictly above 1100. *)
Definition outOfRange (pos : float64) : Prop :=
  ltb pos (ofZ 0) = true \/ ltb (ofZ 1100) pos = true.

(** [n] tab characters. *)
Definition tabs (n : Z) : string :=
  String.concat EmptyString (repeat (String tab EmptyString) (Z.to_nat n)).

(** A text of tabs and newlines only. *)
Fixpoint layoutOnly (s : string) : bool :=
  match s with
  | EmptyString => true
  | String ch rest =>
      (Ascii.eqb ch tab || Ascii.eqb ch newline) && layoutOnly rest
  end.

(** The horizontal offsets of the well-formed [Tm] operators of a stream:
    operand 4 of each [Tm] with 6 operands, when it is a number. *)
Definition xOffset (op : ContentStreamOperation) : option float64 :=
  if String.eqb (Operand op) "Tm" && (len (Params op) =? 6)
  then asFloat (nth 4 (Params op) PdfObjectNull)
  else None.

(** Every horizontal offset of the stream lies in [0, 1100]. *)
Definition wellPlaced (ops : list ContentStreamOperation) : Prop :=
  forall op x, In op ops -> xOffset op = Some x -> inRange x.

(** The horizontal cursor is unset or holds the offset of an operator of
    [ops]. *)
Definition xFrom (ops : list ContentStreamOperation) (c : cursor) : Prop :=
  eqb (xPos c) (ofZ (-1)) = true \/
  exists op, In op ops /\ xOffset op = Some (xPos c).

(** The text-block flag after an operator. *)
Definition nextInText (op : ContentStreamOperation) (c : cursor) : bool :=
  if String.eqb (Operand op) "BT" then true
  else if String.eqb (Operand op) "ET" then false
  else inText c.

Definition isString (p : PdfObject) : bool :=
  match p with
  | PdfObjectString _ => true
  | _ => false
  end.

(** What an operator that neither fails nor panics does to the cursor:
    it appends to the text, only tabs and newlines when outside a text
    block, and moves the horizontal cursor to its own offset or not at
    all. *)
Definition advances (op : ContentStreamOperation) (c c' : cursor) : Prop :=
  (exists s, txt c' = (txt c ++ s)%string /\
             (inText c = false -> layoutOnly s = true)) /\
  inText c' = nextInText op c /\
  (xPos c' = xPos c \/ xOffset op = Some (xPos c')).

(** The cursor after the operators [ops], when none of them fails or
    panics. *)
Fixpoint cursorAfter (ops : list ContentStreamOperation) (c : cursor)
  : option cursor :=
  match ops with
  | [] => Some c
  | op :: rest =>
      match step op c with
      | Next c' => cursorAfter rest c'
      | Continue c' => cursorAfter rest c'
      | Fail _ => None
      | Panicked _ => None
      end
  end.

(** The errors the loop body of [extractText] returns: a [TJ] whose
    first operand is no array, a [Tj] whose first operand is no string. *)
Definition operandError (op : ContentStreamOperation) (e : error) : Prop :=
  exists first others,
    Params op = first :: others /\
    ((Operand op = "TJ" /\ isArray first = false /\ e = NoArray first) \/
     (Operand op = "Tj" /\ isString first = false /\ e = NotString first)).

(** The number of bytes [sep] in [s]. *)
Fixpoint countByte (sep : ascii) (s : string) : nat :=
  match s with
  | EmptyString => O
  | String c rest =>
      if Ascii.eqb c sep then S (countByte sep rest) else countByte sep rest
  end.

(** The first of [lines] that is neither a record nor a sentinel, when
    no sentinel comes before it. *)
Fixpoint offending (lines : list string) : option string :=
  match lines with
  | [] => None
  | text :: rest =>
      match snd (parseLine text) with
      | None => offending rest
      | Some e => if isEOF e then None else Some text
      end
  end.

(** The first offending data line of the pages from index [i] on, in
    document order. *)
Fixpoint firstOffending (i : Z) (pages : list string) : option string :=
  match pages with
  | [] => None
  | page :: rest =>
      match offending (dataLines i page) with
      | Some text => Some text
      | None => firstOffending (i + 1) rest
      end
  end.

(** The error a page loop ends with. *)
Definition endError (e : pageEnd) : option error :=
  match e with
  | PageDone _ => None
  | PageFailed _ err => Some err
  end.

(** A decoder that fails on one text. *)
Definition failingDecoder (bad : string) (s : string)
  : string * option error :=
  if String.eqb s bad then (EmptyString, Some (LibraryError "decode"))
  else (s, None).

Definition keepText (s : string) : string * option error := (s, None).

Definition noTrim (s : string) : string := s.

Definition line (s : string) : string := s ++ String newline EmptyString.

(** ** Vocabulary for the scraping functions *)

(** The tokens before the first [ErrorToken]. *)
Fixpoint liveTokens (z : html.Tokenizer) : list html.Token :=
  match z with
  | [] => []
  | tok :: rest =>
      match html.Type_ tok with
      | html.ErrorToken => []
      | _ => tok :: liveTokens rest
      end
  end.

Definition isSelfClosing (tok : html.Token) : bool :=
  match html.Type_ tok with
  | html.SelfClosingTagToken => true
  | _ => false
  end.

Definition hasAttribute (key val : string) (tok : html.Token) : bool :=
  existsb (fun a => String.eqb (html.Key a) key && String.eqb (html.Val a) val)
          (html.Attr tok).

(** The value of the first attribute [value] of a tag. *)
Definition valueOf (tok : html.Token) : option string :=
  option_map html.Val
    (find (fun a => String.eqb (html.Key a) "value") (html.Attr tok)).

(** A self-closing [input] tag named [field] that has a value. *)
Definition carries (field : string) (tok : html.Token) : bool :=
  isSelfClosing tok && String.eqb (html.Data tok) "input"
  && hasAttribute "name" field tok
  && match valueOf tok with Some _ => true | None => false end.

(** A self-closing tag, or the end of the tokens. *)
Definition selfClosingOrError (tok : html.Token) : bool :=
  match html.Type_ tok with
  | html.SelfClosingTagToken => true
  | html.ErrorToken => true
  | _ => false
  end.

Definition attribute (key val : string) : html.Attribute :=
  {| html.Namespace := EmptyString; html.Key := key; html.Val := val |}.

(** [<input .../>], [<input ...>], [<span class="d-inline-block">] and a
    text. *)
Definition inputTag (attrs : list html.Attribute) : html.Token :=
  {| html.Type_ := html.SelfClosingTagToken; html.Data := "input";
     html.Attr := attrs |}.

Definition inputStartTag (attrs : list html.Attribute) : html.Token :=
  {| html.Type_ := html.StartTagToken; html.Data := "input";
     html.Attr := attrs |}.

Definition cardSpan : html.Token :=
  {| html.Type_ := html.StartTagToken; html.Data := "span";
     html.Attr := [attribute "class" "d-inline-block"] |}.

Definition textToken (s : string) : html.Token :=
  {| html.Type_ := html.TextToken; html.Data := s; html.Attr := [] |}.

(** A login form: a hidden field without a value, then the token with
    its value before its name. *)
Definition loginForm : html.Tokenizer :=
  [ inputStartTag [attribute "name" "_csrf"; attribute "value" "no"];
    inputTag [attribute "name" "_csrf"];
    inputTag [attribute "type" "hidden"; attribute "value" "tok";
              attribute "name" "_csrf"];
    inputTag [attribute "name" "javax.faces.ViewState";
              attribute "value" "state"] ].

(** The decimal digit [d] as a byte, and a string of digits. *)
Definition digitChar (d : nat) : ascii := ascii_of_nat (48 + d).

Fixpoint digitString (ds : list nat) : string :=
  match ds with
  | [] => EmptyString
  | d :: rest => String (digitChar d) (digitString rest)
  end.

(** The number the digits [ds] write after the digits of [acc]. *)
Fixpoint valueFrom (acc : Z) (ds : list nat) : Z :=
  match ds with
  | [] => acc
  | d :: rest => valueFrom (acc * 10 + Z.of_nat d) rest
  end.

Definition value (ds : list nat) : Z := valueFrom 0 ds.

Definition isDigits (ds : list nat) : Prop :=
  ds <> [] /\ Forall (fun d => (d < 10)%nat) ds.

(** A card as [parseCardText] fills it. *)
Definition activeCard (number : Z) (name : string) : Card :=
  {| Nickname := name;
     SerialNumber := number;
     Status := "Active";
     Reason := EmptyString;
     Type_ := "ADULT";
     CashValueCents := 0;
     AutoloadAmountCents := 0 |}.

(** The marked [span] start tags among the tokens. *)
Definition isCardSpan (tok : html.Token) : bool :=
  match html.Type_ tok with
  | html.StartTagToken =>
      String.eqb (html.Data tok) "span"
      && hasAttribute "class" "d-inline-block" tok
  | _ => false
  end.

(** An ASCII byte that is no white space. *)
Definition solid (c : ascii) : Prop := byte c < 128 /\ asciiSpace c = false.

(** A card entry as the account page lists it: the digits of its number
    and its name. *)
Definition cardEntry (entry : list nat * string) : list html.Token :=
  [ cardSpan;
    textToken (digitString (fst entry) ++ " - " ++ snd entry) ].

Definition cardOf (entry : list nat * string) : Card :=
  activeCard (value (fst entry)) (TrimSpace (snd entry)).

(** The digits of a card number of 10 digits or more that fits 63 bits,
    and a name that does not hold the separator. *)
Definition validEntry (entry : list nat * string) : Prop :=
  Forall (fun d => (d < 10)%nat) (fst entry) /\
  (10 <= List.length (fst entry))%nat /\
  value (fst entry) < 2 ^ 63 /\
  Contains (snd entry) " - " = false.

(** Cards that come from text tokens of [z], no more of them than [z]
    has marked [span] tags. *)
Definition foundIn (z : html.Tokenizer) (found : list Card) : Prop :=
  Forall (fun card =>
            exists tok, In tok z /\ html.Type_ tok = html.TextToken /\
                        parseCardText (html.Data tok) = Some card)
         found /\
  (List.length found <= List.length (filter isCardSpan z))%nat.



(** ** Case analysis on operands *)

Ltac operand_cases :=
  repeat match goal with
    | |- context [String.eqb ?a ?b] =>
        destruct (String.eqb_spec a b); [try discriminate; try subst|]
    end.

Ltac unchanged :=
  match goal with
  | Same : exists _, _ |- _ =>
      split; [exact Same|split; [first [reflexivity|assumption]|left; reflexivity]]
  end.

(** ** Rows drawn cell by cell *)

(** The column of a coordinate of [0, 1100]. *)
Definition column (x : float64) : Z :=
  match findPositionIdx x with
  | Returns i => i
  | Panics _ => 0
  end.

(** A cell: its horizontal offset and its text.  The operators that draw
    the cells of a row at the vertical offset [y]: a [Tm] and a [Tj]
    each. *)
Definition drawCell (y : float64) (cell : float64 * string)
  : list ContentStreamOperation :=
  [ textMatrix (PdfObjectFloat (fst cell)) (PdfObjectFloat y);
    showText (snd cell) ].

Definition drawRow (row : float64 * list (float64 * string))
  : list ContentStreamOperation :=
  flat_map (drawCell (fst row)) (snd row).

(** The cells after the one at [prev]: as many tabs before each as its
    column is to the right of the column of the cell before it. *)
Fixpoint rowTail (prev : float64) (cells : list (float64 * string))
  : string :=
  match cells with
  | [] => EmptyString
  | cell :: rest =>
      (tabs (column (fst cell) - column prev) ++ snd cell
       ++ rowTail (fst cell) rest)%string
  end.

Definition rowText (cells : list (float64 * string)) : string :=
  match cells with
  | [] => EmptyString
  | cell :: rest => (snd cell ++ rowTail (fst cell) rest)%string
  end.

(** Offsets in [0, 1100], strictly increasing from [prev]. *)
Fixpoint increasingFrom (prev : float64) (cells : list (float64 * string))
  : Prop :=
  match cells with
  | [] => True
  | cell :: rest =>
      ltb prev (fst cell) = true /\ inRange (fst cell) /\
      increasingFrom (fst cell) rest
  end.

(** A row of one cell or more, drawn from left to right, at a vertical
    offset that is not the -1 the source uses for "not set". *)
Definition leftToRight (row : float64 * list (float64 * string)) : Prop :=
  eqb (fst row) (ofZ (-1)) = false /\
  match snd row with
  | [] => False
  | cell :: rest => inRange (fst cell) /\ increasingFrom (fst cell) rest
  end.

(** Rows drawn from the top of the page down. *)
Fixpoint topDown (above : float64)
  (rows : list (float64 * list (float64 * string))) : Prop :=
  match rows with
  | [] => True
  | row :: rest =>
      gtb above (fst row) = true /\ leftToRight row /\
      topDown (fst row) rest
  end.

(** The rows below the first, a newline before each. *)
Fixpoint rowsBelow (rows : list (float64 * list (float64 * string)))
  : string :=
  match rows with
  | [] => EmptyString
  | row :: rest =>
      (String newline EmptyString ++ rowText (snd row)
       ++ rowsBelow rest)%string
  end.

Definition pageText (rows : list (float64 * list (float64 * string)))
  : string :=
  match rows with
  | [] => EmptyString
  | row :: rest => (rowText (snd row) ++ rowsBelow rest)%string
  end.

(** Cells in strictly increasing columns, their texts without tabs. *)
Fixpoint columnsFrom (prev : float64) (cells : list (float64 * string))
  : Prop :=
  match cells with
  | [] => True
  | cell :: rest =>
      column prev < column (fst cell) /\
      countByte tab (snd cell) = O /\ columnsFrom (fst cell) rest
  end.

(** The fields after the field of the cell at [prev]: empty fields for
    the columns passed over, then the text of the next cell. *)
Fixpoint fieldsTail (prev : float64) (cells : list (float64 * string))
  : list string :=
  match cells with
  | [] => []
  | cell :: rest =>
      repeat EmptyString (Z.to_nat (column (fst cell) - column prev - 1))
      ++ snd cell :: fieldsTail (fst cell) rest
  end.

Definition rowFields (cells : list (float64 * string)) : list string :=
  match cells with
  | [] => [EmptyString]
  | cell :: rest => snd cell :: fieldsTail (fst cell) rest
  end.

(** The column of the last cell. *)
Fixpoint lastColumn (prev : float64) (cells : list (float64 * string)) : Z :=
  match cells with
  | [] => column prev
  | cell :: rest => lastColumn (fst cell) rest
  end.

(** * Properties *)

(** The table holds the nearest doubles of the source's literals. *)
Example positions_bits :
  positions =
  [ S754_finite false 7881299347898368 (-48);
    S754_finite false 4704502391997727 (-45);
    S754_finite false 6319816914596004 (-44);
    S754_finite false 8427536724577485 (-44);
    S754_finite false 4647679631074263 (-43);
    S754_finite false 5769181491405783 (-43);
    S754_finite false 6032184672769802 (-43);
    S754_finite false 6352714302499062 (-43) ].
Proof. vm_compute. reflexivity. Qed.

Example halfway_bits :
  map halfway (seq 0 7) =
  [ S754_finite false 5689664810485023 (-46);
    S754_finite false 8672068110594868 (-45);
    S754_finite false 7373676819586744 (-44);
    S754_finite false 8861447993363006 (-44);
    S754_finite false 5208430561240023 (-43);
    S754_finite false 5900683082087792 (-43);
    S754_finite false 6192449487634432 (-43) ].
Proof. vm_compute. reflexivity. Qed.

(** The constants of the table are binary64 values, in increasing order. *)
Example positions_valid :
  forallb (valid_binary prec emax) positions = true /\
  forallb (fun i => ltb (position i) (position (S i))) (seq 0 7) = true /\
  forallb (fun i => ltb (position i) (halfway i) &&
                    ltb (halfway i) (position (S i))) (seq 0 7) = true.
Proof. vm_compute. auto. Qed.

(** Scenario A of the text reconstructor: two columns and the last one on
    a row, then a row lower on the page. *)
Example extractText_rows :
  runOperations
    [ beginText;
      textMatrix (PdfObjectInteger 28) (PdfObjectInteger 700);
      showText "2024-01-01";
      textMatrix (PdfObjectFloat (decimal 13371 2)) (PdfObjectInteger 700);
      showText "Boarding";
      textMatrix (PdfObjectFloat (decimal 72222 2)) (PdfObjectInteger 700);
      showText "1.00";
      textMatrix (PdfObjectInteger 28) (PdfObjectInteger 680);
      showText "2024-01-02" ]
    initialCursor =
  Returns
    (("2024-01-01" ++ String tab
        ("Boarding" ++ String tab (String tab (String tab (String tab
           (String tab (String tab
              ("1.00" ++ String newline "2024-01-02"))))))))%string,
     None).
Proof. vm_compute. reflexivity. Qed.

(** ** The order of [float64] comparisons *)

Lemma SFcompare_swap (a b : float64) :
  SFcompare b a = option_map CompOpp (SFcompare a b).
Proof.
  float_cases a; float_cases b; simpl; try reflexivity; cmp_cases.
Qed.

Lemma SFcompare_lt_trans (a b c : float64) :
  SFcompare a b = Some Lt -> SFcompare b c = Some Lt -> SFcompare a c = Some Lt.
Proof.
  float_cases a; float_cases b; simpl; try discriminate;
    float_cases c; simpl; try discriminate; try reflexivity;
    intros H1 H2; cmp_cases.
Qed.

Lemma SFcompare_eq_lt_trans (a b c : float64) :
  SFcompare a b = Some Eq -> SFcompare b c = Some Lt -> SFcompare a c = Some Lt.
Proof.
  float_cases a; float_cases b; simpl; try discriminate;
    float_cases c; simpl; try discriminate; try reflexivity;
    intros H1 H2; cmp_cases.
Qed.

Lemma SFcompare_lt_eq_trans (a b c : float64) :
  SFcompare a b = Some Lt -> SFcompare b c = Some Eq -> SFcompare a c = Some Lt.
Proof.
  float_cases a; float_cases b; simpl; try discriminate;
    float_cases c; simpl; try discriminate; try reflexivity;
    intros H1 H2; cmp_cases.
Qed.

Lemma SFcompare_eq_trans (a b c : float64) :
  SFcompare a b = Some Eq -> SFcompare b c = Some Eq -> SFcompare a c = Some Eq.
Proof.
  float_cases a; float_cases b; simpl; try discriminate;
    float_cases c; simpl; try discriminate; try reflexivity;
    intros H1 H2; cmp_cases.
Qed.

Lemma ltb_spec (a b : float64) : ltb a b = true <-> SFcompare a b = Some Lt.
Proof.
  unfold ltb, SFltb. destruct (SFcompare a b) as [[| |]|]; intuition congruence.
Qed.

Lemma leb_spec (a b : float64) :
  leb a b = true <-> SFcompare a b = Some Lt \/ SFcompare a b = Some Eq.
Proof.
  unfold leb, SFleb. destruct (SFcompare a b) as [[| |]|]; intuition congruence.
Qed.

Lemma ltb_leb (a b : float64) : ltb a b = true -> leb a b = true.
Proof. rewrite ltb_spec, leb_spec. auto. Qed.

Lemma ltb_trans (a b c : float64) :
  ltb a b = true -> ltb b c = true -> ltb a c = true.
Proof. rewrite !ltb_spec. apply SFcompare_lt_trans. Qed.

Lemma ltb_leb_trans (a b c : float64) :
  ltb a b = true -> leb b c = true -> ltb a c = true.
Proof.
  rewrite !ltb_spec, leb_spec. intros H [H'|H'].
  - eapply SFcompare_lt_trans; eassumption.
  - eapply SFcompare_lt_eq_trans; eassumption.
Qed.

Lemma leb_ltb_trans (a b c : float64) :
  leb a b = true -> ltb b c = true -> ltb a c = true.
Proof.
  rewrite !ltb_spec, leb_spec. intros [H|H] H'.
  - eapply SFcompare_lt_trans; eassumption.
  - eapply SFcompare_eq_lt_trans; eassumption.
Qed.

Lemma leb_trans (a b c : float64) :
  leb a b = true -> leb b c = true -> leb a c = true.
Proof.
  intros H H'. apply leb_spec in H as [H|H].
  - apply ltb_leb. apply ltb_leb_trans with b; [apply ltb_spec|]; assumption.
  - apply leb_spec in H' as [H'|H']; apply leb_spec.
    + left. eapply SFcompare_eq_lt_trans; eassumption.
    + right. eapply SFcompare_eq_trans; eassumption.
Qed.

Lemma ltb_not_geb (a b : float64) : ltb a b = true -> leb b a = false.
Proof.
  rewrite ltb_spec. intros H. unfold leb, SFleb.
  rewrite SFcompare_swap, H. reflexivity.
Qed.

Lemma leb_not_gtb (a b : float64) : leb a b = true -> ltb b a = false.
Proof.
  rewrite leb_spec. intros H. unfold ltb, SFltb.
  rewrite SFcompare_swap. destruct H as [-> | ->]; reflexivity.
Qed.

(** Two values that each take part in a true comparison are not NaN, so
    they are comparable: the order is total on them. *)
Lemma leb_total (a b x y : float64) :
  leb x a = true -> leb b y = true -> leb a b = false -> ltb b a = true.
Proof.
  unfold leb, ltb, SFleb, SFltb. intros Ha Hb.
  rewrite (SFcompare_swap a b).
  assert (Na : a <> S754_nan).
  { intros ->. destruct x; discriminate. }
  assert (Nb : b <> S754_nan).
  { intros ->. discriminate. }
  destruct (SFcompare a b) as [[| |]|] eqn:E; simpl; try reflexivity;
    try discriminate.
  intros _. float_cases a; float_cases b; simpl in E; congruence.
Qed.

(** ** Position classifier *)

Lemma findPositionIdx_eq (pos : float64) :
  findPositionIdx pos =
  if ltb pos (ofZ 0) || gtb pos (ofZ 1100) then Panics (InvalidPos pos)
  else if leb pos (position 0) then Returns 0
  else if geb pos (position 7) then Returns 7
  else match halfwayLoop pos 0 7 with
       | Some i => Returns i
       | None => Returns 7
       end.
Proof. reflexivity. Qed.

Lemma inRange_guard (c : float64) :
  inRange c -> ltb c (ofZ 0) || gtb c (ofZ 1100) = false.
Proof.
  intros [H0 H1]. unfold gtb.
  rewrite (leb_not_gtb _ _ H0), (leb_not_gtb _ _ H1). reflexivity.
Qed.

Lemma halfwayLoop_bounds (pos : float64) (n i : nat) (j : Z) :
  halfwayLoop pos i n = Some j -> Z.of_nat i <= j < Z.of_nat (i + n).
Proof.
  revert i. induction n as [|n IH]; intros i; cbn [halfwayLoop].
  - discriminate.
  - destruct (ltb pos (halfway i)).
    + intros [= <-]. lia.
    + intros H. apply IH in H. lia.
Qed.

Lemma loopIdx_bounds (pos : float64) (i n : nat) :
  Z.of_nat i <= loopIdx pos i n <= Z.of_nat (i + n).
Proof.
  unfold loopIdx. destruct (halfwayLoop pos i n) eqn:E.
  - apply halfwayLoop_bounds in E. lia.
  - lia.
Qed.

Lemma loopIdx_mono (p q : float64) (n i : nat) :
  ltb p q = true -> loopIdx p i n <= loopIdx q i n.
Proof.
  intros Hpq. revert i. induction n as [|n IH]; intros i.
  - unfold loopIdx. cbn [halfwayLoop]. lia.
  - unfold loopIdx in *. cbn [halfwayLoop].
    destruct (ltb q (halfway i)) eqn:Eq.
    + rewrite (ltb_trans _ _ _ Hpq Eq). lia.
    + destruct (ltb p (halfway i)).
      * pose proof (loopIdx_bounds q (S i) n) as B. unfold loopIdx in B.
        replace (i + S n)%nat with (S i + n)%nat by lia. lia.
      * specialize (IH (S i)).
        replace (i + S n)%nat with (S i + n)%nat by lia. exact IH.
Qed.

Lemma findPositionIdx_inRange (c : float64) :
  inRange c ->
  findPositionIdx c =
  Returns (if leb c (position 0) then 0
           else if geb c (position 7) then 7
           else loopIdx c 0 7).
Proof.
  intros H. rewrite findPositionIdx_eq, (inRange_guard _ H).
  destruct (leb c (position 0)); [reflexivity|].
  destruct (geb c (position 7)); [reflexivity|].
  unfold loopIdx. destruct (halfwayLoop c 0 7); reflexivity.
Qed.

Lemma position_0_lt_7 : ltb (position 0) (position 7) = true.
Proof. vm_compute. reflexivity. Qed.

(** NaN is neither below 0 nor above 1100 and fails every comparison of
    the function, so it runs to the final [return]. *)
Example findPositionIdx_nan : findPositionIdx S754_nan = Returns 7.
Proof. reflexivity. Qed.

(** C8: coordinates in [0, positions[0]] classify to column 0 and
    coordinates in [positions[7], 1100] classify to column 7. *)
Theorem findPositionIdx_edges (c : float64) :
  (leb (ofZ 0) c = true -> leb c (position 0) = true ->
   findPositionIdx c = Returns 0) /\
  (leb (position 7) c = true -> leb c (ofZ 1100) = true ->
   findPositionIdx c = Returns 7).
Proof.
  split.
  - intros H0 H1.
    assert (R : inRange c).
    { split; [assumption|]. apply leb_trans with (position 0); [assumption|].
      vm_compute. reflexivity. }
    rewrite (findPositionIdx_inRange _ R), H1. reflexivity.
  - intros H7 H1.
    assert (R : inRange c).
    { split; [|assumption]. apply leb_trans with (position 7); [|assumption].
      vm_compute. reflexivity. }
    rewrite (findPositionIdx_inRange _ R).
    rewrite (ltb_not_geb (position 0) c).
    + unfold geb. rewrite H7. reflexivity.
    + apply ltb_leb_trans with (position 7); [apply position_0_lt_7|assumption].
Qed.

Lemma findPositionIdx_edges_witness :
  findPositionIdx (ofZ 28) = Returns 0 /\
  findPositionIdx (ofZ 1100) = Returns 7.
Proof.
  split.
  - apply (proj1 (findPositionIdx_edges (ofZ 28))); vm_compute; reflexivity.
  - apply (proj2 (findPositionIdx_edges (ofZ 1100))); vm_compute; reflexivity.
Defined.

(** C9: [findPositionIdx] panics with the invalid-position value exactly
    when its argument is strictly below 0 or strictly above 1100, and on
    every argument in [0, 1100] it returns an index between 0 and 7. *)
Theorem findPositionIdx_panics_iff (c : float64) :
  ((exists p, findPositionIdx c = Panics p) <->
   (ltb c (ofZ 0) = true \/ ltb (ofZ 1100) c = true)) /\
  (findPositionIdx c = Panics (InvalidPos c) \/
   exists i, findPositionIdx c = Returns i /\ 0 <= i <= 7) /\
  (leb (ofZ 0) c = true -> leb c (ofZ 1100) = true ->
   exists i, findPositionIdx c = Returns i /\ 0 <= i <= 7).
Proof.
  assert (In : ltb c (ofZ 0) || gtb c (ofZ 1100) = false ->
               exists i, findPositionIdx c = Returns i /\ 0 <= i <= 7).
  { intros G. rewrite findPositionIdx_eq, G.
    destruct (leb c (position 0)); [exists 0; split; [reflexivity|lia]|].
    destruct (geb c (position 7)); [exists 7; split; [reflexivity|lia]|].
    destruct (halfwayLoop c 0 7) as [j|] eqn:E.
    - exists j. split; [reflexivity|]. apply halfwayLoop_bounds in E. lia.
    - exists 7. split; [reflexivity|lia]. }
  destruct (ltb c (ofZ 0) || gtb c (ofZ 1100)) eqn:G.
  - assert (P : findPositionIdx c = Panics (InvalidPos c)).
    { rewrite findPositionIdx_eq, G. reflexivity. }
    apply orb_true_iff in G. unfold gtb in G.
    split; [|split].
    + split; [intros _; exact G|intros _; eexists; exact P].
    + left. exact P.
    + intros H0 H1. apply leb_not_gtb in H0, H1.
      destruct G; congruence.
  - destruct (In eq_refl) as [i [Hi Bi]].
    apply orb_false_iff in G. unfold gtb in G.
    split; [|split].
    + split.
      * intros [p Hp]. congruence.
      * intros [H|H]; destruct G; congruence.
    + right. exists i. auto.
    + intros _ _. exists i. auto.
Qed.

Lemma findPositionIdx_panics_iff_witness :
  exists i, findPositionIdx (ofZ 50) = Returns i /\ 0 <= i <= 7.
Proof.
  apply (proj2 (proj2 (findPositionIdx_panics_iff (ofZ 50))));
    vm_compute; reflexivity.
Defined.

(** C1: for coordinates 0 <= p < q <= 1100, [howManyTabs p q] is the
    difference of the two classified indices and is never negative. *)
Theorem howManyTabs_difference (p q : float64) :
  leb (ofZ 0) p = true -> ltb p q = true -> leb q (ofZ 1100) = true ->
  exists ip iq,
    findPositionIdx p = Returns ip /\
    findPositionIdx q = Returns iq /\
    howManyTabs p q = Returns (iq - ip) /\
    0 <= iq - ip.
Proof.
  intros H0 Hpq H1.
  assert (Rp : inRange p).
  { split; [assumption|]. apply ltb_leb. apply ltb_leb_trans with q; assumption. }
  assert (Rq : inRange q).
  { split; [|assumption]. apply ltb_leb. apply leb_ltb_trans with p; assumption. }
  pose proof (findPositionIdx_inRange _ Rp) as Ep.
  pose proof (findPositionIdx_inRange _ Rq) as Eq.
  eexists. eexists. split; [exact Ep|]. split; [exact Eq|]. split.
  - unfold howManyTabs, geb. rewrite (ltb_not_geb _ _ Hpq), Ep, Eq. reflexivity.
  - pose proof (loopIdx_bounds p 0 7) as Bp.
    pose proof (loopIdx_bounds q 0 7) as Bq.
    pose proof (loopIdx_mono p q 7 0 Hpq) as M.
    destruct (leb p (position 0)) eqn:Ep0.
    + destruct (leb q (position 0)); [lia|]. destruct (geb q (position 7)); lia.
    + assert (Eq0 : leb q (position 0) = false).
      { destruct (leb q (position 0)) eqn:E; [|reflexivity].
        rewrite (ltb_leb _ _ (ltb_leb_trans _ _ _ Hpq E)) in Ep0. discriminate. }
      rewrite Eq0. unfold geb in *.
      destruct (leb (position 7) p) eqn:Ep7.
      * rewrite (ltb_leb _ _ (leb_ltb_trans _ _ _ Ep7 Hpq)). lia.
      * destruct (leb (position 7) q); lia.
Qed.

Lemma howManyTabs_difference_witness :
  exists ip iq,
    findPositionIdx (ofZ 28) = Returns ip /\
    findPositionIdx (ofZ 400) = Returns iq /\
    howManyTabs (ofZ 28) (ofZ 400) = Returns (iq - ip) /\
    0 <= iq - ip.
Proof.
  apply (howManyTabs_difference (ofZ 28) (ofZ 400)); vm_compute; reflexivity.
Defined.

(** ** The string functions *)

Lemma prefix_app (p s : string) :
  String.prefix p s = true <-> exists rest, s = (p ++ rest)%string.
Proof.
  revert s. induction p as [|c p IH]; intros s; simpl.
  - split; [intros _; exists s; reflexivity|intros _; destruct s; reflexivity].
  - destruct s as [|d s]; simpl.
    + split; [discriminate|intros [rest H]; discriminate].
    + destruct (Ascii.ascii_dec c d) as [->|N].
      * rewrite IH. split; intros [rest H]; exists rest; congruence.
      * split; [discriminate|intros [rest H]; congruence].
Qed.

(** [Contains s substr] holds exactly when [substr] occurs in [s]. *)
Lemma Contains_spec (s substr : string) :
  Contains s substr = true <->
  exists before after, s = (before ++ substr ++ after)%string.
Proof.
  induction s as [|c s IH]; cbn [Contains]; rewrite orb_true_iff.
  - split.
    + intros [H|H]; [|discriminate].
      apply prefix_app in H as [rest H]. exists EmptyString, rest. exact H.
    + intros [before [after H]]. left. apply prefix_app. exists after.
      destruct before; [exact H|discriminate].
  - rewrite prefix_app, IH. split.
    + intros [[rest H]|[before [after H]]].
      * exists EmptyString, rest. exact H.
      * exists (String c before), after. simpl. congruence.
    + intros [[|d before] [after H]].
      * left. exists after. exact H.
      * right. exists before, after. simpl in H. congruence.
Qed.

Lemma Split_nonempty (s : string) (sep : ascii) : Split s sep <> [].
Proof.
  destruct s as [|c s]; simpl; [discriminate|].
  destruct (Ascii.eqb c sep); [discriminate|].
  destruct (Split s sep); discriminate.
Qed.

(** Joining the fields of [Split] with the separator gives the text
    back: no byte is dropped or added. *)
Lemma Split_join (s : string) (sep : ascii) :
  String.concat (String sep EmptyString) (Split s sep) = s.
Proof.
  induction s as [|c s IH]; simpl; [reflexivity|].
  destruct (Ascii.eqb_spec c sep) as [->|N].
  - pose proof (Split_nonempty s sep) as NE.
    destruct (Split s sep) as [|f fs]; [congruence|].
    simpl in *. rewrite IH. reflexivity.
  - pose proof (Split_nonempty s sep) as NE.
    destruct (Split s sep) as [|f fs]; [congruence|].
    simpl in *. destruct fs; simpl in *; rewrite <- IH; reflexivity.
Qed.

(** ** Record parser *)

Lemma pageFooter_test (parts : list string) :
  (len parts =? 8) && String.eqb (index parts 1) EmptyString
  && String.eqb (index parts 2) EmptyString
  && String.eqb (index parts 3) EmptyString
  && Contains (index parts 7) "Page " = true <-> pageFooter parts.
Proof.
  unfold pageFooter.
  rewrite !andb_true_iff, Z.eqb_eq, !String.eqb_eq. tauto.
Qed.

Lemma trailingDisclaimer_test (parts : list string) :
  (len parts <? 8) && Contains (index parts 0) disclaimer = true <->
  trailingDisclaimer parts.
Proof.
  unfold trailingDisclaimer. rewrite andb_true_iff, Z.ltb_lt. tauto.
Qed.

(** The three outcomes of [parseLine], by the conditions of the source. *)
Lemma parseLine_cases (text : string) :
  let parts := Split text tab in
  (pageFooter parts /\ parseLine text = ([], Some EOF)) \/
  (~ pageFooter parts /\ trailingDisclaimer parts /\
   parseLine text = ([], Some EOF)) \/
  (~ pageFooter parts /\ ~ trailingDisclaimer parts /\ len parts <> 8 /\
   parseLine text = ([], Some (InvalidLine text))) \/
  (~ pageFooter parts /\ ~ trailingDisclaimer parts /\ len parts = 8 /\
   parseLine text = (parts, None)).
Proof.
  intros parts. unfold parseLine. fold parts.
  pose proof (pageFooter_test parts) as F.
  pose proof (trailingDisclaimer_test parts) as D.
  destruct ((len parts =? 8) && String.eqb (index parts 1) EmptyString
            && String.eqb (index parts 2) EmptyString
            && String.eqb (index parts 3) EmptyString
            && Contains (index parts 7) "Page ").
  - left. split; [apply F|]; reflexivity.
  - right. assert (NF : ~ pageFooter parts).
    { intros H. apply F in H. discriminate. }
    destruct ((len parts <? 8) && Contains (index parts 0) disclaimer).
    + left. split; [assumption|]. split; [apply D|]; reflexivity.
    + right. assert (ND : ~ trailingDisclaimer parts).
      { intros H. apply D in H. discriminate. }
      destruct (Z.eqb_spec (len parts) 8) as [E|E]; simpl.
      * right. auto.
      * left. auto.
Qed.

(** C2: [parseLine] returns the invalid-line error, carrying the raw line,
    exactly when the field count is not 8 and the line is neither
    sentinel; a line with no error is returned as its 8 fields, unchanged,
    and the only other result is the end-of-table sentinel. *)
Theorem parseLine_invalid_iff (text : string) :
  let parts := Split text tab in
  (snd (parseLine text) = Some (InvalidLine text) <->
   len parts <> 8 /\ ~ pageFooter parts /\ ~ trailingDisclaimer parts) /\
  (snd (parseLine text) = Some EOF <->
   pageFooter parts \/ trailingDisclaimer parts) /\
  (snd (parseLine text) = None <->
   parseLine text = (parts, None) /\ len parts = 8) /\
  (forall e, snd (parseLine text) = Some e ->
             e = EOF \/ e = InvalidLine text).
Proof.
  intros parts. subst parts.
  destruct (parseLine_cases text) as
    [[F E]|[[NF [D E]]|[[NF [ND [L E]]]|[NF [ND [L E]]]]]];
    rewrite E; cbn [snd]; (split; [|split; [|split]]).
  (* page footer *)
  - split; [discriminate|tauto].
  - tauto.
  - split; [discriminate|intros [H _]; discriminate].
  - intros e [= <-]. auto.
  (* disclaimer *)
  - split; [discriminate|tauto].
  - tauto.
  - split; [discriminate|intros [H _]; discriminate].
  - intros e [= <-]. auto.
  (* invalid line *)
  - tauto.
  - split; [discriminate|tauto].
  - split; [discriminate|tauto].
  - intros e [= <-]. auto.
  (* record *)
  - split; [discriminate|tauto].
  - split; [discriminate|tauto].
  - tauto.
  - discriminate.
Qed.

Lemma parseLine_invalid_iff_witness :
  snd (parseLine "abc") = Some (InvalidLine "abc").
Proof.
  apply (proj1 (parseLine_invalid_iff "abc")).
  split; [intros H; vm_compute in H; discriminate|].
  split; [intros [H _]|intros [_ H]]; vm_compute in H; discriminate.
Defined.

(** ** Table assembler *)

(** C4, as stated, fails: the line of scenario B has "X" in field 3, so it
    is no sentinel; [parseLine] returns it as a record and [getCSV] puts
    it in the table. *)
Lemma scenarioB_is_a_record :
  Split scenarioB tab =
    [EmptyString; EmptyString; EmptyString; "X"; "Y"; "Z"; "W";
     "Page 2 of 3"] /\
  snd (parseLine scenarioB) <> Some EOF /\
  parseLine scenarioB = (Split scenarioB tab, None) /\
  getCSV [titlePage scenarioB] =
    (1234567890, [recordHeader; Split scenarioB tab], None, []).
Proof.
  split; [reflexivity|]. split; [intros H; vm_compute in H; discriminate|].
  split; vm_compute; reflexivity.
Qed.

Lemma recordLine_eof (text : string) (a : assembly)
  (continue : assembly -> pageEnd) :
  snd (parseLine text) = Some EOF -> recordLine text a continue = PageDone a.
Proof.
  unfold recordLine. destruct (parseLine text) as [parts [e|]]; simpl.
  - intros [= ->]. reflexivity.
  - discriminate.
Qed.

Lemma firstPage_record (text : string) (rest : list string) (line : Z)
  (a : assembly) :
  3 <= line ->
  firstPage (text :: rest) line a =
  recordLine text a (firstPage rest (line + 1)).
Proof.
  intros H. cbn [firstPage].
  destruct (Z.eqb_spec line 0); [lia|].
  destruct (Z.eqb_spec line 1); [lia|].
  destruct (Z.eqb_spec line 2); [lia|]. reflexivity.
Qed.

Lemma laterPage_record (text : string) (rest : list string) (line : Z)
  (a : assembly) :
  1 <= line ->
  laterPage (text :: rest) line a =
  recordLine text a (laterPage rest (line + 1)).
Proof.
  intros H. cbn [laterPage].
  destruct (Z.eqb_spec line 0); [lia|]. reflexivity.
Qed.

(** C4, amended: a line of 8 fields whose fields 1, 2 and 3 (counted from
    0) are empty and whose field 7 contains "Page " is the end-of-table
    sentinel [io.EOF], and the page loops stop at it with the table as it
    was. *)
Theorem pageFooter_ends_page (text : string) :
  pageFooter (Split text tab) ->
  parseLine text = ([], Some EOF) /\
  (forall rest line a,
     3 <= line -> firstPage (text :: rest) line a = PageDone a) /\
  (forall rest line a,
     1 <= line -> laterPage (text :: rest) line a = PageDone a).
Proof.
  intros F.
  assert (E : parseLine text = ([], Some EOF)).
  { destruct (parseLine_cases text) as [[_ E]|[[NF _]|[[NF _]|[NF _]]]];
      [exact E|tauto..]. }
  split; [exact E|]. split; intros rest line a H.
  - rewrite firstPage_record by assumption.
    apply recordLine_eof. rewrite E. reflexivity.
  - rewrite laterPage_record by assumption.
    apply recordLine_eof. rewrite E. reflexivity.
Qed.

Lemma pageFooter_ends_page_witness :
  Split footerLine tab =
    ["X"; EmptyString; EmptyString; EmptyString; "Y"; "Z"; "W";
     "Page 2 of 3"] /\
  parseLine footerLine = ([], Some EOF) /\
  getCSV [titlePage footerLine] = (1234567890, [recordHeader], None, []).
Proof.
  split; [reflexivity|]. split.
  - apply (pageFooter_ends_page footerLine). vm_compute. tauto.
  - vm_compute. reflexivity.
Defined.

(** *** The table in encountered order *)

Lemma recordLine_done (text : string) (a a' : assembly)
  (continue : assembly -> pageEnd) :
  recordLine text a continue = PageDone a' ->
  (snd (parseLine text) = None /\
   continue (appendRecord a (fieldsOf text)) = PageDone a') \/
  (snd (parseLine text) = Some EOF /\ a' = a).
Proof.
  unfold recordLine.
  destruct (parseLine_cases text) as
    [[_ E]|[[_ [_ E]]|[[_ [_ [_ E]]]|[_ [_ [_ E]]]]]]; rewrite E; simpl.
  - intros [= <-]. auto.
  - intros [= <-]. auto.
  - discriminate.
  - intros H. left. auto.
Qed.

Lemma laterPage_rows (lines : list string) :
  forall line a a',
    1 <= line -> laterPage lines line a = PageDone a' ->
    records a' = records a ++ map fieldsOf (recordLines lines).
Proof.
  induction lines as [|text rest IH]; intros line a a' L.
  - simpl. intros [= <-]. rewrite app_nil_r. reflexivity.
  - rewrite laterPage_record by assumption. intros H.
    apply recordLine_done in H as [[P H]|[P ->]]; cbn [recordLines];
      rewrite P.
    + apply IH in H; [|lia]. rewrite H. simpl. rewrite <- app_assoc.
      reflexivity.
    + simpl. rewrite app_nil_r. reflexivity.
Qed.

Lemma firstPage_rows_late (lines : list string) :
  forall line a a',
    3 <= line -> firstPage lines line a = PageDone a' ->
    records a' = records a ++ map fieldsOf (recordLines lines).
Proof.
  induction lines as [|text rest IH]; intros line a a' L.
  - simpl. intros [= <-]. rewrite app_nil_r. reflexivity.
  - rewrite firstPage_record by assumption. intros H.
    apply recordLine_done in H as [[P H]|[P ->]]; cbn [recordLines];
      rewrite P.
    + apply IH in H; [|lia]. rewrite H. simpl. rewrite <- app_assoc.
      reflexivity.
    + simpl. rewrite app_nil_r. reflexivity.
Qed.

(** The three metadata lines leave the records alone; only line 1
    assigns the account number. *)
Lemma firstPage_metadata (text : string) (rest : list string) (line : Z)
  (a : assembly) :
  0 <= line < 3 ->
  exists a1,
    firstPage (text :: rest) line a = firstPage rest (line + 1) a1 /\
    records a1 = records a /\
    num a1 = (if line =? 1 then cardLine text (num a) else num a).
Proof.
  intros L. cbn [firstPage]. unfold cardLine.
  destruct (Z.eqb_spec line 0) as [->|N0].
  { eexists. split; [reflexivity|].
    destruct (negb (String.eqb text "TRANSACTION HISTORY FOR")); auto. }
  destruct (Z.eqb_spec line 1) as [->|N1].
  { destruct (negb (HasPrefix text "CARD ")).
    { eexists. split; [reflexivity|]. auto. }
    destruct (negb (len (Split text space) =? 2)).
    { eexists. split; [reflexivity|]. auto. }
    destruct (ParseInt (index (Split text space) 1)) as [n [e|]];
      eexists; (split; [reflexivity|]); auto. }
  destruct (Z.eqb_spec line 2) as [->|N2]; [|lia].
  eexists. split; [reflexivity|].
  destruct (negb (HasPrefix text headerPrefix)); auto.
Qed.

Lemma firstPage_rows (lines : list string) :
  forall line a a',
    0 <= line -> firstPage lines line a = PageDone a' ->
    records a' =
    records a ++ map fieldsOf (recordLines (skipn (Z.to_nat (3 - line)) lines)).
Proof.
  induction lines as [|text rest IH]; intros line a a' L H.
  - simpl in H. injection H as <-. rewrite skipn_nil. simpl.
    rewrite app_nil_r. reflexivity.
  - destruct (Z_lt_le_dec line 3) as [M|M].
    + destruct (firstPage_metadata text rest line a) as [a1 [E [R _]]];
        [lia|].
      rewrite E in H. apply IH in H; [|lia]. rewrite H, R.
      replace (Z.to_nat (3 - line)) with (S (Z.to_nat (3 - (line + 1))))
        by lia.
      reflexivity.
    + replace (Z.to_nat (3 - line)) with O by lia.
      apply firstPage_rows_late with (line := line); assumption.
Qed.

Lemma pagesLoop_rows (pages : list string) :
  forall i a a',
    0 <= i -> pagesLoop i pages a = PageDone a' ->
    records a' = records a ++ tableRows i pages.
Proof.
  induction pages as [|page rest IH]; intros i a a' L H.
  - simpl in H. injection H as <-. simpl. rewrite app_nil_r. reflexivity.
  - cbn [pagesLoop tableRows] in *. unfold dataLines.
    destruct (Z.eqb_spec i 0) as [->|N].
    + destruct (firstPage (scanLines page) 0 a) as [a1|a1 e] eqn:E;
        [|discriminate].
      apply firstPage_rows in E; [|lia]. apply IH in H; [|lia].
      rewrite H, E, <- app_assoc. reflexivity.
    + destruct (laterPage (scanLines page) 0 a) as [a1|a1 e] eqn:E;
        [|discriminate].
      apply IH in H; [|lia]. rewrite H, app_assoc. f_equal.
      destruct (scanLines page) as [|text lines].
      * simpl in E. injection E as <-. simpl. rewrite app_nil_r. reflexivity.
      * cbn [laterPage] in E. simpl in E.
        apply laterPage_rows in E; [|lia]. rewrite E. simpl.
        destruct (negb (HasPrefix text headerPrefix)); reflexivity.
Qed.

Lemma recordLines_fields (lines : list string) :
  Forall (fun r => len r = 8) (map fieldsOf (recordLines lines)).
Proof.
  induction lines as [|text rest IH]; simpl; [constructor|].
  destruct (snd (parseLine text)) eqn:P; [constructor|].
  simpl. constructor; [|exact IH].
  destruct (parseLine_cases text) as
    [[_ E]|[[_ [_ E]]|[[_ [_ [_ E]]]|[_ [_ [L _]]]]]];
    try (rewrite E in P; discriminate).
  exact L.
Qed.

Lemma tableRows_fields (pages : list string) :
  forall i, Forall (fun r => len r = 8) (tableRows i pages).
Proof.
  induction pages as [|page rest IH]; intros i; simpl; [constructor|].
  apply Forall_app. split; [apply recordLines_fields|apply IH].
Qed.

(** C5: when [getCSV] succeeds, the table is the literal header row
    followed by the rows of the pages in page order, each page's rows in
    line order, and every record has exactly 8 fields. *)
Theorem getCSV_table (pages : list string) (n : Z)
  (table : list (list string)) (log : list warning) :
  getCSV pages = (n, table, None, log) ->
  table =
    [ "Date"; "Transaction Type"; "Location"; "Route"; "Product"; "Debit";
      "Credit"; "Balance" ] :: tableRows 0 pages /\
  Forall (fun r => len r = 8) table.
Proof.
  unfold getCSV.
  destruct (pagesLoop 0 pages _) as [a|a e] eqn:E; [|discriminate].
  intros [= _ <- _]. apply pagesLoop_rows in E; [|lia].
  simpl in E. split; [exact E|]. rewrite E.
  constructor; [reflexivity|apply tableRows_fields].
Qed.

Lemma getCSV_table_witness :
  exists table,
    getCSV twoPages = (1234567890, table, None, []) /\
    table = recordHeader :: tableRows 0 twoPages /\
    Forall (fun r => len r = 8) table.
Proof.
  eexists. split; [vm_compute; reflexivity|].
  apply (getCSV_table twoPages 1234567890 _ []). vm_compute. reflexivity.
Defined.

(** *** The account number *)

Lemma recordLine_num (text : string) (a : assembly)
  (continue : assembly -> pageEnd) :
  (forall a1, num a1 = num a -> endNum (continue a1) = num a) ->
  endNum (recordLine text a continue) = num a.
Proof.
  intros K. unfold recordLine.
  destruct (parseLine text) as [parts [e|]].
  - destruct (isEOF e); reflexivity.
  - apply K. reflexivity.
Qed.

Lemma laterPage_num (lines : list string) :
  forall line a, 0 <= line -> endNum (laterPage lines line a) = num a.
Proof.
  induction lines as [|text rest IH]; intros line a L; [reflexivity|].
  cbn [laterPage]. destruct (line =? 0).
  - rewrite IH by lia.
    destruct (negb (HasPrefix text headerPrefix)); reflexivity.
  - apply recordLine_num. intros a1 <-. apply IH. lia.
Qed.

Lemma firstPage_num_late (lines : list string) :
  forall line a, 2 <= line -> endNum (firstPage lines line a) = num a.
Proof.
  induction lines as [|text rest IH]; intros line a L; [reflexivity|].
  destruct (Z_lt_le_dec line 3) as [M|M].
  - destruct (firstPage_metadata text rest line a) as [a1 [E [_ N]]]; [lia|].
    rewrite E, IH by lia. rewrite N.
    destruct (Z.eqb_spec line 1); [lia|reflexivity].
  - rewrite firstPage_record by assumption.
    apply recordLine_num. intros a1 <-. apply IH. lia.
Qed.

Lemma pagesLoop_num (pages : list string) :
  forall i a, 1 <= i -> endNum (pagesLoop i pages a) = num a.
Proof.
  induction pages as [|page rest IH]; intros i a L; [reflexivity|].
  cbn [pagesLoop]. destruct (Z.eqb_spec i 0); [lia|].
  pose proof (laterPage_num (scanLines page) 0 a) as N.
  destruct (laterPage (scanLines page) 0 a) as [a1|a1 e]; simpl in N.
  - rewrite IH by lia. apply N. lia.
  - apply N. lia.
Qed.

(** The account number is what line 1 of the first page makes of -1. *)
Lemma getCSV_num (page : string) (pages : list string) (l0 l1 : string)
  (more : list string) :
  scanLines page = l0 :: l1 :: more ->
  accountOf (getCSV (page :: pages)) = cardLine l1 (-1).
Proof.
  intros S. unfold getCSV. cbn [pagesLoop]. rewrite S.
  change (0 =? 0) with true. cbv iota.
  set (start := {| num := -1; records := _; warnings := _ |}).
  destruct (firstPage_metadata l0 (l1 :: more) 0 start) as [a0 [E0 [_ N0]]];
    [lia|].
  destruct (firstPage_metadata l1 more (0 + 1) a0) as [a1 [E1 [_ N1]]];
    [lia|].
  rewrite E0, E1. simpl in N0, N1.
  pose proof (firstPage_num_late more (0 + 1 + 1) a1) as F.
  destruct (firstPage more (0 + 1 + 1) a1) as [a2|a2 e]; simpl in F.
  - pose proof (pagesLoop_num pages (0 + 1) a2) as P.
    destruct (pagesLoop (0 + 1) pages a2) as [a3|a3 e]; simpl in P;
      unfold accountOf; simpl; rewrite P, F, N1, N0 by lia; reflexivity.
  - unfold accountOf. simpl. rewrite F, N1, N0 by lia. reflexivity.
Qed.

Lemma getCSV_card_number (page : string) (pages : list string) (l0 : string)
  (more : list string) :
  scanLines page = l0 :: "CARD 1234567890" :: more ->
  accountOf (getCSV (page :: pages)) = 1234567890.
Proof. intros S. rewrite (getCSV_num _ _ _ _ _ S). reflexivity. Qed.

(** A line 1 that is "CARD " alone passes the prefix test and splits in
    two tokens, and the failed [ParseInt] assigns its 0 to the account
    number: the -1 it started with is lost. *)
Lemma getCSV_card_without_number (page : string) (pages : list string)
  (l0 : string) (more : list string) :
  scanLines page = l0 :: "CARD " :: more ->
  accountOf (getCSV (page :: pages)) = 0.
Proof. intros S. rewrite (getCSV_num _ _ _ _ _ S). reflexivity. Qed.

(** The two other ways line 1 can be wrong leave the -1 in place. *)
Lemma getCSV_card_mismatch (page : string) (pages : list string)
  (l0 l1 : string) (more : list string) :
  scanLines page = l0 :: l1 :: more ->
  HasPrefix l1 "CARD " = false \/ len (Split l1 space) <> 2 ->
  accountOf (getCSV (page :: pages)) = -1.
Proof.
  intros S H. rewrite (getCSV_num _ _ _ _ _ S). unfold cardLine.
  destruct H as [-> | H]; [reflexivity|].
  destruct (HasPrefix l1 "CARD "); [|reflexivity]. simpl.
  destruct (Z.eqb_spec (len (Split l1 space)) 2); [contradiction|reflexivity].
Qed.

(** C7: with "CARD 1234567890" on line 1 the account number is
    1234567890; with "CARD " a warning is logged, no error is returned and
    the following record is read, but the account number returned is 0,
    not -1. *)
Theorem getCSV_card_scenario :
  getCSV [cardPage "CARD 1234567890"] =
    (1234567890, [recordHeader; fieldsOf sampleRow], None, []) /\
  getCSV [cardPage "CARD "] =
    (0, [recordHeader; fieldsOf sampleRow], None,
     [{| warnMsg := "error reading account number"; warnLine := 1;
         warnText := "CARD " |}]).
Proof. split; vm_compute; reflexivity. Qed.

(** ** Text reconstructor *)

(** A [TJ] operator runs only the show-text part of the loop body. *)
Lemma step_TJ (op : ContentStreamOperation) (c : cursor) :
  Operand op = "TJ" -> step op c = opShow op c.
Proof.
  intros E. unfold step, opBeginEnd, opTm, opMove. rewrite E. reflexivity.
Qed.

Lemma opShow_TJ (op : ContentStreamOperation) (c : cursor) :
  Operand op = "TJ" -> inText c = true ->
  opShow op c =
  match Params op with
  | [] => Continue c
  | PdfObjectArray paramList :: _ =>
      Next (setTxt c (fold_left showElement paramList (txt c)))
  | other :: _ => Fail (NoArray other)
  end.
Proof. intros E T. unfold opShow. rewrite E, T. reflexivity. Qed.

Lemma showElement_other (t : string) (obj : PdfObject) :
  isStringOrNumber obj = false -> showElement t obj = t.
Proof. destruct obj; simpl; try discriminate; reflexivity. Qed.

(** C3, as stated, fails for array elements: a name between two strings
    of a [TJ] array raises no error, the text is returned. *)
Lemma TJ_element_of_other_type_is_no_error :
  isStringOrNumber (PdfObjectName "F1") = false /\
  runOperations
    [ beginText;
      showTJ [PdfObjectArray
                [PdfObjectString "ab"; PdfObjectName "F1";
                 PdfObjectString "cd"]] ]
    initialCursor = Returns ("abcd", None).
Proof. split; reflexivity. Qed.

(** C3, amended: in a text block, a [TJ] whose first operand is not an
    array makes [extractText] return the no-array error, whatever follows;
    an array element that is neither a string nor a number raises no error
    and adds nothing to the text. *)
Theorem TJ_malformed_operand (op : ContentStreamOperation) (c : cursor) :
  Operand op = "TJ" -> inText c = true ->
  (forall first others,
     Params op = first :: others -> isArray first = false ->
     step op c = Fail (NoArray first) /\
     forall ops,
       runOperations (op :: ops) c = Returns (EmptyString, Some (NoArray first))) /\
  (forall before obj after others,
     Params op = PdfObjectArray (before ++ obj :: after) :: others ->
     isStringOrNumber obj = false ->
     step op c =
     Next (setTxt c
             (fold_left showElement after
                        (fold_left showElement before (txt c))))).
Proof.
  intros E T. split.
  - intros first others P A.
    assert (S : step op c = Fail (NoArray first)).
    { rewrite step_TJ, opShow_TJ, P by assumption.
      destruct first; try reflexivity. discriminate. }
    split; [exact S|]. intros ops. cbn [runOperations]. rewrite S. reflexivity.
  - intros before obj after others P O.
    rewrite step_TJ, opShow_TJ, P by assumption.
    rewrite fold_left_app. cbn [fold_left].
    rewrite showElement_other by assumption. reflexivity.
Qed.

Lemma TJ_malformed_operand_witness :
  (forall ops,
     runOperations (showTJ [PdfObjectString "ab"] :: ops) inTextCursor =
     Returns (EmptyString, Some (NoArray (PdfObjectString "ab")))) /\
  step (showTJ [PdfObjectArray
                  ([PdfObjectString "ab"] ++
                   PdfObjectName "F1" :: [PdfObjectString "cd"])])
       inTextCursor =
  Next (setTxt inTextCursor "abcd").
Proof.
  split.
  - apply (proj1 (TJ_malformed_operand (showTJ [PdfObjectString "ab"])
                    inTextCursor eq_refl eq_refl)
             (PdfObjectString "ab") []); reflexivity.
  - apply (proj2 (TJ_malformed_operand
                    (showTJ [PdfObjectArray
                               ([PdfObjectString "ab"] ++
                                PdfObjectName "F1" :: [PdfObjectString "cd"])])
                    inTextCursor eq_refl eq_refl)
             [PdfObjectString "ab"] (PdfObjectName "F1")
             [PdfObjectString "cd"] []); reflexivity.
Defined.

Lemma showElement_below (t : string) (v : PdfObject) :
  belowThreshold v -> showElement t v = (t ++ " ")%string.
Proof.
  destruct v; simpl; try contradiction.
  - intros H. apply Z.ltb_lt in H. rewrite H. reflexivity.
  - intros ->. reflexivity.
Qed.

Lemma showElement_atOrAbove (t : string) (v : PdfObject) :
  atOrAboveThreshold v -> showElement t v = t.
Proof.
  destruct v; simpl; try contradiction.
  - intros H. apply Z.ltb_ge in H. rewrite H. reflexivity.
  - intros H. rewrite (leb_not_gtb _ _ H). reflexivity.
Qed.

(** C6: in a [TJ] array inside a text block, a numeric adjustment strictly
    below -100 appends exactly one space at its place between the text of
    the elements before it and the text of the elements after it, and an
    adjustment at or above -100 appends nothing: the text of the cursor
    after the operator is the text before it, then the elements before
    the adjustment, then one space or nothing, then the elements after
    it.  The operator goes on to the next one and leaves the position
    and the text block as they are. *)
Theorem TJ_spacing_adjustment (op : ContentStreamOperation) (c : cursor)
  (before after others : list PdfObject) (v : PdfObject) :
  Operand op = "TJ" -> inText c = true ->
  Params op = PdfObjectArray (before ++ v :: after) :: others ->
  exists c',
    step op c = Next c' /\
    xPos c' = xPos c /\ yPos c' = yPos c /\ inText c' = true /\
    (belowThreshold v ->
     txt c' =
     fold_left showElement after
       (fold_left showElement before (txt c) ++ " ")%string) /\
    (atOrAboveThreshold v ->
     txt c' =
     fold_left showElement after (fold_left showElement before (txt c))).
Proof.
  intros E T P.
  exists (setTxt c
            (fold_left showElement after
               (showElement (fold_left showElement before (txt c)) v))).
  split.
  { rewrite step_TJ, opShow_TJ, P by assumption.
    rewrite fold_left_app. reflexivity. }
  cbn [setTxt xPos yPos inText txt].
  split; [reflexivity|]. split; [reflexivity|]. split; [exact T|].
  split; intros H.
  - rewrite showElement_below by assumption. reflexivity.
  - rewrite showElement_atOrAbove by assumption. reflexivity.
Qed.

Lemma TJ_spacing_adjustment_witness :
  (exists c', step (spaced (PdfObjectInteger (-150))) inTextCursor = Next c'
              /\ txt c' = "ab cd") /\
  (exists c', step (spaced (PdfObjectInteger (-50))) inTextCursor = Next c'
              /\ txt c' = "abcd") /\
  (exists c', step (spaced (PdfObjectFloat (ofZ (-150)))) inTextCursor
              = Next c' /\ txt c' = "ab cd") /\
  (exists c', step (spaced (PdfObjectFloat (ofZ (-100)))) inTextCursor
              = Next c' /\ txt c' = "abcd").
Proof.
  split; [|split; [|split]].
  - destruct (TJ_spacing_adjustment (spaced (PdfObjectInteger (-150)))
                inTextCursor [PdfObjectString "ab"]
                [PdfObjectString "cd"] [] (PdfObjectInteger (-150))
                eq_refl eq_refl eq_refl) as [c' [E [_ [_ [_ [B _]]]]]].
    exists c'. split; [exact E|]. apply B. simpl. lia.
  - destruct (TJ_spacing_adjustment (spaced (PdfObjectInteger (-50)))
                inTextCursor [PdfObjectString "ab"]
                [PdfObjectString "cd"] [] (PdfObjectInteger (-50))
                eq_refl eq_refl eq_refl) as [c' [E [_ [_ [_ [_ A]]]]]].
    exists c'. split; [exact E|]. apply A. simpl. lia.
  - destruct (TJ_spacing_adjustment
                (spaced (PdfObjectFloat (ofZ (-150))))
                inTextCursor [PdfObjectString "ab"]
                [PdfObjectString "cd"] [] (PdfObjectFloat (ofZ (-150)))
                eq_refl eq_refl eq_refl) as [c' [E [_ [_ [_ [B _]]]]]].
    exists c'. split; [exact E|]. apply B. vm_compute. reflexivity.
  - destruct (TJ_spacing_adjustment
                (spaced (PdfObjectFloat (ofZ (-100))))
                inTextCursor [PdfObjectString "ab"]
                [PdfObjectString "cd"] [] (PdfObjectFloat (ofZ (-100)))
                eq_refl eq_refl eq_refl) as [c' [E [_ [_ [_ [_ A]]]]]].
    exists c'. split; [exact E|]. apply A. vm_compute. reflexivity.
Defined.

(** ** Entry point *)

Section EntryPoint.

Variable ReadSeeker : Type.
Variable NewPdfReader : ReadSeeker -> PdfReader * option error.
Variable NewContentStreamParser : string -> ContentStreamParser.
Variable decoderString : string -> string * option error.
Variable TrimSpace : string -> string.

Local Abbreviation extract :=
  (extractPDFText ReadSeeker NewPdfReader NewContentStreamParser
                  decoderString TrimSpace).
Local Abbreviation parse :=
  (ParsePDF ReadSeeker NewPdfReader NewContentStreamParser
            decoderString TrimSpace).

(** C10: whenever [ParsePDF] returns an error, the data returned with it
    is the zero value: an error of the text extraction is passed on, and
    an error of [getCSV] is passed on without the account number
    [getCSV] returned with it. *)
Theorem ParsePDF_error_zero (r : ReadSeeker) :
  (forall data err log,
     parse r = Returns (data, Some err, log) ->
     data = zeroTransactionData /\
     AccountNumber data = 0 /\ Transactions data = []) /\
  (forall pages err,
     extract r = Returns (pages, Some err) ->
     parse r = Returns (zeroTransactionData, Some err, [])) /\
  (forall pages n table err log,
     extract r = Returns (pages, None) ->
     getCSV pages = (n, table, Some err, log) ->
     parse r = Returns (zeroTransactionData, Some err, log)).
Proof.
  unfold ParsePDF. split; [|split].
  - intros data err log.
    destruct (extractPDFText _ _ _ _ _ r) as [[pages [e|]]|p]; simpl.
    + intros [= <- _ _]. auto.
    + destruct (getCSV pages) as [[[n table] [e|]] lg].
      * intros [= <- _ _]. auto.
      * discriminate.
    + discriminate.
  - intros pages err ->. reflexivity.
  - intros pages n table err log -> G. simpl. rewrite G. reflexivity.
Qed.

End EntryPoint.

Lemma ParsePDF_error_zero_witness :
  (exists pages,
     extractPDFText (list string) streamsReader drawingParser
                    (fun s => (s, None)) (fun s => s) brokenDocument =
       Returns (pages, None) /\
     getCSV pages = (1234567890, [], Some (InvalidLine "bad"), [])) /\
  ParsePDF (list string) streamsReader drawingParser
           (fun s => (s, None)) (fun s => s) brokenDocument =
    Returns (zeroTransactionData, Some (InvalidLine "bad"), []).
Proof.
  split.
  - eexists. split; vm_compute; reflexivity.
  - eapply (proj2 (proj2 (ParsePDF_error_zero (list string) streamsReader
                            drawingParser (fun s => (s, None)) (fun s => s)
                            brokenDocument)));
      vm_compute; reflexivity.
Defined.

(** * Further properties of the package *)

(** ** Comparisons of values that are not NaN *)

Lemma ltb_notNaN (a b : float64) :
  ltb a b = true -> a <> S754_nan /\ b <> S754_nan.
Proof.
  unfold ltb, SFltb. intros H. split; intros ->.
  - discriminate.
  - destruct a; discriminate.
Qed.

Lemma leb_notNaN (a b : float64) :
  leb a b = true -> a <> S754_nan /\ b <> S754_nan.
Proof.
  unfold leb, SFleb. intros H. split; intros ->.
  - discriminate.
  - destruct a; discriminate.
Qed.

Lemma SFcompare_notNaN (a b : float64) :
  a <> S754_nan -> b <> S754_nan -> SFcompare a b <> None.
Proof.
  intros Na Nb. float_cases a; float_cases b; simpl; congruence.
Qed.

(** On values that are not NaN the order is total. *)
Lemma ltb_false_leb (a b : float64) :
  a <> S754_nan -> b <> S754_nan -> ltb a b = false -> leb b a = true.
Proof.
  intros Na Nb. pose proof (SFcompare_notNaN a b Na Nb) as C.
  unfold ltb, leb, SFltb, SFleb. rewrite (SFcompare_swap a b).
  destruct (SFcompare a b) as [[| |]|]; simpl; congruence.
Qed.

Lemma leb_false_ltb (a b : float64) :
  a <> S754_nan -> b <> S754_nan -> leb a b = false -> ltb b a = true.
Proof.
  intros Na Nb. pose proof (SFcompare_notNaN a b Na Nb) as C.
  unfold ltb, leb, SFltb, SFleb. rewrite (SFcompare_swap a b).
  destruct (SFcompare a b) as [[| |]|]; simpl; congruence.
Qed.

Lemma inRange_notNaN (c : float64) : inRange c -> c <> S754_nan.
Proof. intros [H _]. apply (leb_notNaN _ _ H). Qed.

Lemma halfway_notNaN (k : nat) : (k < 7)%nat -> halfway k <> S754_nan.
Proof.
  intros H. do 7 (destruct k as [|k]; [vm_compute; discriminate|]). lia.
Qed.

(** The midpoints increase from one column to the next, above the first
    column start and below the last. *)
Lemma halfway_increasing (k : nat) :
  (k < 6)%nat -> ltb (halfway k) (halfway (S k)) = true.
Proof.
  intros H. do 6 (destruct k as [|k]; [vm_compute; reflexivity|]). lia.
Qed.

Lemma halfway_bounds :
  ltb (position 0) (halfway 0) = true /\ ltb (halfway 6) (position 7) = true.
Proof. split; vm_compute; reflexivity. Qed.

Lemma ltb_halfway_next (c : float64) (k : nat) :
  (k < 6)%nat -> ltb c (halfway k) = true -> ltb c (halfway (S k)) = true.
Proof.
  intros H L. apply ltb_trans with (halfway k); [exact L|].
  apply halfway_increasing, H.
Qed.

(** In [0, 1100], being at or above a midpoint is the negation of being
    below it. *)
Lemma leb_halfway (c : float64) (k : nat) :
  inRange c -> (k < 7)%nat ->
  leb (halfway k) c = negb (ltb c (halfway k)).
Proof.
  intros R H. destruct (ltb c (halfway k)) eqn:E; simpl.
  - apply ltb_not_geb, E.
  - apply ltb_false_leb;
      [apply inRange_notNaN, R|apply halfway_notNaN, H|exact E].
Qed.

(** X1: nearest-midpoint binning.  In [0, 1100] a coordinate is in
    column [i] exactly when it is at or above the midpoint before the
    column start [i] (for [i] > 0) and strictly below the midpoint after
    it (for [i] < 7). *)
Theorem findPositionIdx_midpoints (c : float64) (i : nat) :
  inRange c -> (i <= 7)%nat ->
  (findPositionIdx c = Returns (Z.of_nat i) <->
   (i = 0%nat \/ leb (halfway (i - 1)) c = true) /\
   (i = 7%nat \/ ltb c (halfway i) = true)).
Proof.
  intros R I. rewrite (findPositionIdx_inRange c R).
  pose proof (leb_halfway c 0 R ltac:(lia)) as T0.
  pose proof (leb_halfway c 1 R ltac:(lia)) as T1.
  pose proof (leb_halfway c 2 R ltac:(lia)) as T2.
  pose proof (leb_halfway c 3 R ltac:(lia)) as T3.
  pose proof (leb_halfway c 4 R ltac:(lia)) as T4.
  pose proof (leb_halfway c 5 R ltac:(lia)) as T5.
  pose proof (leb_halfway c 6 R ltac:(lia)) as T6.
  pose proof (ltb_halfway_next c 0 ltac:(lia)) as M0.
  pose proof (ltb_halfway_next c 1 ltac:(lia)) as M1.
  pose proof (ltb_halfway_next c 2 ltac:(lia)) as M2.
  pose proof (ltb_halfway_next c 3 ltac:(lia)) as M3.
  pose proof (ltb_halfway_next c 4 ltac:(lia)) as M4.
  pose proof (ltb_halfway_next c 5 ltac:(lia)) as M5.
  assert (E0 : leb c (position 0) = true -> ltb c (halfway 0) = true).
  { intros H. apply leb_ltb_trans with (position 0); [exact H|].
    apply halfway_bounds. }
  assert (E7 : geb c (position 7) = true -> ltb c (halfway 6) = false).
  { unfold geb. intros H. apply leb_not_gtb.
    apply ltb_leb. apply ltb_leb_trans with (position 7); [|exact H].
    apply halfway_bounds. }
  unfold loopIdx. cbn [halfwayLoop].
  destruct i as [|[|[|[|[|[|[|[|i]]]]]]]]; [..|lia];
    cbn [Nat.sub Z.of_nat Pos.of_succ_nat Pos.succ];
    rewrite ?T0, ?T1, ?T2, ?T3, ?T4, ?T5, ?T6.
  all: remember (leb c (position 0)) as l0 eqn:L0;
    remember (geb c (position 7)) as g7 eqn:G7;
    remember (ltb c (halfway 0)) as b0 eqn:B0;
    remember (ltb c (halfway 1)) as b1 eqn:B1;
    remember (ltb c (halfway 2)) as b2 eqn:B2;
    remember (ltb c (halfway 3)) as b3 eqn:B3;
    remember (ltb c (halfway 4)) as b4 eqn:B4;
    remember (ltb c (halfway 5)) as b5 eqn:B5;
    remember (ltb c (halfway 6)) as b6 eqn:B6;
    clear L0 G7 B0 B1 B2 B3 B4 B5 B6 T0 T1 T2 T3 T4 T5 T6;
    destruct l0; [specialize (E0 eq_refl)|clear E0];
    (destruct g7; [specialize (E7 eq_refl)|clear E7]);
    (destruct b0; [specialize (M0 eq_refl)|clear M0]; try discriminate);
    (destruct b1; [specialize (M1 eq_refl)|clear M1]; try discriminate);
    (destruct b2; [specialize (M2 eq_refl)|clear M2]; try discriminate);
    (destruct b3; [specialize (M3 eq_refl)|clear M3]; try discriminate);
    (destruct b4; [specialize (M4 eq_refl)|clear M4]; try discriminate);
    (destruct b5; [specialize (M5 eq_refl)|clear M5]; try discriminate);
    (destruct b6; try discriminate);
    cbn [negb];
    (split;
     [intros H; first [discriminate H|injection H; discriminate|split; auto]
     |intros [[?|?] [?|?]]; try discriminate; reflexivity]).
Qed.

Lemma findPositionIdx_midpoints_witness :
  findPositionIdx (ofZ 300) = Returns 2.
Proof.
  assert (R : inRange (ofZ 300)) by (split; vm_compute; reflexivity).
  apply (proj2 (findPositionIdx_midpoints (ofZ 300) 2 R ltac:(lia))).
  split; right; vm_compute; reflexivity.
Defined.

(** ** Tab counts *)

Lemma findPositionIdx_cases (c : float64) :
  (outOfRange c /\ findPositionIdx c = Panics (InvalidPos c)) \/
  (ltb c (ofZ 0) = false /\ ltb (ofZ 1100) c = false /\
   exists i, findPositionIdx c = Returns i /\ 0 <= i <= 7).
Proof.
  rewrite findPositionIdx_eq. unfold outOfRange, gtb.
  destruct (ltb c (ofZ 0)) eqn:L; [left; auto|].
  destruct (ltb (ofZ 1100) c) eqn:G; [left; auto|].
  right. split; [reflexivity|]. split; [reflexivity|]. cbn [orb].
  destruct (leb c (position 0)); [exists 0; split; [reflexivity|lia]|].
  destruct (geb c (position 7)); [exists 7; split; [reflexivity|lia]|].
  destruct (halfwayLoop c 0 7) as [j|] eqn:E.
  - exists j. split; [reflexivity|]. apply halfwayLoop_bounds in E. lia.
  - exists 7. split; [reflexivity|lia].
Qed.

Lemma inRange_of_guard (c : float64) :
  c <> S754_nan -> ltb c (ofZ 0) = false -> ltb (ofZ 1100) c = false ->
  inRange c.
Proof.
  intros N L G. split; apply ltb_false_leb; try assumption;
    vm_compute; discriminate.
Qed.

Lemma inRange_not_outOfRange (c : float64) : inRange c -> ~ outOfRange c.
Proof.
  intros [H0 H1] [H|H].
  - rewrite (leb_not_gtb _ _ H0) in H. discriminate.
  - rewrite (leb_not_gtb _ _ H1) in H. discriminate.
Qed.

(** The classification does not decrease along [0, 1100]. *)
Lemma findPositionIdx_mono (p q : float64) (ip iq : Z) :
  inRange p -> inRange q -> ltb p q = true ->
  findPositionIdx p = Returns ip -> findPositionIdx q = Returns iq ->
  ip <= iq.
Proof.
  intros Rp Rq Hpq.
  rewrite (findPositionIdx_inRange _ Rp), (findPositionIdx_inRange _ Rq).
  intros [= <-] [= <-].
  pose proof (loopIdx_bounds p 0 7) as Bp.
  pose proof (loopIdx_bounds q 0 7) as Bq.
  pose proof (loopIdx_mono p q 7 0 Hpq) as M.
  destruct (leb p (position 0)) eqn:Ep0.
  - destruct (leb q (position 0)); [lia|]. destruct (geb q (position 7)); lia.
  - assert (Eq0 : leb q (position 0) = false).
    { destruct (leb q (position 0)) eqn:E; [|reflexivity].
      rewrite (ltb_leb _ _ (ltb_leb_trans _ _ _ Hpq E)) in Ep0. discriminate. }
    rewrite Eq0. unfold geb in *.
    destruct (leb (position 7) p) eqn:Ep7.
    + rewrite (ltb_leb _ _ (leb_ltb_trans _ _ _ Ep7 Hpq)). lia.
    + destruct (leb (position 7) q); lia.
Qed.

(** With [prevPos < curPos], [howManyTabs] returns a count between 0 and
    7, or panics over the first of the two positions out of [0, 1100]. *)
Lemma howManyTabs_lt (p q : float64) :
  ltb p q = true ->
  (exists n, howManyTabs p q = Returns n /\ 0 <= n <= 7) \/
  (exists pos, howManyTabs p q = Panics (InvalidPos pos) /\
               outOfRange pos /\ (pos = p \/ pos = q)).
Proof.
  intros Hpq. unfold howManyTabs, geb. rewrite (ltb_not_geb _ _ Hpq).
  destruct (ltb_notNaN _ _ Hpq) as [Np Nq].
  destruct (findPositionIdx_cases p) as [[Op Ep]|[Lp [Gp [ip [Ep Bp]]]]];
    rewrite Ep; cbn [bind].
  { right. exists p. auto. }
  destruct (findPositionIdx_cases q) as [[Oq Eq]|[Lq [Gq [iq [Eq Bq]]]]];
    rewrite Eq; cbn [bind].
  { right. exists q. auto. }
  left. exists (iq - ip). split; [reflexivity|].
  assert (ip <= iq).
  { apply (findPositionIdx_mono p q); try assumption;
      apply inRange_of_guard; assumption. }
  lia.
Qed.

(** ** Text reconstructor: what one operator can do *)

Lemma append_nil_r (s : string) : (s ++ EmptyString)%string = s.
Proof. induction s as [|c s IH]; simpl; congruence. Qed.

Lemma append_assoc (a b c : string) :
  ((a ++ b) ++ c)%string = (a ++ (b ++ c))%string.
Proof. induction a as [|x a IH]; simpl; congruence. Qed.

Lemma layoutOnly_app (a b : string) :
  layoutOnly (a ++ b) = layoutOnly a && layoutOnly b.
Proof.
  induction a as [|c a IH]; simpl; [reflexivity|].
  rewrite IH, andb_assoc. reflexivity.
Qed.

Lemma layoutOnly_tabs (n : Z) : layoutOnly (tabs n) = true.
Proof.
  unfold tabs. induction (Z.to_nat n) as [|k IH]; [reflexivity|].
  cbn [repeat String.concat].
  destruct (repeat (String tab EmptyString) k); [reflexivity|].
  cbn [String.append]. cbn [layoutOnly]. rewrite IH. reflexivity.
Qed.

Lemma trackX_cases (x : float64) (c : cursor) :
  match trackX x c with
  | Next c' =>
      (exists n, 0 <= n <= 7 /\ txt c' = (txt c ++ tabs n)%string) /\
      inText c' = inText c /\ yPos c' = yPos c /\
      (xPos c' = xPos c \/ xPos c' = x)
  | Panicked p =>
      eqb (xPos c) (ofZ (-1)) = false /\
      exists pos, p = InvalidPos pos /\ outOfRange pos /\
                  (pos = xPos c \/ pos = x)
  | Continue _ | Fail _ => False
  end.
Proof.
  unfold trackX. destruct (eqb (xPos c) (ofZ (-1))) eqn:E.
  { cbn [setX txt inText yPos xPos]. split; [|auto].
    exists 0. split; [lia|]. symmetry. apply append_nil_r. }
  destruct (ltb (xPos c) x) eqn:L.
  - destruct (howManyTabs_lt _ _ L) as [[n [H B]]|[pos [H [O P]]]]; rewrite H.
    + unfold Repeat. destruct (Z.ltb_spec n 0); [lia|].
      cbn [setX emit txt inText yPos xPos]. split; [|auto].
      exists n. split; [exact B|reflexivity].
    + split; [reflexivity|]. exists pos. auto.
  - split; [|auto]. exists 0. split; [lia|]. symmetry. apply append_nil_r.
Qed.

Lemma showElements_grow (l : list PdfObject) (t : string) :
  exists s, fold_left showElement l t = (t ++ s)%string.
Proof.
  revert t. induction l as [|obj l IH]; intros t; cbn [fold_left].
  - exists EmptyString. symmetry. apply append_nil_r.
  - assert (E : exists s1, showElement t obj = (t ++ s1)%string).
    { destruct obj; cbn [showElement];
        try (exists EmptyString; symmetry; apply append_nil_r).
      - destruct (n <? -100);
          [exists " "; reflexivity
          |exists EmptyString; symmetry; apply append_nil_r].
      - destruct (ltb f (ofZ (-100)));
          [exists " "; reflexivity
          |exists EmptyString; symmetry; apply append_nil_r].
      - exists s. reflexivity. }
    destruct E as [s1 ->]. destruct (IH (t ++ s1)%string) as [s2 ->].
    exists (s1 ++ s2)%string. apply append_assoc.
Qed.

(** The operand tests of the loop body, decided. *)
Lemma step_eq (op : ContentStreamOperation) (c : cursor) :
  step op c =
  if String.eqb (Operand op) "BT" then Next (setInText c true)
  else if String.eqb (Operand op) "ET" then Next (setInText c false)
  else if String.eqb (Operand op) "Tm" then opTm op c
  else if String.eqb (Operand op) "Td" || String.eqb (Operand op) "TD"
          || String.eqb (Operand op) "T*"
  then Next (emit c (String newline EmptyString))
  else opShow op c.
Proof.
  destruct op as [params o]. unfold step, opBeginEnd, opTm, opMove, opShow.
  cbn [Operand Params]. operand_cases; cbn [andThen orb andb];
    rewrite ?andb_false_r; try reflexivity.
  - destruct (negb (len params =? 6)); [reflexivity|].
    destruct (asFloat (nth 4 params PdfObjectNull)); [|reflexivity].
    destruct (asFloat (nth 5 params PdfObjectNull)); [|reflexivity].
    destruct (eqb (yPos c) (ofZ (-1))).
    + destruct (trackX f _); cbn [andThen]; rewrite ?andb_false_r;
        reflexivity.
    + destruct (gtb (yPos c) f0); [reflexivity|].
      destruct (trackX f c); cbn [andThen]; rewrite ?andb_false_r;
        reflexivity.
Qed.

Lemma step_cases (op : ContentStreamOperation) (c : cursor) :
  match step op c with
  | Next c' | Continue c' => advances op c c'
  | Fail e =>
      inText c = true /\
      exists first others,
        Params op = first :: others /\
        ((Operand op = "TJ" /\ isArray first = false /\ e = NoArray first) \/
         (Operand op = "Tj" /\ isString first = false /\
          e = NotString first))
  | Panicked p =>
      eqb (xPos c) (ofZ (-1)) = false /\
      exists pos, p = InvalidPos pos /\ outOfRange pos /\
                  (pos = xPos c \/ xOffset op = Some pos)
  end.
Proof.
  assert (Same : exists s', txt c = (txt c ++ s')%string /\
                            (inText c = false -> layoutOnly s' = true)).
  { exists EmptyString. split; [|reflexivity].
    symmetry. apply append_nil_r. }
  rewrite step_eq. unfold advances, nextInText, xOffset.
  destruct op as [params o]. cbn [Operand Params].
  destruct (String.eqb_spec o "BT") as [->|NBT].
  { cbn [setInText txt inText xPos]. unchanged. }
  destruct (String.eqb_spec o "ET") as [->|NET].
  { cbn [setInText txt inText xPos]. unchanged. }
  destruct (String.eqb_spec o "Tm") as [->|NTm].
  { unfold opTm. cbn [Operand Params andb].
    destruct (Z.eqb_spec (len params) 6) as [L|L]; cbn [negb].
    2:{ unchanged. }
    destruct (asFloat (nth 4 params PdfObjectNull)) as [x|];
      [|unchanged].
    destruct (asFloat (nth 5 params PdfObjectNull)) as [y|];
      [|unchanged].
    destruct (eqb (yPos c) (ofZ (-1))).
    - pose proof (trackX_cases x (setY c y)) as T.
      destruct (trackX x (setY c y)) as [c'|c'|e|p];
        cbn [setY txt inText xPos yPos] in T; try contradiction.
      + destruct T as [[n [B E]] [I [_ X]]]. split; [|split].
        * exists (tabs n). split; [exact E|]. intros _. apply layoutOnly_tabs.
        * exact I.
        * destruct X as [X|X]; [left; exact X|right; congruence].
      + destruct T as [E [pos [P [O X]]]]. split; [exact E|].
        exists pos. split; [exact P|]. split; [exact O|].
        destruct X as [X|X]; [left; exact X|right; congruence].
    - destruct (gtb (yPos c) y).
      + cbn [setY setX emit txt inText xPos]. split; [|split].
        * exists (String newline EmptyString). auto.
        * reflexivity.
        * right. reflexivity.
      + pose proof (trackX_cases x c) as T.
        destruct (trackX x c) as [c'|c'|e|p]; try contradiction.
        * destruct T as [[n [B E]] [I [_ X]]]. split; [|split].
          -- exists (tabs n). split; [exact E|]. intros _.
             apply layoutOnly_tabs.
          -- exact I.
          -- destruct X as [X|X]; [left; exact X|right; congruence].
        * destruct T as [E [pos [P [O X]]]]. split; [exact E|].
          exists pos. split; [exact P|]. split; [exact O|].
          destruct X as [X|X]; [left; exact X|right; congruence]. }
  cbn [andb].
  destruct (String.eqb o "Td" || String.eqb o "TD" || String.eqb o "T*").
  { cbn [emit txt inText xPos]. split; [|auto].
    exists (String newline EmptyString). auto. }
  unfold opShow. cbn [Operand Params].
  destruct (String.eqb_spec o "TJ") as [->|NTJ].
  { destruct (inText c) eqn:I; cbn [andb]; [|unchanged].
    destruct params as [|first others]; [unchanged|].
    destruct first;
      try (split; [reflexivity|]; eexists; eexists;
           split; [reflexivity|]; left; auto).
    cbn [setTxt txt inText xPos]. split; [|auto].
    destruct (showElements_grow elements (txt c)) as [s ->].
    exists s. split; [reflexivity|discriminate]. }
  destruct (String.eqb_spec o "Tj") as [->|NTj].
  { destruct (inText c) eqn:I; cbn [andb]; [|unchanged].
    destruct params as [|first others]; [unchanged|].
    destruct first;
      try (split; [reflexivity|]; eexists; eexists;
           split; [reflexivity|]; right; auto).
    cbn [emit txt inText xPos]. split; [|auto].
    exists s. split; [reflexivity|discriminate]. }
  rewrite !andb_false_r. unchanged.
Qed.

(** ** Text reconstructor: whole streams *)

Lemma advances_xFrom (all : list ContentStreamOperation)
  (op : ContentStreamOperation) (c c' : cursor) :
  In op all -> xFrom all c -> advances op c c' -> xFrom all c'.
Proof.
  intros I X [_ [_ [E|E]]].
  - unfold xFrom in *. rewrite E. exact X.
  - right. exists op. auto.
Qed.

Lemma runOperations_panics (all ops : list ContentStreamOperation) :
  forall c p,
    incl ops all -> xFrom all c -> runOperations ops c = Panics p ->
    exists pos op,
      p = InvalidPos pos /\ outOfRange pos /\ In op all /\
      xOffset op = Some pos.
Proof.
  induction ops as [|op ops IH]; intros c p I X; cbn [runOperations].
  - discriminate.
  - assert (Iop : In op all) by (apply I; left; reflexivity).
    assert (Iops : incl ops all) by (intros o H; apply I; right; exact H).
    pose proof (step_cases op c) as S.
    destruct (step op c) as [c'|c'|e|q].
    + apply IH; [exact Iops|]. apply (advances_xFrom all op c); assumption.
    + apply IH; [exact Iops|]. apply (advances_xFrom all op c); assumption.
    + discriminate.
    + intros [= <-]. destruct S as [E [pos [P [O [Q|Q]]]]].
      * destruct X as [X|[o [Io Xo]]]; [congruence|].
        exists pos, o. subst pos. auto.
      * exists pos, op. auto.
Qed.

Lemma initialCursor_xFrom (all : list ContentStreamOperation) :
  xFrom all initialCursor.
Proof. left. vm_compute. reflexivity. Qed.

(** X3: the only panic of [extractText] is the invalid-position panic of
    [findPositionIdx], raised over the horizontal offset of a [Tm] of the
    stream that lies outside [0, 1100]; [howManyTabs] is never called
    with positions out of order and [strings.Repeat] never with a
    negative count. *)
Theorem extractText_panics (parser : ContentStreamParser) (p : panic) :
  extractText parser = Panics p ->
  exists pos op,
    p = InvalidPos pos /\ outOfRange pos /\
    In op (fst (Parse parser)) /\ xOffset op = Some pos.
Proof.
  unfold extractText. destruct (Parse parser) as [ops [e|]]; [discriminate|].
  intros H. cbn [fst].
  apply (runOperations_panics ops ops initialCursor p);
    [apply incl_refl|apply initialCursor_xFrom|exact H].
Qed.

Lemma extractText_panics_witness :
  exists pos op,
    InvalidPos (ofZ 2000) = InvalidPos pos /\ outOfRange pos /\
    In op [textMatrix (PdfObjectInteger 10) (PdfObjectInteger 700);
           textMatrix (PdfObjectInteger 2000) (PdfObjectInteger 700)] /\
    xOffset op = Some pos.
Proof.
  apply (extractText_panics
           {| Parse :=
                ([textMatrix (PdfObjectInteger 10) (PdfObjectInteger 700);
                  textMatrix (PdfObjectInteger 2000) (PdfObjectInteger 700)],
                 None) |}).
  vm_compute. reflexivity.
Defined.

(** X4: when every horizontal offset of the stream lies in [0, 1100],
    [extractText] returns: it does not panic. *)
Theorem extractText_returns (parser : ContentStreamParser) :
  wellPlaced (fst (Parse parser)) ->
  exists t e, extractText parser = Returns (t, e).
Proof.
  unfold extractText. destruct (Parse parser) as [ops [e|]]; cbn [fst].
  { intros _. eexists. eexists. reflexivity. }
  intros W. destruct (runOperations ops initialCursor) as [[t e]|p] eqn:E.
  - exists t, e. reflexivity.
  - apply (runOperations_panics ops) in E as [pos [op [_ [O [I X]]]]];
      [|apply incl_refl|apply initialCursor_xFrom].
    exfalso. apply (inRange_not_outOfRange pos); [|exact O].
    apply (W op pos I X).
Qed.

Lemma extractText_returns_witness :
  exists t e,
    extractText
      {| Parse :=
           ([beginText;
             textMatrix (PdfObjectInteger 28) (PdfObjectInteger 700);
             showText "ab";
             textMatrix (PdfObjectInteger 500) (PdfObjectInteger 700);
             showText "cd"], None) |} = Returns (t, e).
Proof.
  apply extractText_returns. cbn [Parse fst]. intros op x I X.
  repeat (destruct I as [<-|I]; [vm_compute in X|]); try discriminate;
    try contradiction;
    injection X as <-; split; vm_compute; reflexivity.
Defined.

Lemma runOperations_errors (ops : list ContentStreamOperation) :
  forall c t e,
    runOperations ops c = Returns (t, Some e) ->
    t = EmptyString /\ exists op, In op ops /\ operandError op e.
Proof.
  induction ops as [|op ops IH]; intros c t e; cbn [runOperations].
  - discriminate.
  - pose proof (step_cases op c) as S.
    destruct (step op c) as [c'|c'|e'|q].
    + intros H. apply IH in H as [T [o [I O]]]. split; [exact T|].
      exists o. split; [right; exact I|exact O].
    + intros H. apply IH in H as [T [o [I O]]]. split; [exact T|].
      exists o. split; [right; exact I|exact O].
    + intros [= <- <-]. split; [reflexivity|]. exists op.
      split; [left; reflexivity|]. apply S.
    + discriminate.
Qed.

(** X5: an error of [extractText] comes with the empty text, and it is
    the parser's error or the operand error of a [TJ] or [Tj] of the
    stream; no other operator makes it fail. *)
Theorem extractText_errors (parser : ContentStreamParser) (t : string)
  (e : error) :
  extractText parser = Returns (t, Some e) ->
  t = EmptyString /\
  (snd (Parse parser) = Some e \/
   exists op, In op (fst (Parse parser)) /\ operandError op e).
Proof.
  unfold extractText. destruct (Parse parser) as [ops [e'|]]; cbn [fst snd].
  - intros [= <- <-]. auto.
  - intros H. apply runOperations_errors in H as [T O]. auto.
Qed.

Lemma extractText_errors_witness :
  EmptyString = EmptyString /\
  (snd (Parse (drawingParser "x")) = Some (NotString (PdfObjectInteger 1)) \/
   exists op,
     In op [beginText; showText "ab";
            {| Params := [PdfObjectInteger 1]; Operand := "Tj" |}] /\
     operandError op (NotString (PdfObjectInteger 1))).
Proof.
  destruct (extractText_errors
              {| Parse :=
                   ([beginText; showText "ab";
                     {| Params := [PdfObjectInteger 1]; Operand := "Tj" |}],
                    None) |}
              EmptyString (NotString (PdfObjectInteger 1)) eq_refl)
    as [T [H|H]].
  - discriminate H.
  - split; [exact T|right; exact H].
Defined.

Lemma cursorAfter_text (ops : list ContentStreamOperation) :
  forall c t,
    runOperations ops c = Returns (t, None) <->
    exists c1, cursorAfter ops c = Some c1 /\ txt c1 = t.
Proof.
  induction ops as [|op ops IH]; intros c t;
    cbn [runOperations cursorAfter].
  - split.
    + intros [= <-]. exists c. auto.
    + intros [c1 [[= <-] <-]]. reflexivity.
  - destruct (step op c) as [c'|c'|e|q]; try apply IH.
    + split; [discriminate|intros [c1 [H _]]; discriminate].
    + split; [discriminate|intros [c1 [H _]]; discriminate].
Qed.

Lemma cursorAfter_app (ops1 ops2 : list ContentStreamOperation) :
  forall c c1,
    cursorAfter ops1 c = Some c1 ->
    cursorAfter (ops1 ++ ops2) c = cursorAfter ops2 c1.
Proof.
  induction ops1 as [|op ops1 IH]; intros c c1; cbn [app cursorAfter].
  - intros [= <-]. reflexivity.
  - destruct (step op c); try discriminate; apply IH.
Qed.

Lemma cursorAfter_app_inv (ops1 ops2 : list ContentStreamOperation) :
  forall c c2,
    cursorAfter (ops1 ++ ops2) c = Some c2 ->
    exists c1, cursorAfter ops1 c = Some c1 /\ cursorAfter ops2 c1 = Some c2.
Proof.
  induction ops1 as [|op ops1 IH]; intros c c2; cbn [app cursorAfter].
  - intros H. exists c. auto.
  - destruct (step op c); try discriminate; apply IH.
Qed.

Lemma cursorAfter_grows (ops : list ContentStreamOperation) :
  forall c c1,
    cursorAfter ops c = Some c1 -> exists s, txt c1 = (txt c ++ s)%string.
Proof.
  induction ops as [|op ops IH]; intros c c1; cbn [cursorAfter].
  - intros [= <-]. exists EmptyString. symmetry. apply append_nil_r.
  - pose proof (step_cases op c) as S.
    destruct (step op c) as [c'|c'|e|q]; try discriminate;
      intros H; apply IH in H as [s2 ->];
      destruct S as [[s1 [-> _]] _];
      exists (s1 ++ s2)%string; apply append_assoc.
Qed.

(** X6: the text is only ever extended.  When a stream and a longer
    stream with the same beginning both give a text, the first text is a
    prefix of the second. *)
Theorem runOperations_prefix (ops1 ops2 : list ContentStreamOperation)
  (c : cursor) (t1 t2 : string) :
  runOperations ops1 c = Returns (t1, None) ->
  runOperations (ops1 ++ ops2) c = Returns (t2, None) ->
  exists s, t2 = (t1 ++ s)%string.
Proof.
  intros H1 H2.
  apply cursorAfter_text in H1 as [c1 [A1 <-]].
  apply cursorAfter_text in H2 as [c2 [A2 <-]].
  rewrite (cursorAfter_app _ _ _ _ A1) in A2.
  apply (cursorAfter_grows ops2 c1 c2 A2).
Qed.

Lemma runOperations_prefix_witness :
  exists s, ("ab" ++ String tab "cd")%string = ("ab" ++ s)%string.
Proof.
  apply (runOperations_prefix
           [beginText;
            textMatrix (PdfObjectInteger 28) (PdfObjectInteger 700);
            showText "ab"]
           [textMatrix (PdfObjectInteger 200) (PdfObjectInteger 700);
            showText "cd"]
           initialCursor); vm_compute; reflexivity.
Defined.

Lemma runOperations_outside (ops : list ContentStreamOperation) :
  forall c t e,
    (forall op, In op ops -> Operand op <> "BT") ->
    inText c = false -> layoutOnly (txt c) = true ->
    runOperations ops c = Returns (t, e) ->
    e = None /\ layoutOnly t = true.
Proof.
  induction ops as [|op ops IH]; intros c t e N I L; cbn [runOperations].
  - intros [= <- <-]. auto.
  - assert (Nop : Operand op <> "BT") by (apply N; left; reflexivity).
    assert (Nops : forall o, In o ops -> Operand o <> "BT")
      by (intros o H; apply N; right; exact H).
    assert (Step : forall c', advances op c c' ->
                   inText c' = false /\ layoutOnly (txt c') = true).
    { intros c' [[s [E Ls]] [T _]]. split.
      - rewrite T. unfold nextInText.
        destruct (String.eqb_spec (Operand op) "BT"); [contradiction|].
        destruct (String.eqb (Operand op) "ET"); [reflexivity|exact I].
      - rewrite E, layoutOnly_app, L, (Ls I). reflexivity. }
    pose proof (step_cases op c) as S.
    destruct (step op c) as [c'|c'|e'|q].
    + destruct (Step c' S). apply IH; assumption.
    + destruct (Step c' S). apply IH; assumption.
    + destruct S as [S _]. congruence.
    + discriminate.
Qed.

(** X7: strings are drawn only inside a text block.  A stream without a
    [BT] operator gives no error, whatever the operands of its [TJ] and
    [Tj] operators, and its text holds tabs and newlines only. *)
Theorem extractText_without_text_block (parser : ContentStreamParser) :
  snd (Parse parser) = None ->
  (forall op, In op (fst (Parse parser)) -> Operand op <> "BT") ->
  forall r, extractText parser = Returns r ->
            snd r = None /\ layoutOnly (fst r) = true.
Proof.
  unfold extractText. destruct (Parse parser) as [ops [e'|]]; cbn [fst snd].
  - discriminate.
  - intros _ N [t e] H. cbn [fst snd].
    apply (runOperations_outside ops initialCursor); auto.
Qed.

Lemma extractText_without_text_block_witness :
  snd (String newline EmptyString, @None error) = None /\
  layoutOnly (fst (String newline EmptyString, @None error)) = true.
Proof.
  apply (extractText_without_text_block
           {| Parse :=
                ([showTJ [PdfObjectString "ab"]; showText "cd";
                  {| Params := []; Operand := "Td" |}], None) |}).
  - reflexivity.
  - cbn [Parse fst]. intros op I.
    repeat (destruct I as [<-|I]; [discriminate|]). contradiction.
  - vm_compute. reflexivity.
Defined.

(** ** Record parser: fields and tabs *)

Lemma Split_length (s : string) (sep : ascii) :
  List.length (Split s sep) = S (countByte sep s).
Proof.
  induction s as [|c s IH]; cbn [Split countByte]; [reflexivity|].
  destruct (Ascii.eqb c sep).
  - cbn [List.length]. rewrite IH. reflexivity.
  - destruct (Split s sep) as [|f fs]; [discriminate|exact IH].
Qed.

Lemma Split_fields (s : string) (sep : ascii) :
  Forall (fun field => countByte sep field = O) (Split s sep).
Proof.
  induction s as [|c s IH]; cbn [Split].
  - constructor; [reflexivity|constructor].
  - destruct (Ascii.eqb c sep) eqn:E.
    + constructor; [reflexivity|exact IH].
    + destruct (Split s sep) as [|f fs]; [constructor; [|constructor]|].
      * cbn [countByte]. rewrite E. reflexivity.
      * inversion IH as [|? ? Hf Hfs]; subst. constructor; [|exact Hfs].
        cbn [countByte]. rewrite E. exact Hf.
Qed.

(** X8: a record is its line, cut at the tabs and nothing else: the 8
    fields joined by tabs are the line again, and no field holds a tab. *)
Theorem parseLine_roundtrip (text : string) (parts : list string) :
  parseLine text = (parts, None) ->
  String.concat (String tab EmptyString) parts = text /\
  Forall (fun field => countByte tab field = O) parts /\
  countByte tab text = 7%nat.
Proof.
  intros H.
  destruct (parseLine_cases text) as
    [[_ E]|[[_ [_ E]]|[[_ [_ [_ E]]]|[_ [_ [L E]]]]]];
    rewrite E in H; try discriminate.
  injection H as <-. split; [apply Split_join|]. split; [apply Split_fields|].
  unfold len in L. rewrite Split_length in L. lia.
Qed.

Lemma parseLine_roundtrip_witness :
  String.concat (String tab EmptyString) (fieldsOf sampleRow) = sampleRow /\
  Forall (fun field => countByte tab field = O) (fieldsOf sampleRow) /\
  countByte tab sampleRow = 7%nat.
Proof. apply parseLine_roundtrip. reflexivity. Defined.

(** X9: a line with more than 7 tabs is never a sentinel: it is always
    the invalid-line error; a line with fewer than 7 tabs is the error
    unless its first field holds the disclaimer. *)
Theorem parseLine_tab_count (text : string) :
  ((7 < countByte tab text)%nat ->
   parseLine text = ([], Some (InvalidLine text))) /\
  ((countByte tab text < 7)%nat ->
   parseLine text =
   ([], Some (if Contains (index (Split text tab) 0) disclaimer
              then EOF else InvalidLine text))).
Proof.
  assert (L : len (Split text tab) = Z.of_nat (S (countByte tab text))).
  { unfold len. rewrite Split_length. reflexivity. }
  split; intros H.
  - destruct (parseLine_cases text) as
      [[[F _] _]|[[_ [[D _] _]]|[[_ [_ [_ E]]]|[_ [_ [F _]]]]]];
      try lia. exact E.
  - destruct (parseLine_cases text) as
      [[[F _] _]|[[_ [[_ D] E]]|[[_ [ND [_ E]]]|[_ [_ [F _]]]]]];
      try lia.
    + rewrite D. exact E.
    + destruct (Contains (index (Split text tab) 0) disclaimer) eqn:C;
        [|exact E].
      exfalso. apply ND. split; [lia|exact C].
Qed.

Lemma parseLine_tab_count_witness :
  parseLine "Total" = ([], Some (InvalidLine "Total")).
Proof.
  apply (proj2 (parseLine_tab_count "Total")). vm_compute. lia.
Defined.

(** ** Table assembler: which error, which account number *)

Lemma recordLine_error (text : string) (a : assembly)
  (continue : assembly -> pageEnd) (rest : list string) :
  (forall a1, endError (continue a1) =
              option_map InvalidLine (offending rest)) ->
  endError (recordLine text a continue) =
  option_map InvalidLine (offending (text :: rest)).
Proof.
  intros K. unfold recordLine. cbn [offending].
  destruct (parseLine_cases text) as
    [[_ E]|[[_ [_ E]]|[[_ [_ [_ E]]]|[_ [_ [_ E]]]]]]; rewrite E;
    cbn [snd isEOF endError option_map]; try reflexivity.
  apply K.
Qed.

Lemma laterPage_error (lines : list string) :
  forall line a,
    1 <= line ->
    endError (laterPage lines line a) =
    option_map InvalidLine (offending lines).
Proof.
  induction lines as [|text rest IH]; intros line a L; [reflexivity|].
  rewrite laterPage_record by assumption.
  apply recordLine_error. intros a1. apply IH. lia.
Qed.

Lemma firstPage_error_late (lines : list string) :
  forall line a,
    3 <= line ->
    endError (firstPage lines line a) =
    option_map InvalidLine (offending lines).
Proof.
  induction lines as [|text rest IH]; intros line a L; [reflexivity|].
  rewrite firstPage_record by assumption.
  apply recordLine_error. intros a1. apply IH. lia.
Qed.

Lemma firstPage_error (lines : list string) :
  forall line a,
    0 <= line ->
    endError (firstPage lines line a) =
    option_map InvalidLine (offending (skipn (Z.to_nat (3 - line)) lines)).
Proof.
  induction lines as [|text rest IH]; intros line a L.
  - rewrite skipn_nil. reflexivity.
  - destruct (Z_lt_le_dec line 3) as [M|M].
    + destruct (firstPage_metadata text rest line a) as [a1 [E _]]; [lia|].
      rewrite E, IH by lia.
      replace (Z.to_nat (3 - line)) with (S (Z.to_nat (3 - (line + 1))))
        by lia.
      reflexivity.
    + replace (Z.to_nat (3 - line)) with O by lia.
      apply firstPage_error_late. exact M.
Qed.

Lemma laterPage_error_0 (lines : list string) (a : assembly) :
  endError (laterPage lines 0 a) =
  option_map InvalidLine (offending (skipn 1 lines)).
Proof.
  destruct lines as [|text rest]; [reflexivity|].
  cbn [laterPage skipn]. change (0 =? 0) with true. cbv iota.
  apply laterPage_error. lia.
Qed.

Lemma pagesLoop_error (pages : list string) :
  forall i a,
    0 <= i ->
    endError (pagesLoop i pages a) =
    option_map InvalidLine (firstOffending i pages).
Proof.
  induction pages as [|page rest IH]; intros i a L; [reflexivity|].
  cbn [pagesLoop firstOffending]. unfold dataLines.
  destruct (Z.eqb_spec i 0) as [->|N].
  - pose proof (firstPage_error (scanLines page) 0 a ltac:(lia)) as E.
    change (Z.to_nat (3 - 0)) with 3%nat in E.
    destruct (firstPage (scanLines page) 0 a) as [a1|a1 e];
      cbn [endError] in E.
    + destruct (offending (skipn 3 (scanLines page))); [discriminate|].
      apply IH. lia.
    + cbn [endError]. rewrite E.
      destruct (offending (skipn 3 (scanLines page)));
        [reflexivity|discriminate].
  - pose proof (laterPage_error_0 (scanLines page) a) as E.
    destruct (laterPage (scanLines page) 0 a) as [a1|a1 e];
      cbn [endError] in E.
    + destruct (offending (skipn 1 (scanLines page))); [discriminate|].
      apply IH. lia.
    + cbn [endError]. rewrite E.
      destruct (offending (skipn 1 (scanLines page)));
        [reflexivity|discriminate].
Qed.

(** X10: the error of [getCSV] is the invalid-line error of the first
    data line, in document order, that is neither a record nor a
    sentinel after the records of its page; there is no other error, not
    [io.EOF] either, and no records come with it. *)
Theorem getCSV_error (pages : list string) :
  snd (fst (getCSV pages)) =
    option_map InvalidLine (firstOffending 0 pages) /\
  (snd (fst (getCSV pages)) <> None -> snd (fst (fst (getCSV pages))) = []).
Proof.
  unfold getCSV.
  pose proof (pagesLoop_error pages 0
                {| num := -1;
                   records := [copy (repeat EmptyString 8) recordHeader];
                   warnings := [] |} ltac:(lia)) as E.
  destruct (pagesLoop 0 pages _) as [a|a e]; cbn [endError] in E;
    cbn [fst snd]; split; try exact E.
  - intros H. contradiction.
  - reflexivity.
Qed.

Lemma getCSV_error_witness :
  snd (fst (getCSV brokenDocument)) = Some (InvalidLine "bad") /\
  snd (fst (fst (getCSV brokenDocument))) = [].
Proof.
  destruct (getCSV_error brokenDocument) as [E R]. split.
  - rewrite E. vm_compute. reflexivity.
  - apply R. rewrite E. vm_compute. discriminate.
Defined.

Lemma firstPage_num_short (lines : list string) (a : assembly) :
  (List.length lines < 2)%nat ->
  endNum (firstPage lines 0 a) = num a.
Proof.
  destruct lines as [|l0 [|l1 more]]; cbn [List.length]; try lia; intros _.
  - reflexivity.
  - destruct (firstPage_metadata l0 [] 0 a) as [a0 [E [_ N]]]; [lia|].
    rewrite E. cbn [firstPage endNum]. exact N.
Qed.

(** X11: the account number [getCSV] returns, with or without an error,
    depends on line 1 of the first page alone; without such a line it is
    -1. *)
Theorem getCSV_account_source (pages : list string) :
  accountOf (getCSV pages) =
  match pages with
  | [] => -1
  | page :: _ =>
      match scanLines page with
      | _ :: line1 :: _ => cardLine line1 (-1)
      | _ => -1
      end
  end.
Proof.
  destruct pages as [|page pages]; [reflexivity|].
  destruct (scanLines page) as [|l0 [|l1 more]] eqn:S;
    [| |apply (getCSV_num page pages l0 l1 more S)].
  - unfold getCSV. cbn [pagesLoop]. rewrite S. cbn [firstPage].
    pose proof (pagesLoop_num pages (0 + 1)
                  {| num := -1;
                     records := [copy (repeat EmptyString 8) recordHeader];
                     warnings := [] |} ltac:(lia)) as P.
    change (0 =? 0) with true. cbv iota.
    destruct (pagesLoop (0 + 1) pages _) as [a|a e]; exact P.
  - unfold getCSV. cbn [pagesLoop]. rewrite S.
    change (0 =? 0) with true. cbv iota.
    set (start := {| num := -1; records := _; warnings := _ |}).
    pose proof (firstPage_num_short [l0] start ltac:(simpl; lia)) as F.
    destruct (firstPage [l0] 0 start) as [a1|a1 e]; cbn [endNum] in F.
    + pose proof (pagesLoop_num pages (0 + 1) a1 ltac:(lia)) as P.
      destruct (pagesLoop (0 + 1) pages a1) as [a2|a2 e];
        cbn [endNum] in P; unfold accountOf; cbn [fst]; rewrite P; exact F.
    + unfold accountOf. cbn [fst]. exact F.
Qed.

(** X12: a line 1 that does not start with "CARD ", or that does not
    split at its spaces in exactly two tokens, leaves the account number
    at -1. *)
Theorem getCSV_card_rejected (page : string) (pages : list string)
  (l0 l1 : string) (more : list string) :
  scanLines page = l0 :: l1 :: more ->
  HasPrefix l1 "CARD " = false \/ countByte space l1 <> 1%nat ->
  accountOf (getCSV (page :: pages)) = -1.
Proof.
  intros Sc H. rewrite (getCSV_num _ _ _ _ _ Sc). unfold cardLine.
  destruct (HasPrefix l1 "CARD "); [|reflexivity]. cbn [negb].
  destruct H as [H|H]; [discriminate|].
  unfold len. rewrite Split_length.
  destruct (Z.eqb_spec (Z.of_nat (S (countByte space l1))) 2); [lia|].
  reflexivity.
Qed.

Lemma getCSV_card_rejected_witness :
  accountOf (getCSV [cardPage "CARD 12 34"]) = -1.
Proof.
  apply (getCSV_card_rejected (cardPage "CARD 12 34") []
           "TRANSACTION HISTORY FOR" "CARD 12 34"
           [headerPrefix; sampleRow]).
  - vm_compute. reflexivity.
  - right. vm_compute. discriminate.
Defined.

(** ** Page decoder and entry point *)

Section PageDecoder.

Variable ReadSeeker : Type.
Variable NewPdfReader : ReadSeeker -> PdfReader * option error.
Variable NewContentStreamParser : string -> ContentStreamParser.
Variable decoderString : string -> string * option error.
Variable trimSpace : string -> string.

Local Abbreviation page :=
  (extractPage NewContentStreamParser decoderString trimSpace).
Local Abbreviation loop :=
  (pageLoop NewContentStreamParser decoderString trimSpace).
Local Abbreviation extract :=
  (extractPDFText ReadSeeker NewPdfReader NewContentStreamParser
                  decoderString trimSpace).
Local Abbreviation parse :=
  (ParsePDF ReadSeeker NewPdfReader NewContentStreamParser
            decoderString trimSpace).

Lemma pageLoop_pages (pdfReader : PdfReader) (n : nat) :
  forall i done pages,
    loop pdfReader i n done = Returns (pages, None) ->
    exists texts,
      pages = done ++ texts /\ List.length texts = n /\
      forall k, (k < n)%nat ->
                page pdfReader (i + Z.of_nat k) =
                Returns (nth k texts EmptyString, None).
Proof.
  induction n as [|n IH]; intros i done pages; cbn [pageLoop].
  - intros [= <-]. exists []. rewrite app_nil_r.
    split; [reflexivity|]. split; [reflexivity|]. intros k H. lia.
  - destruct (page pdfReader i) as [[s [e|]]|p] eqn:E; cbn [bind];
      try discriminate.
    intros H. apply IH in H as [texts [-> [L K]]].
    exists (s :: texts). rewrite <- app_assoc.
    split; [reflexivity|]. split; [cbn [List.length]; lia|].
    intros [|k] Hk.
    + replace (i + Z.of_nat 0) with i by lia. exact E.
    + replace (i + Z.of_nat (S k)) with (i + 1 + Z.of_nat k) by lia.
      apply K. lia.
Qed.

Lemma pageLoop_error (pdfReader : PdfReader) (n : nat) :
  forall i done pages e,
    loop pdfReader i n done = Returns (pages, Some e) ->
    pages = [] /\
    exists k, (k < n)%nat /\
      (exists t, page pdfReader (i + Z.of_nat k) = Returns (t, Some e)) /\
      forall j, (j < k)%nat ->
                exists s, page pdfReader (i + Z.of_nat j) = Returns (s, None).
Proof.
  induction n as [|n IH]; intros i done pages e; cbn [pageLoop].
  - discriminate.
  - destruct (page pdfReader i) as [[s [e'|]]|p] eqn:E; cbn [bind];
      try discriminate.
    + intros [= <- <-]. split; [reflexivity|]. exists O.
      split; [lia|]. split.
      * exists s. replace (i + Z.of_nat 0) with i by lia. exact E.
      * intros j H. lia.
    + intros H. apply IH in H as [-> [k [Hk [[t T] B]]]].
      split; [reflexivity|]. exists (S k). split; [lia|]. split.
      * exists t. replace (i + Z.of_nat (S k)) with (i + 1 + Z.of_nat k)
          by lia. exact T.
      * intros [|j] Hj.
        -- exists s. replace (i + Z.of_nat 0) with i by lia. exact E.
        -- replace (i + Z.of_nat (S j)) with (i + 1 + Z.of_nat j) by lia.
           apply B. lia.
Qed.

(** X15: when [extractPDFText] succeeds it returns one text per page of
    the document, the text of page [k] (counted from 1) at index
    [k - 1]. *)
Theorem extractPDFText_pages (r : ReadSeeker) (pages : list string) :
  extract r = Returns (pages, None) ->
  exists pdfReader numPages,
    NewPdfReader r = (pdfReader, None) /\
    GetNumPages pdfReader = (numPages, None) /\
    len pages = numPages /\
    forall k, 1 <= k <= numPages ->
              page pdfReader k =
              Returns (nth (Z.to_nat (k - 1)) pages EmptyString, None).
Proof.
  unfold extractPDFText.
  destruct (NewPdfReader r) as [pdfReader [e|]]; [discriminate|].
  destruct (GetNumPages pdfReader) as [numPages [e|]] eqn:G; [discriminate|].
  destruct (Z.ltb_spec numPages 0) as [N|N]; [discriminate|].
  intros H. apply pageLoop_pages in H as [texts [-> [L K]]].
  exists pdfReader, numPages. split; [reflexivity|]. split; [exact G|].
  cbn [app]. split; [unfold len; lia|].
  intros k Hk. specialize (K (Z.to_nat (k - 1)) ltac:(lia)).
  replace (1 + Z.of_nat (Z.to_nat (k - 1))) with k in K by lia. exact K.
Qed.

(** X16: an error of [extractPDFText] comes with no pages, and it is the
    error of opening the document, of counting its pages, or of the
    first page, in page order, that fails; the pages before that one are
    read, the pages after it are not. *)
Theorem extractPDFText_error (r : ReadSeeker) (pages : list string)
  (e : error) :
  extract r = Returns (pages, Some e) ->
  pages = [] /\
  (snd (NewPdfReader r) = Some e \/
   snd (GetNumPages (fst (NewPdfReader r))) = Some e \/
   exists k,
     1 <= k <= fst (GetNumPages (fst (NewPdfReader r))) /\
     (exists t, page (fst (NewPdfReader r)) k = Returns (t, Some e)) /\
     forall j, 1 <= j < k ->
               exists s, page (fst (NewPdfReader r)) j = Returns (s, None)).
Proof.
  unfold extractPDFText.
  destruct (NewPdfReader r) as [pdfReader [e'|]]; cbn [fst snd].
  { intros [= <- <-]. auto. }
  destruct (GetNumPages pdfReader) as [numPages [e'|]]; cbn [fst snd].
  { intros [= <- <-]. auto. }
  destruct (Z.ltb_spec numPages 0) as [N|N]; [discriminate|].
  intros H. apply pageLoop_error in H as [-> [k [Hk [[t T] B]]]].
  split; [reflexivity|]. right. right. exists (1 + Z.of_nat k).
  split; [lia|]. split; [exists t; exact T|].
  intros j Hj. specialize (B (Z.to_nat (j - 1)) ltac:(lia)).
  replace (1 + Z.of_nat (Z.to_nat (j - 1))) with j in B by lia. exact B.
Qed.

(** X17: what the comment of [ParsePDF] promises: when it succeeds, the
    first row is the header and each row has 8 columns; the rows and the
    account number are those of [getCSV] on the texts of the pages. *)
Theorem ParsePDF_rows (r : ReadSeeker) (data : TransactionData)
  (log : list warning) :
  parse r = Returns (data, None, log) ->
  (exists pages,
     extract r = Returns (pages, None) /\
     getCSV pages =
       (AccountNumber data, Transactions data, None, log) /\
     Transactions data = recordHeader :: tableRows 0 pages) /\
  Forall (fun row => len row = 8) (Transactions data).
Proof.
  unfold ParsePDF.
  destruct (extractPDFText _ _ _ _ _ r) as [[pages [e|]]|p]; cbn [bind];
    try discriminate.
  destruct (getCSV pages) as [[[n table] [e|]] lg] eqn:G; try discriminate.
  intros [= <- <-]. cbn [AccountNumber Transactions].
  assert (T : table = recordHeader :: tableRows 0 pages).
  { unfold getCSV in G.
    destruct (pagesLoop 0 pages _) as [a|a e] eqn:P; [|discriminate].
    injection G as _ <- _. apply pagesLoop_rows in P; [|lia]. exact P. }
  split.
  - exists pages. auto.
  - rewrite T. constructor; [reflexivity|apply tableRows_fields].
Qed.

End PageDecoder.

Lemma extractPDFText_pages_witness :
  exists pdfReader numPages,
    streamsReader ["ab"; "cd"] = (pdfReader, None) /\
    GetNumPages pdfReader = (numPages, None) /\
    len [line "ab"; line "cd"] = numPages /\
    forall k, 1 <= k <= numPages ->
              extractPage drawingParser keepText noTrim pdfReader k =
              Returns (nth (Z.to_nat (k - 1)) [line "ab"; line "cd"]
                           EmptyString, None).
Proof.
  apply (extractPDFText_pages (list string) streamsReader drawingParser
           keepText noTrim ["ab"; "cd"]).
  vm_compute. reflexivity.
Defined.

Lemma extractPDFText_error_witness :
  @nil string = [] /\
  (snd (streamsReader ["ab"; "cd"; "ef"]) = Some (LibraryError "decode") \/
   snd (GetNumPages (fst (streamsReader ["ab"; "cd"; "ef"]))) =
     Some (LibraryError "decode") \/
   exists k,
     1 <= k <= fst (GetNumPages (fst (streamsReader ["ab"; "cd"; "ef"]))) /\
     (exists t,
        extractPage drawingParser (failingDecoder (line "cd")) noTrim
                    (fst (streamsReader ["ab"; "cd"; "ef"])) k =
        Returns (t, Some (LibraryError "decode"))) /\
     forall j, 1 <= j < k ->
               exists s,
                 extractPage drawingParser (failingDecoder (line "cd")) noTrim
                             (fst (streamsReader ["ab"; "cd"; "ef"])) j =
                 Returns (s, None)).
Proof.
  apply (extractPDFText_error (list string) streamsReader drawingParser
           (failingDecoder (line "cd")) noTrim ["ab"; "cd"; "ef"]).
  vm_compute. reflexivity.
Defined.

Lemma ParsePDF_rows_witness :
  Forall (fun row => len row = 8) [recordHeader; fieldsOf sampleRow].
Proof.
  apply (proj2 (ParsePDF_rows (list string) streamsReader drawingParser
                  keepText noTrim [titlePage sampleRow]
                  {| AccountNumber := 1234567890;
                     Transactions := [recordHeader; fieldsOf sampleRow] |}
                  [] ltac:(vm_compute; reflexivity))).
Defined.

(** ** Hidden form fields *)

Lemma carries_eq (field : string) (tok : html.Token) :
  carries field tok =
  isSelfClosing tok && String.eqb (html.Data tok) "input"
  && hasAttribute "name" field tok
  && match valueOf tok with Some _ => true | None => false end.
Proof. reflexivity. Qed.

Lemma findInputValue_first (field notFound : string) (z : html.Tokenizer) :
  findInputValue field notFound z =
  match find (carries field) (liveTokens z) with
  | Some tok =>
      match valueOf tok with
      | Some v => (v, None)
      | None => (EmptyString, Some (ErrorsNew notFound))
      end
  | None => (EmptyString, Some (ErrorsNew notFound))
  end.
Proof.
  induction z as [|tok rest IH]; cbn [findInputValue liveTokens];
    [reflexivity|].
  destruct (html.Type_ tok) eqn:T; try reflexivity;
    cbn [find]; rewrite carries_eq; unfold isSelfClosing; rewrite T;
    cbn [andb]; try exact IH.
  destruct (String.eqb (html.Data tok) "input"); cbn [negb andb];
    [|exact IH].
  unfold hasAttribute.
  destruct (existsb _ (html.Attr tok)); cbn [negb andb]; [|exact IH].
  pose proof (eq_refl : valueOf tok =
                option_map html.Val
                  (find (fun a => String.eqb (html.Key a) "value")
                        (html.Attr tok))) as V.
  destruct (find _ (html.Attr tok)) as [a|]; cbn [option_map] in V;
    rewrite V; cbv iota; rewrite ?V; [reflexivity|exact IH].
Qed.

Lemma find_carries_value (field : string) (l : list html.Token)
  (tok : html.Token) :
  find (carries field) l = Some tok -> exists v, valueOf tok = Some v.
Proof.
  intros H. apply find_some in H as [_ C]. unfold carries in C.
  destruct (valueOf tok) as [v|]; [exists v; reflexivity|].
  rewrite andb_false_r in C. discriminate.
Qed.

(** X18: [findCSRFToken] returns the value of the first self-closing
    [input] tag, in document order, that has an attribute [name] equal to
    "_csrf" and an attribute [value], wherever these stand among the
    attributes of the tag; without such a tag it returns the empty string
    and the not-found error. *)
Theorem findCSRFToken_first (z : html.Tokenizer) :
  (forall v, findCSRFToken z = (v, None) <->
             exists tok, find (carries "_csrf") (liveTokens z) = Some tok /\
                         valueOf tok = Some v) /\
  (find (carries "_csrf") (liveTokens z) = None <->
   findCSRFToken z = (EmptyString, Some (ErrorsNew "CSRF token not found"))) /\
  (forall v e, findCSRFToken z = (v, Some e) ->
               v = EmptyString /\ e = ErrorsNew "CSRF token not found").
Proof.
  unfold findCSRFToken. rewrite findInputValue_first.
  destruct (find (carries "_csrf") (liveTokens z)) as [tok|] eqn:F.
  - destruct (find_carries_value _ _ _ F) as [v V]. rewrite V.
    split; [|split].
    + intros v'. split.
      * intros [= <-]. exists tok. auto.
      * intros [tok' [[= <-] V']]. congruence.
    + split; discriminate.
    + discriminate.
  - split; [|split].
    + intros v. split; [discriminate|intros [tok [H _]]; discriminate].
    + split; reflexivity.
    + intros v e [= <- <-]. auto.
Qed.

(** X19: the same for [findViewState] and the field
    "javax.faces.ViewState". *)
Theorem findViewState_first (z : html.Tokenizer) :
  (forall v, findViewState z = (v, None) <->
             exists tok,
               find (carries "javax.faces.ViewState") (liveTokens z) =
                 Some tok /\
               valueOf tok = Some v) /\
  (find (carries "javax.faces.ViewState") (liveTokens z) = None <->
   findViewState z = (EmptyString, Some (ErrorsNew "ViewState not found"))) /\
  (forall v e, findViewState z = (v, Some e) ->
               v = EmptyString /\ e = ErrorsNew "ViewState not found").
Proof.
  unfold findViewState. rewrite findInputValue_first.
  destruct (find (carries "javax.faces.ViewState") (liveTokens z))
    as [tok|] eqn:F.
  - destruct (find_carries_value _ _ _ F) as [v V]. rewrite V.
    split; [|split].
    + intros v'. split.
      * intros [= <-]. exists tok. auto.
      * intros [tok' [[= <-] V']]. congruence.
    + split; discriminate.
    + discriminate.
  - split; [|split].
    + intros v. split; [discriminate|intros [tok [H _]]; discriminate].
    + split; reflexivity.
    + intros v e [= <- <-]. auto.
Qed.

Lemma findInputValue_filter (field notFound : string) (z : html.Tokenizer) :
  findInputValue field notFound (filter selfClosingOrError z) =
  findInputValue field notFound z.
Proof.
  induction z as [|tok rest IH]; [reflexivity|].
  cbn [filter]. unfold selfClosingOrError at 1.
  destruct (html.Type_ tok) eqn:T;
    first [ rewrite IH; cbn [findInputValue]; rewrite T; reflexivity
          | cbn [findInputValue]; rewrite T, IH; reflexivity
          | cbn [findInputValue]; rewrite T; reflexivity ].
Qed.

(** X20: only self-closing tags count.  Tokens of any other kind, an
    [input] start tag that is not self-closing among them, can be taken
    out of the document without changing what [findCSRFToken] and
    [findViewState] return. *)
Theorem findCSRFToken_self_closing_only (z : html.Tokenizer) :
  findCSRFToken (filter selfClosingOrError z) = findCSRFToken z /\
  findViewState (filter selfClosingOrError z) = findViewState z /\
  ((forall tok, In tok z -> isSelfClosing tok = false) ->
   snd (findCSRFToken z) = Some (ErrorsNew "CSRF token not found")).
Proof.
  split; [apply findInputValue_filter|].
  split; [apply findInputValue_filter|].
  intros H. unfold findCSRFToken.
  induction z as [|tok rest IH]; [reflexivity|].
  cbn [findInputValue].
  assert (S : isSelfClosing tok = false) by (apply H; left; reflexivity).
  unfold isSelfClosing in S.
  destruct (html.Type_ tok); try discriminate; try reflexivity;
    apply IH; intros t I; apply H; right; exact I.
Qed.

Lemma findCSRFToken_first_witness :
  findCSRFToken loginForm = ("tok", None).
Proof.
  apply (proj1 (findCSRFToken_first loginForm)).
  eexists. split; reflexivity.
Defined.

Lemma findViewState_first_witness :
  findViewState loginForm = ("state", None).
Proof.
  apply (proj1 (findViewState_first loginForm)).
  eexists. split; reflexivity.
Defined.

Lemma findCSRFToken_self_closing_only_witness :
  snd (findCSRFToken
         [inputStartTag [attribute "name" "_csrf"; attribute "value" "no"]]) =
  Some (ErrorsNew "CSRF token not found").
Proof.
  apply (proj2 (proj2 (findCSRFToken_self_closing_only _))).
  intros tok [<-|[]]. reflexivity.
Defined.

(** ** Numbers in decimal *)

Lemma digit_digitChar (d : nat) :
  (d < 10)%nat -> digit (digitChar d) = Some (Z.of_nat d).
Proof.
  intros H. do 10 (destruct d as [|d]; [reflexivity|]). lia.
Qed.

Lemma valueFrom_ge (ds : list nat) :
  forall acc, 0 <= acc -> acc <= valueFrom acc ds.
Proof.
  induction ds as [|d ds IH]; intros acc H; cbn [valueFrom]; [lia|].
  specialize (IH (acc * 10 + Z.of_nat d) ltac:(lia)). lia.
Qed.

Lemma parseUintLoop_digits (ds : list nat) :
  forall acc,
    Forall (fun d => (d < 10)%nat) ds -> 0 <= acc ->
    valueFrom acc ds <= maxUint64 ->
    parseUintLoop (digitString ds) acc = (valueFrom acc ds, None).
Proof.
  induction ds as [|d ds IH]; intros acc F A M;
    cbn [digitString parseUintLoop valueFrom]; [reflexivity|].
  inversion F as [|? ? Hd Hds]; subst.
  rewrite (digit_digitChar d Hd).
  cbn [valueFrom] in M.
  pose proof (valueFrom_ge ds (acc * 10 + Z.of_nat d) ltac:(lia)) as G.
  change (maxUint64 / 10 + 1) with 1844674407370955162.
  change maxUint64 with 18446744073709551615 in *.
  destruct (Z.leb_spec 1844674407370955162 acc); [lia|].
  destruct (Z.ltb_spec 18446744073709551615 (acc * 10 + Z.of_nat d)); [lia|].
  apply IH; [exact Hds|lia|exact M].
Qed.

(** [strconv.ParseInt] reads a string of decimal digits as its number,
    when that number fits 63 bits. *)
Lemma ParseInt_digits (ds : list nat) :
  isDigits ds -> value ds < 2 ^ 63 ->
  ParseInt (digitString ds) = (value ds, None).
Proof.
  intros [N F] V. destruct ds as [|d ds]; [contradiction|].
  assert (P : parseUintLoop (digitString (d :: ds)) 0 =
              (value (d :: ds), None)).
  { apply parseUintLoop_digits; [exact F|lia|].
    unfold value in V. change maxUint64 with 18446744073709551615.
    change (2 ^ 63) with 9223372036854775808 in V. lia. }
  inversion F as [|? ? Hd Hds]; subst.
  assert (G : 0 <= value (d :: ds)).
  { unfold value. pose proof (valueFrom_ge (d :: ds) 0 ltac:(lia)). lia. }
  unfold ParseInt. cbn [digitString] in *.
  assert (S1 : Ascii.eqb (digitChar d) "+"%char = false).
  { do 10 (destruct d as [|d]; [reflexivity|]). lia. }
  assert (S2 : Ascii.eqb (digitChar d) "-"%char = false).
  { do 10 (destruct d as [|d]; [reflexivity|]). lia. }
  rewrite S1, S2. unfold ParseUint. rewrite P.
  cbn [negb andb].
  destruct (Z.leb_spec (2 ^ 63) (value (d :: ds))); [lia|]. reflexivity.
Qed.

(** The result of [strconv.ParseInt] without an error fits [int64]. *)
Lemma parseUintLoop_range (s : string) :
  forall acc n e,
    0 <= acc -> parseUintLoop s acc = (n, e) -> 0 <= n.
Proof.
  induction s as [|c s IH]; intros acc n e A; cbn [parseUintLoop].
  - intros [= <- _]. exact A.
  - destruct (digit c) as [d|] eqn:D; [|intros [= <- _]; lia].
    assert (0 <= d).
    { unfold digit in D.
      destruct ((48 <=? Z.of_nat (nat_of_ascii c))
                && (Z.of_nat (nat_of_ascii c) <=? 57)) eqn:B;
        [|discriminate].
      injection D as <-. apply andb_true_iff in B as [B _].
      apply Z.leb_le in B. lia. }
    destruct (maxUint64 / 10 + 1 <=? acc); [intros [= <- _]; vm_compute; discriminate|].
    destruct (maxUint64 <? acc * 10 + d); [intros [= <- _]; vm_compute; discriminate|].
    apply IH. lia.
Qed.

Lemma parseUintLoop_overflow (s : string) :
  forall acc n, parseUintLoop s acc = (n, Some ErrRange) -> n = maxUint64.
Proof.
  induction s as [|c s IH]; intros acc n; cbn [parseUintLoop].
  - intros [=].
  - destruct (digit c) as [d|]; [|intros [=]].
    destruct (maxUint64 / 10 + 1 <=? acc); [intros [= <-]; reflexivity|].
    destruct (maxUint64 <? acc * 10 + d); [intros [= <-]; reflexivity|].
    apply IH.
Qed.

Lemma ParseInt_range (s : string) (n : Z) :
  ParseInt s = (n, None) -> - 2 ^ 63 <= n < 2 ^ 63.
Proof.
  unfold ParseInt. destruct s as [|c rest]; [discriminate|].
  destruct (if Ascii.eqb c "+"%char then (false, rest)
            else if Ascii.eqb c "-"%char then (true, rest)
                 else (false, String c rest)) as [neg digits].
  destruct (ParseUint digits) as [un [[|]|]] eqn:U; try (intros [=]; fail).
  - assert (un = maxUint64).
    { unfold ParseUint in U. destruct digits; [discriminate|].
      apply (parseUintLoop_overflow _ 0 un U). }
    subst un. destruct neg; intros [=].
  - assert (0 <= un).
    { unfold ParseUint in U. destruct digits; [discriminate|].
      eapply (parseUintLoop_range _ 0 un None); [lia|exact U]. }
    destruct neg; cbn [negb andb].
    + destruct (Z.ltb_spec (2 ^ 63) un); [intros [=]|].
      intros [= <-]. lia.
    + destruct (Z.leb_spec (2 ^ 63) un); [intros [=]|].
      intros [= <-]. lia.
Qed.

Lemma Split_none (s : string) (sep : ascii) :
  countByte sep s = O -> Split s sep = [s].
Proof.
  induction s as [|c s IH]; cbn [countByte Split]; [reflexivity|].
  destruct (Ascii.eqb c sep); [discriminate|].
  intros H. rewrite (IH H). reflexivity.
Qed.

Lemma digitString_no (c : ascii) (ds : list nat) :
  Forall (fun d => (d < 10)%nat) ds ->
  (byte c < 48 \/ 57 < byte c) ->
  countByte c (digitString ds) = O.
Proof.
  intros F C. induction F as [|d ds Hd Hds IH];
    cbn [digitString countByte]; [reflexivity|].
  destruct (Ascii.eqb_spec (digitChar d) c) as [E|E]; [|exact IH].
  exfalso. subst c. unfold byte in C.
  do 10 (destruct d as [|d]; [vm_compute in C; destruct C as [C|C]; discriminate C|]).
  lia.
Qed.

(** X13: a line 1 made of "CARD " and decimal digits gives the number the
    digits write as the account number, leading zeros or not, as long
    as it fits 63 bits. *)
Theorem getCSV_card_digits (page : string) (pages : list string)
  (l0 : string) (more : list string) (ds : list nat) :
  scanLines page = l0 :: ("CARD " ++ digitString ds)%string :: more ->
  isDigits ds -> value ds < 2 ^ 63 ->
  accountOf (getCSV (page :: pages)) = value ds.
Proof.
  intros S D V. rewrite (getCSV_num _ _ _ _ _ S). unfold cardLine.
  assert (P : HasPrefix ("CARD " ++ digitString ds) "CARD " = true).
  { apply prefix_app. exists (digitString ds). reflexivity. }
  assert (Sp : Split ("CARD " ++ digitString ds) space =
               ["CARD"; digitString ds]).
  { cbn [String.append Split]. cbn.
    rewrite (Split_none (digitString ds) space); [reflexivity|].
    apply digitString_no; [apply D|]. left. vm_compute. reflexivity. }
  rewrite P, Sp. cbn [negb len List.length index nth].
  change (Z.of_nat 2 =? 2) with true. cbn [negb].
  rewrite (ParseInt_digits ds D V). reflexivity.
Qed.

Lemma getCSV_card_digits_witness :
  accountOf (getCSV [cardPage "CARD 0012345678"]) = 12345678.
Proof.
  apply (getCSV_card_digits (cardPage "CARD 0012345678") []
           "TRANSACTION HISTORY FOR" [headerPrefix; sampleRow]
           [0; 0; 1; 2; 3; 4; 5; 6; 7; 8]%nat).
  - vm_compute. reflexivity.
  - split; [discriminate|]. repeat constructor.
  - vm_compute. reflexivity.
Defined.

(** ** Splitting and trimming *)

Lemma SplitOn_nonempty (sep : string) (s : string) :
  forall skip, SplitOn sep skip s <> [].
Proof.
  induction s as [|c s IH]; intros skip; cbn [SplitOn]; [discriminate|].
  destruct skip; [|apply IH].
  destruct (String.prefix sep (String c s)); [discriminate|].
  destruct (SplitOn sep 0 s); discriminate.
Qed.

(** With a separator of one byte, [SplitOn] is [Split]. *)
Lemma SplitOn_byte (c : ascii) (s : string) :
  SplitOn (String c EmptyString) 0 s = Split s c.
Proof.
  induction s as [|d s IH]; cbn [SplitOn Split]; [reflexivity|].
  cbn [String.prefix String.length Nat.sub].
  rewrite IH. destruct (Ascii.ascii_dec c d) as [->|N].
  - rewrite Ascii.eqb_refl. destruct s; reflexivity.
  - destruct (Ascii.eqb_spec d c) as [E|E]; [congruence|]. reflexivity.
Qed.

Lemma SplitOn_skip (sep a b : string) :
  SplitOn sep (String.length a) (a ++ b) = SplitOn sep 0 b.
Proof.
  induction a as [|c a IH]; cbn [String.length String.append].
  - reflexivity.
  - cbn [SplitOn]. exact IH.
Qed.

(** Without an occurrence of the separator there is one piece. *)
Lemma SplitOn_none (sep s : string) :
  Contains s sep = false -> SplitOn sep 0 s = [s].
Proof.
  induction s as [|c s IH]; cbn [Contains SplitOn]; [reflexivity|].
  intros H. apply orb_false_iff in H as [P C].
  rewrite P, (IH C). reflexivity.
Qed.

(** A piece without the first byte of the separator ends at the first
    occurrence after it. *)
Lemma SplitOn_head (c0 : ascii) (sep' sep a b : string) :
  sep = String c0 sep' -> countByte c0 a = O ->
  SplitOn sep 0 (a ++ sep ++ b) = a :: SplitOn sep 0 b.
Proof.
  intros E H. induction a as [|c a IH]; cbn [String.append].
  - subst sep.
    assert (P : String.prefix (String c0 sep') (String c0 (sep' ++ b)) = true).
    { apply prefix_app. exists b. reflexivity. }
    cbn [String.append]. cbn [SplitOn]. rewrite P.
    cbn [String.length Nat.sub].
    rewrite Nat.sub_0_r, SplitOn_skip. reflexivity.
  - cbn [countByte] in H. destruct (Ascii.eqb_spec c c0) as [E'|E'];
      [discriminate|].
    cbn [SplitOn].
    assert (P : String.prefix sep (String c (a ++ sep ++ b)) = false).
    { rewrite E. cbn [String.prefix].
      destruct (Ascii.ascii_dec c0 c); congruence. }
    rewrite P, (IH H). reflexivity.
Qed.

Lemma reverseOnto_app (s acc : string) :
  reverseOnto s acc = (reverseOnto s EmptyString ++ acc)%string.
Proof.
  revert acc. induction s as [|c s IH]; intros acc; cbn [reverseOnto].
  - reflexivity.
  - rewrite IH, (IH (String c EmptyString)), append_assoc. reflexivity.
Qed.

Lemma reverse_app (a b : string) :
  reverse (a ++ b) = (reverse b ++ reverse a)%string.
Proof.
  unfold reverse. induction a as [|c a IH]; cbn [String.append reverseOnto].
  - symmetry. apply append_nil_r.
  - rewrite reverseOnto_app, IH, (reverseOnto_app a (String c EmptyString)).
    apply append_assoc.
Qed.

Lemma reverse_involutive (s : string) : reverse (reverse s) = s.
Proof.
  induction s as [|c s IH]; [reflexivity|].
  change (String c s) with (String c EmptyString ++ s)%string.
  rewrite reverse_app, reverse_app, IH. reflexivity.
Qed.

Lemma trimLeft_solid (c : ascii) (s : string) :
  solid c -> trimLeft (String c s) = String c s.
Proof.
  intros [A S]. cbn [trimLeft]. rewrite S.
  assert (S2 : forall b, space2 c b = false).
  { intros b. unfold space2. destruct (Z.eqb_spec (byte c) 194); [lia|].
    reflexivity. }
  assert (S3 : forall b d, space3 c b d = false).
  { intros b d. unfold space3.
    destruct (Z.eqb_spec (byte c) 225); [lia|].
    destruct (Z.eqb_spec (byte c) 226); [lia|].
    destruct (Z.eqb_spec (byte c) 227); [lia|]. reflexivity. }
  destruct s as [|b [|d s]]; rewrite ?S2, ?S3; reflexivity.
Qed.

Lemma trimLeftReversed_solid (c : ascii) (s : string) :
  solid c -> trimLeftReversed (String c s) = String c s.
Proof.
  intros [A S]. cbn [trimLeftReversed]. rewrite S.
  assert (S2 : forall b, space2 b c = false).
  { intros b. unfold space2.
    destruct (Z.eqb_spec (byte c) 133); [lia|].
    destruct (Z.eqb_spec (byte c) 160); [lia|].
    rewrite andb_false_r. reflexivity. }
  assert (S3 : forall b d, space3 d b c = false).
  { intros b d. unfold space3.
    destruct (Z.eqb_spec (byte c) 128); [lia|].
    destruct (Z.leb_spec 128 (byte c)); [lia|].
    destruct (Z.eqb_spec (byte c) 168); [lia|].
    destruct (Z.eqb_spec (byte c) 169); [lia|].
    destruct (Z.eqb_spec (byte c) 175); [lia|].
    destruct (Z.eqb_spec (byte c) 159); [lia|].
    cbn [andb orb]. rewrite !andb_false_r. reflexivity. }
  destruct s as [|b [|d s]]; rewrite ?S2, ?S3; reflexivity.
Qed.

(** [strings.TrimSpace] leaves a text alone that begins and ends with
    ASCII bytes that are no white space. *)
Lemma TrimSpace_solid (first last : ascii) (middle : string) :
  solid first -> solid last ->
  TrimSpace (String first (middle ++ String last EmptyString)) =
  String first (middle ++ String last EmptyString).
Proof.
  intros F L. unfold TrimSpace. rewrite (trimLeft_solid _ _ F).
  change (String first (middle ++ String last EmptyString))
    with ((String first middle) ++ String last EmptyString)%string.
  rewrite reverse_app.
  change (reverse (String last EmptyString)) with (String last EmptyString).
  cbn [String.append]. rewrite (trimLeftReversed_solid _ _ L).
  change (String last (reverse (String first middle)))
    with (reverse (String last EmptyString) ++ reverse (String first middle))%string.
  rewrite <- reverse_app. apply reverse_involutive.
Qed.

Lemma concat_cons (sep c f : _) (fs : list string) :
  String.concat sep (String c f :: fs) =
  String c (String.concat sep (f :: fs)).
Proof. destruct fs; reflexivity. Qed.

Lemma length_append (a b : string) :
  String.length (a ++ b) = (String.length a + String.length b)%nat.
Proof. induction a as [|c a IH]; cbn; congruence. Qed.

(** The pieces of [SplitOn], joined by the separator, are the text. *)
Lemma SplitOn_join (c0 : ascii) (sep' : string) (n : nat) :
  forall s,
    (String.length s <= n)%nat ->
    String.concat (String c0 sep') (SplitOn (String c0 sep') 0 s) = s.
Proof.
  induction n as [|n IH]; intros s L.
  - destruct s; [reflexivity|cbn [String.length] in L; lia].
  - destruct s as [|c rest]; [reflexivity|]. cbn [String.length] in L.
    cbn [SplitOn].
    destruct (String.prefix (String c0 sep') (String c rest)) eqn:P.
    + apply prefix_app in P as [b E]. cbn [String.append] in E.
      injection E as -> ->. cbn [String.length Nat.sub].
      rewrite Nat.sub_0_r, SplitOn_skip.
      pose proof (SplitOn_nonempty (String c0 sep') b 0) as NE.
      assert (Lb : (String.length b <= n)%nat).
      { rewrite length_append in L. lia. }
      specialize (IH b Lb).
      destruct (SplitOn (String c0 sep') 0 b) as [|f fs]; [congruence|].
      change (String.concat (String c0 sep') (EmptyString :: f :: fs))
        with (EmptyString ++ String c0 sep' ++
              String.concat (String c0 sep') (f :: fs))%string.
      rewrite IH. reflexivity.
    + pose proof (SplitOn_nonempty (String c0 sep') rest 0) as NE.
      specialize (IH rest ltac:(lia)).
      destruct (SplitOn (String c0 sep') 0 rest) as [|f fs]; [congruence|].
      rewrite concat_cons, IH. reflexivity.
Qed.

Lemma digitString_solid (d : nat) : (d < 10)%nat -> solid (digitChar d).
Proof.
  intros H. do 10 (destruct d as [|d]; [split; reflexivity|]). lia.
Qed.

Lemma digitString_app (a b : list nat) :
  digitString (a ++ b) = (digitString a ++ digitString b)%string.
Proof. induction a as [|d a IH]; cbn; congruence. Qed.

Lemma digitString_length (ds : list nat) :
  String.length (digitString ds) = List.length ds.
Proof. induction ds as [|d ds IH]; cbn; congruence. Qed.

Lemma TrimSpace_digits (ds : list nat) :
  Forall (fun d => (d < 10)%nat) ds ->
  TrimSpace (digitString ds) = digitString ds.
Proof.
  intros F. destruct ds as [|d [|d' ds']]; [reflexivity| |];
    inversion F as [|? ? Hd Hds]; subst.
  - cbn [digitString]. unfold TrimSpace.
    rewrite (trimLeft_solid _ _ (digitString_solid d Hd)).
    unfold reverse at 2. cbn [reverseOnto].
    rewrite (trimLeftReversed_solid _ _ (digitString_solid d Hd)).
    reflexivity.
  - destruct (exists_last (l := d' :: ds') ltac:(discriminate))
      as [m [z Z]].
    rewrite Z. cbn [digitString]. rewrite digitString_app.
    cbn [digitString].
    apply TrimSpace_solid; [apply digitString_solid, Hd|].
    apply digitString_solid.
    assert (I : In z (d' :: ds')) by (rewrite Z; apply in_elt).
    rewrite Forall_forall in Hds. apply Hds, I.
Qed.

(** X21: what [parseCardText] accepts.  A card comes from a text with
    exactly one separator " - " in it: the trimmed text before it reads as
    a number of [int64] and has 10 bytes or more, the trimmed text after
    it is the name, and the card is active and of type adult.  A text
    without the separator gives no card. *)
Theorem parseCardText_card (text : string) :
  (forall card,
     parseCardText text = Some card ->
     exists number name,
       text = (number ++ " - " ++ name)%string /\
       SplitOn " - " 0 text = [number; name] /\
       ParseInt (TrimSpace number) = (SerialNumber card, None) /\
       (10 <= String.length (TrimSpace number))%nat /\
       - 2 ^ 63 <= SerialNumber card < 2 ^ 63 /\
       card = activeCard (SerialNumber card) (TrimSpace name)) /\
  (Contains text " - " = false -> parseCardText text = None).
Proof.
  split.
  - intros card. unfold parseCardText.
    pose proof (SplitOn_join " "%char "- " (String.length text) text
                  ltac:(lia)) as J.
    destruct (SplitOn " - " 0 text) as [|number [|name [|x xs]]];
      try (intros H; discriminate H).
    2:{ unfold len. cbn [List.length].
        destruct (Z.eqb_spec (Z.of_nat (S (S (S (List.length xs))))) 2);
          [lia|]. intros H. discriminate H. }
    cbn [len List.length index nth]. change (Z.of_nat 2 =? 2) with true.
    cbn [negb].
    destruct (ParseInt (TrimSpace number)) as [n [e|]] eqn:P;
      [intros H; discriminate H|].
    destruct (Z.ltb_spec (Z.of_nat (String.length (TrimSpace number))) 10)
      as [L|L]; [intros H; discriminate H|].
    intros [= <-]. cbn [SerialNumber].
    exists number, name. cbn [String.concat] in J.
    split; [symmetry; exact J|]. split; [reflexivity|].
    split; [exact P|]. split; [lia|].
    split; [apply (ParseInt_range _ _ P)|reflexivity].
  - intros C. unfold parseCardText. rewrite (SplitOn_none _ _ C).
    reflexivity.
Qed.

Lemma parseCardText_card_witness :
  exists number name,
    "1401491737 - Guest" = (number ++ " - " ++ name)%string /\
    SplitOn " - " 0 "1401491737 - Guest" = [number; name] /\
    ParseInt (TrimSpace number) = (1401491737, None) /\
    (10 <= String.length (TrimSpace number))%nat /\
    - 2 ^ 63 <= 1401491737 < 2 ^ 63 /\
    activeCard 1401491737 "Guest" = activeCard 1401491737 (TrimSpace name).
Proof.
  apply (proj1 (parseCardText_card "1401491737 - Guest")
           (activeCard 1401491737 "Guest")).
  vm_compute. reflexivity.
Defined.

Lemma parseCardText_entry (entry : list nat * string) :
  validEntry entry ->
  parseCardText (digitString (fst entry) ++ " - " ++ snd entry) =
  Some (cardOf entry).
Proof.
  destruct entry as [ds name]. unfold validEntry. cbn [fst snd].
  intros [F [L [V C]]]. unfold parseCardText, cardOf. cbn [fst snd].
  rewrite (SplitOn_head " "%char "- " " - " (digitString ds) name eq_refl).
  2:{ apply digitString_no; [exact F|]. left. vm_compute. reflexivity. }
  rewrite (SplitOn_none _ _ C).
  cbn [len List.length index nth]. change (Z.of_nat 2 =? 2) with true.
  cbn [negb]. rewrite (TrimSpace_digits ds F).
  assert (D : isDigits ds).
  { split; [|exact F]. destruct ds; [cbn in L; lia|discriminate]. }
  rewrite (ParseInt_digits ds D V), digitString_length.
  destruct (Z.ltb_spec (Z.of_nat (List.length ds)) 10); [lia|].
  reflexivity.
Qed.

(** X22: the format of the account page.  The text of a number of 10
    digits or more, " - " and a name without " - " in it gives the card
    with that number and the trimmed name. *)
Theorem parseCardText_roundtrip (ds : list nat) (name : string) :
  Forall (fun d => (d < 10)%nat) ds -> (10 <= List.length ds)%nat ->
  value ds < 2 ^ 63 -> Contains name " - " = false ->
  parseCardText (digitString ds ++ " - " ++ name) =
  Some (activeCard (value ds) (TrimSpace name)).
Proof.
  intros F L V C. apply (parseCardText_entry (ds, name)).
  repeat split; assumption.
Qed.

Lemma parseCardText_roundtrip_witness :
  parseCardText "1401491737 - Guest" =
  Some (activeCard 1401491737 "Guest").
Proof.
  apply (parseCardText_roundtrip [1; 4; 0; 1; 4; 9; 1; 7; 3; 7]%nat "Guest").
  - repeat constructor.
  - simpl. lia.
  - vm_compute. reflexivity.
  - reflexivity.
Defined.

(** ** Cards of the account page *)

Lemma foundIn_nil (z : html.Tokenizer) : foundIn z [].
Proof. split; [constructor|cbn [List.length]; lia]. Qed.

Lemma foundIn_cons (tok : html.Token) (z : html.Tokenizer)
  (found : list Card) :
  foundIn z found -> foundIn (tok :: z) found.
Proof.
  intros [F B]. split.
  - eapply Forall_impl; [|exact F]. intros card [t [I H]].
    exists t. split; [right; exact I|exact H].
  - cbn [filter]. destruct (isCardSpan tok); cbn [List.length]; lia.
Qed.

Lemma foundIn_card (tok next : html.Token) (z : html.Tokenizer)
  (card : Card) (found : list Card) :
  isCardSpan tok = true -> html.Type_ next = html.TextToken ->
  parseCardText (html.Data next) = Some card ->
  foundIn z found -> foundIn (tok :: next :: z) (card :: found).
Proof.
  intros S T P [F B]. split.
  - constructor.
    + exists next. split; [right; left; reflexivity|]. auto.
    + eapply Forall_impl; [|exact F]. intros c [t [I H]].
      exists t. split; [right; right; exact I|exact H].
  - cbn [filter]. rewrite S.
    destruct (isCardSpan next); cbn [List.length]; lia.
Qed.

Lemma getCardsLoop_found (n : nat) :
  forall z cards,
    (List.length z <= n)%nat ->
    exists found,
      getCardsLoop z cards = (cards ++ found, None) /\ foundIn z found.
Proof.
  induction n as [|n IH]; intros z cards L.
  { destruct z; [|cbn [List.length] in L; lia].
    exists []. rewrite app_nil_r. split; [reflexivity|apply foundIn_nil]. }
  destruct z as [|tok rest].
  { exists []. rewrite app_nil_r. split; [reflexivity|apply foundIn_nil]. }
  cbn [List.length] in L.
  assert (Skip : exists found,
            getCardsLoop rest cards = (cards ++ found, None) /\
            foundIn (tok :: rest) found).
  { destruct (IH rest cards ltac:(lia)) as [found [E F]].
    exists found. split; [exact E|apply foundIn_cons, F]. }
  assert (Stop : exists found,
            (cards, @None plainError) = (cards ++ found, None) /\
            foundIn (tok :: rest) found).
  { exists []. rewrite app_nil_r. split; [reflexivity|apply foundIn_nil]. }
  pose proof (eq_refl : isCardSpan tok = isCardSpan tok) as S.
  unfold isCardSpan at 2 in S. unfold hasAttribute in S.
  cbn [getCardsLoop].
  destruct (html.Type_ tok) eqn:T; try exact Skip; try exact Stop.
  destruct (String.eqb (html.Data tok) "span"); cbn [negb andb] in *;
    [|exact Skip].
  destruct (existsb _ (html.Attr tok)); cbn [negb]; [|exact Skip].
  destruct rest as [|next rest']; [exact Stop|].
  cbn [List.length] in L.
  assert (Skip2 : forall cs, exists found,
            getCardsLoop rest' cs = (cs ++ found, None) /\
            foundIn (tok :: next :: rest') found).
  { intros cs. destruct (IH rest' cs ltac:(lia)) as [found [E F]].
    exists found. split; [exact E|]. apply foundIn_cons, foundIn_cons, F. }
  destruct (html.Type_ next) eqn:N; try exact (Skip2 cards); try exact Stop.
  destruct (parseCardText (html.Data next)) as [card|] eqn:P;
    [|exact (Skip2 cards)].
  destruct (IH rest' (cards ++ [card]) ltac:(lia)) as [found [E F]].
  exists (card :: found). rewrite E, <- app_assoc.
  split; [reflexivity|]. apply foundIn_card; assumption.
Qed.

(** X23: [getCards] never returns an error, and each card it returns is
    what [parseCardText] makes of a text token of the document; there are
    no more cards than marked [span] start tags. *)
Theorem getCards_cards (z : html.Tokenizer) :
  snd (getCards z) = None /\
  Forall (fun card =>
            exists tok, In tok z /\ html.Type_ tok = html.TextToken /\
                        parseCardText (html.Data tok) = Some card)
         (fst (getCards z)) /\
  (List.length (fst (getCards z))
   <= List.length (filter isCardSpan z))%nat /\
  Forall (fun card => Status card = "Active" /\ Type_ card = "ADULT")
         (fst (getCards z)).
Proof.
  unfold getCards.
  destruct (getCardsLoop_found (List.length z) z [] ltac:(lia))
    as [found [E [F B]]].
  rewrite E. cbn [fst snd app].
  split; [reflexivity|]. split; [exact F|]. split; [exact B|].
  eapply Forall_impl; [|exact F]. intros card [tok [_ [_ P]]].
  unfold parseCardText in P.
  destruct (negb _); [discriminate|].
  destruct (ParseInt _) as [n [e|]]; [discriminate|].
  destruct (_ <? 10); [discriminate|].
  injection P as <-. auto.
Qed.

(** X24: an account page that lists its cards, each as a marked [span]
    followed by the text of a valid entry, gives those cards, in the
    order of the page. *)
Theorem getCards_listing (entries : list (list nat * string)) :
  Forall validEntry entries ->
  getCards (flat_map cardEntry entries) = (map cardOf entries, None).
Proof.
  intros V. unfold getCards.
  assert (G : forall cards,
            getCardsLoop (flat_map cardEntry entries) cards =
            (cards ++ map cardOf entries, None)).
  { induction V as [|entry entries Ve Vs IH]; intros cards.
    - cbn. rewrite app_nil_r. reflexivity.
    - cbn [flat_map cardEntry app map].
      cbn [getCardsLoop cardSpan textToken html.Type_ html.Data html.Attr
           attribute existsb html.Key html.Val].
      change (String.eqb "span" "span") with true.
      change (String.eqb "class" "class") with true.
      change (String.eqb "d-inline-block" "d-inline-block") with true.
      cbn [negb andb orb].
      rewrite (parseCardText_entry entry Ve), IH, <- app_assoc.
      reflexivity. }
  apply (G []).
Qed.

Lemma getCards_listing_witness :
  getCards
    (flat_map cardEntry
       [([1; 4; 0; 1; 4; 9; 1; 7; 3; 7]%nat, "Guest");
        ([1; 2; 0; 2; 5; 0; 2; 8; 4; 8]%nat, " Kids ")]) =
  ([activeCard 1401491737 "Guest"; activeCard 1202502848 "Kids"], None).
Proof.
  apply (getCards_listing
           [([1; 4; 0; 1; 4; 9; 1; 7; 3; 7]%nat, "Guest");
            ([1; 2; 0; 2; 5; 0; 2; 8; 4; 8]%nat, " Kids ")]).
  repeat constructor; cbn; lia.
Defined.

(** ** Table assembler: warnings *)










(** ** Tab counts, all outcomes *)

Lemma findPositionIdx_outOfRange (c : float64) :
  outOfRange c -> findPositionIdx c = Panics (InvalidPos c).
Proof.
  intros O. destruct (findPositionIdx_cases c) as [[_ E]|[L [G _]]];
    [exact E|]. destruct O as [O|O]; congruence.
Qed.

Lemma findPositionIdx_returns (c : float64) :
  inRange c -> exists i, findPositionIdx c = Returns i /\ 0 <= i <= 7.
Proof.
  intros R. destruct (findPositionIdx_cases c) as [[O _]|[_ [_ H]]];
    [|exact H]. destruct (inRange_not_outOfRange _ R O).
Qed.

(** X2: [howManyTabs] panics with "not expected" when the previous
    position is at or after the current one.  With the positions in
    order, it panics over the previous position when that one lies
    outside [0, 1100]; it panics over the current position when the
    previous one lies inside and the current one outside; it returns a
    count between 0 and 7 when both lie inside; and there is no other
    case. *)
Theorem howManyTabs_outcomes (prevPos curPos : float64) :
  (geb prevPos curPos = true ->
   howManyTabs prevPos curPos = Panics NotExpected) /\
  (ltb prevPos curPos = true ->
   (outOfRange prevPos ->
    howManyTabs prevPos curPos = Panics (InvalidPos prevPos)) /\
   (inRange prevPos -> outOfRange curPos ->
    howManyTabs prevPos curPos = Panics (InvalidPos curPos)) /\
   (inRange prevPos -> inRange curPos ->
    exists n, howManyTabs prevPos curPos = Returns n /\ 0 <= n <= 7) /\
   (outOfRange prevPos \/ (inRange prevPos /\ outOfRange curPos) \/
    (inRange prevPos /\ inRange curPos))).
Proof.
  split.
  - intros H. unfold howManyTabs. rewrite H. reflexivity.
  - intros Hpq. destruct (ltb_notNaN _ _ Hpq) as [Np Nq].
    assert (E : howManyTabs prevPos curPos =
                (idx <- findPositionIdx prevPos ;;
                 idx2 <- findPositionIdx curPos ;;
                 Returns (idx2 - idx))).
    { unfold howManyTabs, geb. rewrite (ltb_not_geb _ _ Hpq). reflexivity. }
    split; [|split; [|split]].
    + intros O. rewrite E, (findPositionIdx_outOfRange _ O). reflexivity.
    + intros R O. destruct (findPositionIdx_returns _ R) as [ip [Ep _]].
      rewrite E, Ep, (findPositionIdx_outOfRange _ O). reflexivity.
    + intros Rp Rq.
      destruct (findPositionIdx_returns _ Rp) as [ip [Ep Bp]].
      destruct (findPositionIdx_returns _ Rq) as [iq [Eq Bq]].
      exists (iq - ip). rewrite E, Ep, Eq. split; [reflexivity|].
      pose proof (findPositionIdx_mono _ _ _ _ Rp Rq Hpq Ep Eq). lia.
    + destruct (findPositionIdx_cases prevPos) as [[Op _]|[Lp [Gp _]]];
        [left; exact Op|].
      assert (Rp : inRange prevPos) by (apply inRange_of_guard; assumption).
      destruct (findPositionIdx_cases curPos) as [[Oq _]|[Lq [Gq _]]];
        [right; left; auto|].
      right. right. split; [exact Rp|].
      apply inRange_of_guard; assumption.
Qed.

Lemma howManyTabs_outcomes_witness :
  howManyTabs (ofZ 500) (ofZ 28) = Panics NotExpected /\
  howManyTabs (ofZ (-5)) (ofZ 2000) = Panics (InvalidPos (ofZ (-5))) /\
  howManyTabs (ofZ 28) (ofZ 2000) = Panics (InvalidPos (ofZ 2000)) /\
  (exists n, howManyTabs (ofZ 28) (ofZ 500) = Returns n /\ 0 <= n <= 7).
Proof.
  split; [|split; [|split]].
  - apply (proj1 (howManyTabs_outcomes (ofZ 500) (ofZ 28))).
    vm_compute. reflexivity.
  - apply (proj2 (howManyTabs_outcomes (ofZ (-5)) (ofZ 2000))).
    + vm_compute. reflexivity.
    + left. vm_compute. reflexivity.
  - apply (proj2 (howManyTabs_outcomes (ofZ 28) (ofZ 2000))).
    + vm_compute. reflexivity.
    + split; vm_compute; reflexivity.
    + right. vm_compute. reflexivity.
  - apply (proj2 (howManyTabs_outcomes (ofZ 28) (ofZ 500))).
    + vm_compute. reflexivity.
    + split; vm_compute; reflexivity.
    + split; vm_compute; reflexivity.
Defined.

(** ** Text reconstructor: rows and columns *)

Lemma inRange_set (x : float64) : inRange x -> eqb x (ofZ (-1)) = false.
Proof.
  intros [H _]. unfold eqb, SFeqb.
  destruct (SFcompare x (ofZ (-1))) as [[| |]|] eqn:E; try reflexivity.
  exfalso. apply leb_spec in H as [H|H].
  - pose proof (SFcompare_lt_eq_trans _ _ _ H E) as C.
    vm_compute in C. discriminate.
  - pose proof (SFcompare_eq_trans _ _ _ H E) as C.
    vm_compute in C. discriminate.
Qed.

Lemma ltb_irrefl (x : float64) : ltb x x = false.
Proof.
  destruct (ltb x x) eqn:E; [|reflexivity].
  pose proof (ltb_not_geb _ _ E) as N. apply ltb_leb in E. congruence.
Qed.

Lemma howManyTabs_columns (p q : float64) :
  inRange p -> inRange q -> ltb p q = true ->
  howManyTabs p q = Returns (column q - column p) /\
  0 <= column q - column p.
Proof.
  intros Rp Rq L.
  destruct (findPositionIdx_cases p) as [[O _]|[_ [_ [ip [Ep _]]]]];
    [destruct (inRange_not_outOfRange p Rp O)|].
  destruct (findPositionIdx_cases q) as [[O _]|[_ [_ [iq [Eq _]]]]];
    [destruct (inRange_not_outOfRange q Rq O)|].
  pose proof (findPositionIdx_mono p q ip iq Rp Rq L Ep Eq) as M.
  unfold howManyTabs, geb, column.
  rewrite (ltb_not_geb _ _ L), Ep, Eq. cbn [bind]. split; [reflexivity|lia].
Qed.

Lemma step_showText (s : string) (c : cursor) :
  inText c = true -> step (showText s) c = Next (emit c s).
Proof.
  intros I. rewrite step_eq. unfold opShow, showText.
  cbn [Operand Params]. rewrite I. reflexivity.
Qed.

Lemma step_textMatrix (x y : float64) (c : cursor) :
  step (textMatrix (PdfObjectFloat x) (PdfObjectFloat y)) c =
  if eqb (yPos c) (ofZ (-1)) then trackX x (setY c y)
  else if gtb (yPos c) y then
    Continue (setY (setX (emit c (String newline EmptyString)) x) y)
  else trackX x c.
Proof. rewrite step_eq. reflexivity. Qed.

(** A cell to the right on the same row. *)
Lemma drawCell_right (y : float64) (cell : float64 * string) (c : cursor) :
  inText c = true -> yPos c = y -> inRange (xPos c) ->
  inRange (fst cell) -> ltb (xPos c) (fst cell) = true ->
  exists c',
    cursorAfter (drawCell y cell) c = Some c' /\
    txt c' =
      (txt c ++ tabs (column (fst cell) - column (xPos c)) ++ snd cell)%string /\
    inText c' = true /\ yPos c' = y /\ xPos c' = fst cell.
Proof.
  intros I Y Rp Rx L. destruct cell as [x s]. cbn [fst snd] in *.
  unfold drawCell. cbn [fst snd cursorAfter].
  rewrite step_textMatrix.
  assert (T' : forall c0, xPos c0 = xPos c -> txt c0 = txt c ->
                 inText c0 = inText c ->
                 exists c1, trackX x c0 = Next c1 /\
                   txt c1 = (txt c ++ tabs (column x - column (xPos c)))%string
                   /\ inText c1 = true /\ xPos c1 = x /\ yPos c1 = yPos c0).
  { intros c0 X0 T0 I0. unfold trackX. rewrite X0, (inRange_set _ Rp), L.
    destruct (howManyTabs_columns _ _ Rp Rx L) as [H N]. rewrite H.
    unfold Repeat. destruct (Z.ltb_spec (column x - column (xPos c)) 0);
      [lia|].
    eexists. split; [reflexivity|].
    cbn [setX emit txt inText xPos yPos]. rewrite T0, I0. auto. }
  assert (G : gtb (yPos c) y = false).
  { rewrite Y. apply ltb_irrefl. }
  rewrite G.
  assert (Both : exists c1,
            (if eqb (yPos c) (ofZ (-1)) then trackX x (setY c y)
             else trackX x c) = Next c1 /\
            txt c1 = (txt c ++ tabs (column x - column (xPos c)))%string /\
            inText c1 = true /\ xPos c1 = x /\ yPos c1 = y).
  { destruct (eqb (yPos c) (ofZ (-1))).
    - destruct (T' (setY c y) eq_refl eq_refl eq_refl) as [c1 [E H]].
      exists c1. split; [exact E|]. cbn [setY yPos] in H. tauto.
    - destruct (T' c eq_refl eq_refl eq_refl) as [c1 [E H]].
      exists c1. split; [exact E|]. rewrite Y in H. tauto. }
  destruct Both as [c1 [E [T1 [I1 [X1 Y1]]]]].
  destruct (eqb (yPos c) (ofZ (-1))); rewrite E;
    rewrite (step_showText s c1 I1);
    (eexists; split; [reflexivity|]);
    cbn [emit txt inText xPos yPos]; rewrite T1, append_assoc; auto.
Qed.

Lemma drawRow_tail (y : float64) (cells : list (float64 * string)) :
  forall c,
    inText c = true -> yPos c = y -> inRange (xPos c) ->
    increasingFrom (xPos c) cells ->
    exists c',
      cursorAfter (flat_map (drawCell y) cells) c = Some c' /\
      txt c' = (txt c ++ rowTail (xPos c) cells)%string /\
      inText c' = true /\ yPos c' = y /\ inRange (xPos c').
Proof.
  induction cells as [|cell rest IH]; intros c I Y R Inc.
  - exists c. cbn [flat_map cursorAfter rowTail]. rewrite append_nil_r. auto.
  - destruct Inc as [L [Rx Inc]].
    destruct (drawCell_right y cell c I Y R Rx L) as [c1 [E [T [I1 [Y1 X1]]]]].
    destruct (IH c1 I1 Y1) as [c2 [E2 [T2 [I2 [Y2 R2]]]]];
      [rewrite X1; exact Rx|rewrite X1; exact Inc|].
    exists c2. cbn [flat_map].
    rewrite (cursorAfter_app _ _ _ _ E), E2. split; [reflexivity|].
    rewrite T2, T, X1. cbn [rowTail]. rewrite !append_assoc. auto.
Qed.

Lemma drawRow_first (row : float64 * list (float64 * string)) (c : cursor) :
  inText c = true -> eqb (yPos c) (ofZ (-1)) = true ->
  eqb (xPos c) (ofZ (-1)) = true -> leftToRight row ->
  exists c',
    cursorAfter (drawRow row) c = Some c' /\
    txt c' = (txt c ++ rowText (snd row))%string /\
    inText c' = true /\ yPos c' = fst row.
Proof.
  intros I Y X [_ G]. destruct row as [y [|[x s] rest]]; cbn [fst snd] in *;
    [contradiction|]. destruct G as [Rx Inc].
  unfold drawRow. cbn [fst snd flat_map drawCell app cursorAfter].
  rewrite step_textMatrix, Y. unfold trackX. cbn [setY xPos]. rewrite X.
  rewrite step_showText by exact I.
  destruct (drawRow_tail y rest (emit (setX (setY c y) x) s))
    as [c2 [E2 [T2 [I2 [Y2 _]]]]]; try assumption; try reflexivity.
  exists c2. split; [exact E2|]. rewrite T2.
  cbn [emit setX setY txt xPos rowText fst snd]. rewrite append_assoc. auto.
Qed.

Lemma drawRow_below (row : float64 * list (float64 * string)) (c : cursor) :
  inText c = true -> eqb (yPos c) (ofZ (-1)) = false ->
  gtb (yPos c) (fst row) = true -> leftToRight row ->
  exists c',
    cursorAfter (drawRow row) c = Some c' /\
    txt c' = (txt c ++ String newline EmptyString
              ++ rowText (snd row))%string /\
    inText c' = true /\ yPos c' = fst row.
Proof.
  intros I Y Gt [_ G]. destruct row as [y [|[x s] rest]]; cbn [fst snd] in *;
    [contradiction|]. destruct G as [Rx Inc].
  unfold drawRow. cbn [fst snd flat_map drawCell app cursorAfter].
  rewrite step_textMatrix, Y, Gt.
  rewrite step_showText by exact I.
  destruct (drawRow_tail y rest
              (emit (setY (setX (emit c (String newline EmptyString)) x) y) s))
    as [c2 [E2 [T2 [I2 [Y2 _]]]]]; try assumption; try reflexivity.
  exists c2. split; [exact E2|]. rewrite T2.
  cbn [emit setX setY txt xPos rowText fst snd].
  rewrite !append_assoc. auto.
Qed.

Lemma drawRows_below (rows : list (float64 * list (float64 * string))) :
  forall c,
    inText c = true -> eqb (yPos c) (ofZ (-1)) = false ->
    topDown (yPos c) rows ->
    exists c',
      cursorAfter (flat_map drawRow rows) c = Some c' /\
      txt c' = (txt c ++ rowsBelow rows)%string.
Proof.
  induction rows as [|row rest IH]; intros c I Y T.
  - exists c. cbn [flat_map cursorAfter rowsBelow]. rewrite append_nil_r.
    auto.
  - destruct T as [Gt [L T]].
    destruct (drawRow_below row c I Y Gt L) as [c1 [E1 [T1 [I1 Y1]]]].
    destruct (IH c1 I1) as [c2 [E2 T2]];
      [rewrite Y1; apply L|rewrite Y1; exact T|].
    exists c2. cbn [flat_map].
    rewrite (cursorAfter_app _ _ _ _ E1), E2. split; [reflexivity|].
    rewrite T2, T1. cbn [rowsBelow]. rewrite !append_assoc. reflexivity.
Qed.

(** X25: rows and columns from positions.  For a text block that draws
    rows from the top of the page down and the cells of each row from
    left to right, all at offsets in [0, 1100], the text is the rows with
    one newline between them, and in a row there are as many tabs before
    a cell as its column is to the right of the column of the cell before
    it; the first cell of a row gets no tab, whatever its column. *)
Theorem extractText_page (row : float64 * list (float64 * string))
  (below : list (float64 * list (float64 * string))) :
  leftToRight row -> topDown (fst row) below ->
  runOperations (beginText :: flat_map drawRow (row :: below))
                initialCursor =
  Returns (pageText (row :: below), None).
Proof.
  intros L T. apply cursorAfter_text.
  cbn [cursorAfter]. rewrite step_eq. cbn [Operand beginText].
  change (String.eqb "BT" "BT") with true. cbv iota.
  destruct (drawRow_first row (setInText initialCursor true))
    as [c1 [E1 [T1 [I1 Y1]]]];
    [reflexivity|vm_compute; reflexivity|vm_compute; reflexivity|exact L|].
  destruct (drawRows_below below c1 I1) as [c2 [E2 T2]];
    [rewrite Y1; apply L|rewrite Y1; exact T|].
  exists c2. cbn [flat_map].
  rewrite (cursorAfter_app _ _ _ _ E1), E2. split; [reflexivity|].
  rewrite T2, T1. reflexivity.
Qed.

Lemma extractText_page_witness :
  let top := (ofZ 700, [(ofZ 28, "ab"); (ofZ 500, "cd")]) in
  let below := [(ofZ 680, [(ofZ 300, "ef")])] in
  leftToRight top /\ topDown (fst top) below /\
  runOperations (beginText :: flat_map drawRow (top :: below))
                initialCursor =
  Returns (pageText (top :: below), None).
Proof.
  intros top below.
  assert (L : leftToRight top).
  { split; [vm_compute; reflexivity|]. cbn [top snd fst increasingFrom].
    repeat split; vm_compute; reflexivity. }
  assert (T : topDown (fst top) below).
  { cbn [top below topDown fst snd]. split; [vm_compute; reflexivity|].
    split; [|exact I]. split; [vm_compute; reflexivity|].
    cbn [snd fst increasingFrom]. repeat split; vm_compute; reflexivity. }
  split; [exact L|]. split; [exact T|].
  exact (extractText_page top below L T).
Defined.

Lemma Split_app_tab (s r : string) :
  countByte tab s = O ->
  Split (s ++ String tab r) tab = s :: Split r tab.
Proof.
  induction s as [|c s IH]; cbn [countByte String.append].
  - intros _. reflexivity.
  - cbn [Split]. destruct (Ascii.eqb c tab); [discriminate|].
    intros H. rewrite (IH H). reflexivity.
Qed.

Lemma tabs_succ (n : Z) : 0 <= n -> tabs (n + 1) = String tab (tabs n).
Proof.
  intros H. unfold tabs.
  replace (Z.to_nat (n + 1)) with (S (Z.to_nat n)) by lia.
  cbn [repeat String.concat].
  destruct (repeat (String tab EmptyString) (Z.to_nat n)); reflexivity.
Qed.

Lemma Split_tabs (n : nat) (r : string) :
  Split (tabs (Z.of_nat n) ++ r) tab =
  repeat EmptyString n ++ Split r tab.
Proof.
  induction n as [|n IH]; [reflexivity|].
  replace (Z.of_nat (S n)) with (Z.of_nat n + 1) by lia.
  rewrite tabs_succ by lia. cbn [String.append Split repeat app].
  rewrite Ascii.eqb_refl, IH. reflexivity.
Qed.

Lemma Split_rowTail (cells : list (float64 * string)) :
  forall prev s,
    countByte tab s = O -> columnsFrom prev cells ->
    Split (s ++ rowTail prev cells) tab = s :: fieldsTail prev cells /\
    len (s :: fieldsTail prev cells) =
      lastColumn prev cells - column prev + 1.
Proof.
  induction cells as [|[x t] rest IH]; intros prev s S C;
    cbn [rowTail fieldsTail lastColumn fst snd].
  - rewrite append_nil_r, (Split_none _ _ S). unfold len. cbn. split;
      [reflexivity|lia].
  - destruct C as [Lt [St C]]. cbn [fst snd] in *.
    destruct (IH x t St C) as [E Ln].
    remember (Z.to_nat (column x - column prev - 1)) as n eqn:N.
    assert (D : column x - column prev = Z.of_nat n + 1) by lia.
    rewrite D, tabs_succ by lia. cbn [String.append].
    rewrite (Split_app_tab _ _ S), Split_tabs, E. split; [reflexivity|].
    unfold len in *. cbn [List.length] in *.
    rewrite length_app, repeat_length. cbn [List.length]. lia.
Qed.

(** X26: a drawn row as a record.  When the cells of a row lie in
    strictly increasing columns and their texts hold no tab, the text of
    the row splits at its tabs in the texts of the cells with one empty
    field for each column passed over, as many fields as columns from the
    first cell to the last.  [parseLine] accepts such a row as a record
    exactly when it spans 8 columns and is no page footer, and then the
    record is these fields; a row that is a page footer ends the page; a
    row that spans another number of columns is an invalid line, unless
    it is the disclaimer, which ends the page. *)
Theorem parseLine_row (cell : float64 * string)
  (rest : list (float64 * string)) :
  countByte tab (snd cell) = O -> columnsFrom (fst cell) rest ->
  let text := rowText (cell :: rest) in
  let fields := rowFields (cell :: rest) in
  Split text tab = fields /\
  len fields = lastColumn (fst cell) rest - column (fst cell) + 1 /\
  ((exists parts, parseLine text = (parts, None)) <->
   len fields = 8 /\ ~ pageFooter fields) /\
  (forall parts, parseLine text = (parts, None) -> parts = fields) /\
  (pageFooter fields -> parseLine text = ([], Some EOF)) /\
  (trailingDisclaimer fields -> parseLine text = ([], Some EOF)) /\
  (len fields <> 8 -> ~ trailingDisclaimer fields ->
   parseLine text = ([], Some (InvalidLine text))).
Proof.
  intros S C text fields.
  destruct (Split_rowTail rest (fst cell) (snd cell) S C) as [E Ln].
  change (Split text tab = fields) in E.
  change (len fields = lastColumn (fst cell) rest - column (fst cell) + 1)
    in Ln.
  split; [exact E|]. split; [exact Ln|].
  pose proof (parseLine_cases text) as P. cbv zeta in P. rewrite E in P.
  destruct P as [[F P]|[[NF [D P]]|[[NF [ND [N P]]]|[NF [ND [N P]]]]]];
    rewrite P.
  - split; [split; [intros [parts H]; discriminate H|tauto]|].
    split; [intros parts H; discriminate H|].
    split; [reflexivity|]. destruct F as [L8 _].
    split; [intros [L _]; lia|]. intros L; contradiction.
  - split; [split; [intros [parts H]; discriminate H|]|].
    { destruct D as [L _]. intros [L8 _]. lia. }
    split; [intros parts H; discriminate H|].
    split; [intros F; contradiction|].
    split; [reflexivity|]. intros _ X; contradiction.
  - split; [split; [intros [parts H]; discriminate H|tauto]|].
    split; [intros parts H; discriminate H|].
    split; [intros F; contradiction|].
    split; [intros D; contradiction|]. reflexivity.
  - split; [split; [tauto|intros _; exists fields; reflexivity]|].
    split; [intros parts [= <-]; reflexivity|].
    split; [intros F; contradiction|].
    split; [intros D; contradiction|]. intros L; contradiction.
Qed.

Lemma parseLine_row_witness :
  let cell := (ofZ 28, "01-02-2024") in
  let rest := [(ofZ 134, "fare"); (ofZ 656, "2.50"); (ofZ 722, "17.50")] in
  let foot := [(ofZ 722, "Page 1 of 2")] in
  parseLine (rowText (cell :: rest)) =
  ([ "01-02-2024"; "fare"; EmptyString; EmptyString; EmptyString; "2.50";
     EmptyString; "17.50" ], None) /\
  parseLine (rowText (cell :: foot)) = ([], Some EOF).
Proof.
  intros cell rest foot.
  assert (S : countByte tab (snd cell) = O) by reflexivity.
  split.
  - assert (C : columnsFrom (fst cell) rest).
    { cbn [cell rest columnsFrom fst snd].
      repeat split; vm_compute; reflexivity. }
    destruct (parseLine_row cell rest S C) as [_ [_ [[_ A] [B _]]]].
    destruct A as [parts A].
    + split; [vm_compute; reflexivity|].
      intros [_ [F _]]. vm_compute in F. discriminate F.
    + rewrite A. rewrite (B parts A). vm_compute. reflexivity.
  - assert (C : columnsFrom (fst cell) foot).
    { cbn [cell foot columnsFrom fst snd].
      repeat split; vm_compute; reflexivity. }
    destruct (parseLine_row cell foot S C) as [_ [_ [_ [_ [F _]]]]].
    apply F. repeat split; vm_compute; reflexivity.
Defined.
